(** * Time-Tracker: the session-tracking engine of window_tracker.py

    A shallow embedding of [src/window_tracker.py] (title classification,
    the per-project session state machine, the CSV log writer and loader)
    and of the log reader of [src/visualize_projects.py].

    Conventions of the embedding.
    - A Python [str] is a list of Unicode code points ([N]); [len], slicing
      and the regular expressions of the source count code points.
    - A text file is the [str] it decodes to; the UTF-8 codec is not
      modelled.  Newline handling of [open] is modelled, because the source
      writes with [newline=''] and reads with the default.
    - [csv.writer] and [csv.reader] are modelled for the default (excel)
      dialect as the state machine of the [_csv] module; resource limits
      (field size limit of [csv], digit limit of [int]) are not modelled.
    - [datetime.now()] reads a clock [nat -> datetime], indexed by the number
      of readings taken so far.
    - Exceptions are values of [exn] returned in a [result]. *)

From Stdlib Require Import ZArith NArith List Bool String Ascii Lia.
From stdpp Require Import gmap list fin_maps.

(** ** Python strings *)

Definition str := list N.

(** An ASCII literal as a Python string. *)
Definition py (s : string) : str := map N_of_ascii (list_ascii_of_string s).

Module Chr.
Definition LF : N := 10%N.
Definition CR : N := 13%N.
Definition SPACE : N := 32%N.
Definition QUOTE : N := 34%N.
Definition HASH : N := 35%N.
Definition STAR : N := 42%N.
Definition COMMA : N := 44%N.
Definition HYPHEN : N := 45%N.
Definition COLON : N := 58%N.
Definition UNDERSCORE : N := 95%N.
Definition EN_DASH : N := 8211%N.
Definition EM_DASH : N := 8212%N.
End Chr.

(** [Py_UNICODE_ISSPACE]: the characters that [str.strip()] removes and that
    [\s] matches in a [str] pattern. *)
Definition isspace (c : N) : bool :=
  ((9 <=? c) && (c <=? 13) || (28 <=? c) && (c <=? 32) || (c =? 133)
   || (c =? 160) || (c =? 5760) || (8192 <=? c) && (c <=? 8202)
   || (c =? 8232) || (c =? 8233) || (c =? 8239) || (c =? 8287)
   || (c =? 12288))%N.

Fixpoint lstrip_by (f : N -> bool) (s : str) : str :=
  match s with
  | [] => []
  | c :: s' => if f c then lstrip_by f s' else s
  end.

Definition rstrip_by (f : N -> bool) (s : str) : str :=
  rev (lstrip_by f (rev s)).

(** [s.strip()] *)
Definition strip (s : str) : str := rstrip_by isspace (lstrip_by isspace s).

(** [s.startswith(p)] *)
Fixpoint startswith (p s : str) : bool :=
  match p, s with
  | [], _ => true
  | _ :: _, [] => false
  | a :: p', b :: s' => (a =? b)%N && startswith p' s'
  end.

(** [p in s] for strings *)
Fixpoint contains (p s : str) : bool :=
  startswith p s ||
  match s with
  | [] => false
  | _ :: s' => contains p s'
  end.

(** ** TitleClassifier: [extract_project_name] *)

(** The character class [[-–—]]. *)
Definition is_dash (c : N) : bool :=
  ((c =? Chr.HYPHEN) || (c =? Chr.EN_DASH) || (c =? Chr.EM_DASH))%N.

(** Whether [\s*[-–—]] matches at the head of [s].  [\s*] is greedy, and a
    dash is not a space, so only the longest run of spaces can be followed
    by the dash. *)
Definition sep_at (s : str) : bool :=
  match lstrip_by isspace s with
  | d :: _ => is_dash d
  | [] => false
  end.

(** The lazy group [(.+?)] after it has consumed [acc]: try the rest of the
    pattern here, else let the group take one more character.  [.] does not
    match a line feed. *)
Fixpoint lazy_group (acc rest : str) : option str :=
  if sep_at rest then Some acc
  else match rest with
       | [] => None
       | c :: rest' =>
           if (c =? Chr.LF)%N then None else lazy_group (acc ++ [c]) rest'
       end.

(** [re.search(r'^(.+?)\s*[-–—]\s*', window_title)], giving [group(1)].
    The pattern is anchored, so the only attempt is at position 0, and the
    group takes at least one character. *)
Definition search_project (window_title : str) : option str :=
  match window_title with
  | [] => None
  | c :: rest => if (c =? Chr.LF)%N then None else lazy_group [c] rest
  end.

(** The character class of the substitution: less-than, greater-than,
    colon, double quote, slash, backslash, bar, question mark, star. *)
Definition illegal (c : N) : bool :=
  ((c =? 60) || (c =? 62) || (c =? 58) || (c =? 34) || (c =? 47)
   || (c =? 92) || (c =? 124) || (c =? 63) || (c =? 42))%N.

(** [re.sub] of that class by an underscore. *)
Definition sanitize (s : str) : str :=
  map (fun c => if illegal c then Chr.UNDERSCORE else c) s.

(** [s.lstrip('* ')] *)
Definition lstrip_star_space (s : str) : str :=
  lstrip_by (fun c => (c =? Chr.STAR)%N || (c =? Chr.SPACE)%N) s.

Definition Unnamed_Project : str := py "Unnamed_Project".

(** The name before the length test of the source. *)
Definition project_candidate (window_title : str) : str :=
  let project_name :=
    match search_project window_title with
    | Some g => strip g
    | None => take 50 window_title
    end in
  let project_name := lstrip_star_space project_name in
  sanitize project_name.

Definition extract_project_name (window_title : str) : str :=
  let project_name := project_candidate window_title in
  if (length project_name <? 2)%nat then Unnamed_Project else project_name.

(** *** The classifier as section 4.1 of the specification words it

    Used only to compare with [extract_project_name]. *)

(** The text before the first dash, if there is a dash. *)
Fixpoint before_dash (s : str) : option str :=
  match s with
  | [] => None
  | c :: s' => if is_dash c then Some [] else cons c <$> before_dash s'
  end.

(** Split on the first dash with its surrounding white space and take the
    text before it, else the first 50 characters. *)
Definition text_before_separator (title : str) : str :=
  match before_dash title with
  | Some t => rstrip_by isspace t
  | None => take 50 title
  end.

Definition classify_project_spec (title : str) : str :=
  let name := sanitize (lstrip_star_space (text_before_separator title)) in
  if (length name <? 2)%nat then Unnamed_Project else name.

(** The titles on which the two agree: the first character is neither a
    dash nor white space, and the text before the separator has no line
    feed. *)
Definition plain_start (title : str) : bool :=
  match title with
  | [] => true
  | c :: _ => negb (is_dash c) && negb (isspace c)
  end.

Definition one_line_prefix (title : str) : bool :=
  match before_dash title with
  | Some t => forallb (fun c => negb (c =? Chr.LF)%N) (rstrip_by isspace t)
  | None => true
  end.

(** ** Unicode tables of the Python runtime

    [str.lower] and the decimal value of a digit character depend on the
    Unicode database.  The embedding takes them as an interface and fixes
    only what they do on ASCII digits; [ascii_tables] is the instance that
    leaves every other character alone. *)

Definition ascii_decimal (c : N) : option Z :=
  if ((48 <=? c) && (c <=? 57))%N then Some (Z.of_N c - 48)%Z else None.

Class UnicodeTables := {
  lower : str -> str;
  decimal : N -> option Z;
  decimal_ascii : forall c, (c < 128)%N -> decimal c = ascii_decimal c
}.

Definition ascii_lower_char (c : N) : N :=
  if ((65 <=? c) && (c <=? 90))%N then (c + 32)%N else c.

#[export] Instance ascii_tables : UnicodeTables := {|
  lower := map ascii_lower_char;
  decimal := ascii_decimal;
  decimal_ascii := fun c _ => eq_refl
|}.

(** ** TitleClassifier: [get_app_name_from_title] *)

(** The dict [app_keywords], in insertion order. *)
Definition app_keywords : list (str * str) :=
  [ (py "blender", py "Blender"); (py "archicad", py "ArchiCAD");
    (py "revit", py "Revit"); (py "autocad", py "AutoCAD");
    (py "sketchup", py "SketchUp"); (py "rhino", py "Rhino");
    (py "3ds max", py "3dsMax"); (py "lumion", py "Lumion");
    (py "enscape", py "Enscape"); (py "photoshop", py "Photoshop");
    (py "illustrator", py "Illustrator"); (py "chrome", py "Chrome");
    (py "firefox", py "Firefox"); (py "excel", py "Excel");
    (py "word", py "Word"); (py "powerpoint", py "PowerPoint") ].

(** [s.split(sep)] for a non-empty [sep]: [skip] characters of a separator
    just found are still to be passed over, [cur] is the part being read. *)
Fixpoint split_aux (sep : str) (skip : nat) (cur s : str) : list str :=
  match s with
  | [] => [cur]
  | c :: s' =>
      match skip with
      | S k => split_aux sep k cur s'
      | O =>
          if startswith sep s
          then cur :: split_aux sep (length sep - 1) [] s'
          else split_aux sep 0 (cur ++ [c]) s'
      end
  end.

Definition split (sep s : str) : list str := split_aux sep 0 [] s.

Definition Unknown_App : str := py "Unknown_App".

Definition get_app_name_from_title `{UnicodeTables} (window_title : str) : str :=
  let title_lower := lower window_title in
  match List.find (fun kv => contains (fst kv) title_lower) app_keywords with
  | Some (_, app_name) => app_name
  | None =>
      let parts := split (py " - ") window_title in
      if (1 <? length parts)%nat then take 30 (List.last parts []) else Unknown_App
  end.

(** The set literal of [run]: the applications that are tracked. *)
Definition tracked_apps : list str :=
  [ py "blender"; py "archicad"; py "revit"; py "autocad"; py "sketchup";
    py "rhino"; py "3dsmax"; py "lumion"; py "enscape"; py "photoshop";
    py "illustrator"; py "vectorworks" ].

(** The test of [run] on a title. *)
Definition is_tracked `{UnicodeTables} (wtitle : str) : bool :=
  bool_decide (lower (get_app_name_from_title wtitle) ∈ tracked_apps).

(** ** Integers as text *)

(** The decimal digits of [n], most significant first, in front of [acc];
    [fuel] bounds the number of digits. *)
Fixpoint digits_of (fuel : nat) (n : N) (acc : str) : str :=
  match fuel with
  | O => acc
  | S fuel' =>
      let acc' := (48 + n mod 10)%N :: acc in
      if (n / 10 =? 0)%N then acc' else digits_of fuel' (n / 10)%N acc'
  end.

Definition str_of_N (n : N) : str := digits_of (S (N.to_nat (N.log2 n))) n [].

(** [str(z)] for an [int]. *)
Definition str_of_int (z : Z) : str :=
  if (z <? 0)%Z then Chr.HYPHEN :: str_of_N (Z.abs_N z) else str_of_N (Z.abs_N z).

(** A number zero-padded to [width] digits, as [%02d] does. *)
Definition zero_pad (width : nat) (z : Z) : str :=
  let d := str_of_int z in
  replicate (width - length d) 48%N ++ d.

(** The digits of an [int] literal after its sign: decimal digits, with
    single underscores allowed between digits.  [prev] tells whether the
    previous character was a digit. *)
Fixpoint int_digits `{UnicodeTables} (acc : Z) (prev : bool) (s : str) : option Z :=
  match s with
  | [] => if prev then Some acc else None
  | c :: s' =>
      if (c =? Chr.UNDERSCORE)%N
      then (if prev then int_digits acc false s' else None)
      else match decimal c with
           | Some d => int_digits (10 * acc + d)%Z true s'
           | None => None
           end
  end.

(** The white space that [int] ignores around a number: [int] leaves the
    ASCII separators 28 to 31 alone, unlike [strip]. *)
Definition int_isspace (c : N) : bool :=
  isspace c && negb ((28 <=? c) && (c <=? 31))%N.

(** [int(s)] for a [str]: surrounding white space is ignored, one sign is
    allowed; [None] stands for [ValueError]. *)
Definition int_of_str `{UnicodeTables} (s : str) : option Z :=
  match rstrip_by int_isspace (lstrip_by int_isspace s) with
  | c :: s' =>
      if (c =? 43)%N then int_digits 0 false s'
      else if (c =? Chr.HYPHEN)%N then Z.opp <$> int_digits 0 false s'
      else int_digits 0 false (c :: s')
  | [] => None
  end.

(** ** Time *)

(** A naive [datetime], as [datetime.now()] returns it. *)
Record datetime := {
  year : Z; month : Z; day : Z;
  hour : Z; minute : Z; second : Z; microsecond : Z
}.

(** [strftime('%Y-%m-%d %H:%M:%S')] (the year of a clock reading has four
    digits). *)
Definition strftime (d : datetime) : str :=
  zero_pad 4 (year d) ++ py "-" ++ zero_pad 2 (month d) ++ py "-"
  ++ zero_pad 2 (day d) ++ py " " ++ zero_pad 2 (hour d) ++ py ":"
  ++ zero_pad 2 (minute d) ++ py ":" ++ zero_pad 2 (second d).

Definition is_leap (y : Z) : bool :=
  ((y mod 4 =? 0) && (negb (y mod 100 =? 0) || (y mod 400 =? 0)))%Z.

Definition days_before_year (y : Z) : Z :=
  (let y := y - 1 in y * 365 + y / 4 - y / 100 + y / 400)%Z.

Definition days_before_month (y m : Z) : Z :=
  (nth (Z.to_nat m) [0; 0; 31; 59; 90; 120; 151; 181; 212; 243; 273; 304; 334] 0
   + (if (2 <? m) && is_leap y then 1 else 0))%Z.

(** [datetime.toordinal] *)
Definition toordinal (d : datetime) : Z :=
  (days_before_year (year d) + days_before_month (year d) (month d) + day d)%Z.

(** The [timedelta] [a - b], in microseconds. *)
Definition sub_microseconds (a b : datetime) : Z :=
  (((toordinal a - toordinal b) * 86400
    + ((second a + minute a * 60 + hour a * 3600)
       - (second b + minute b * 60 + hour b * 3600))) * 1000000
   + (microsecond a - microsecond b))%Z.

(** [int((a - b).total_seconds())]: [int] truncates toward zero.  The
    quotient of [total_seconds] is a float, and its whole seconds are those
    of the exact quotient for every difference below 2^34 seconds
    ([exact_seconds] below); the theorems that give the value of a
    duration carry that bound. *)
Definition elapsed_seconds (a b : datetime) : Z :=
  Z.quot (sub_microseconds a b) 1000000.

(** ** Exceptions *)

Inductive exn :=
| KeyError | IndexError | ValueError
| CsvError            (* [_csv.Error] *)
| EnumWindowsError    (* what [win32gui.EnumWindows] raises when it fails *)
| KeyboardInterrupt
| UnicodeEncodeError  (* a [write] of text that UTF-8 cannot encode *)
| OSError.            (* an [open] that the log folder refuses *)

Inductive result (A : Type) :=
| Ok (a : A)
| Raise (e : exn).
Arguments Ok {A} a.
Arguments Raise {A} e.

(** Sequencing: an exception ends the computation.  With these instances
    [x ← r; k] is stdpp's notation for it. *)
#[export] Instance result_bind : MBind result := fun A B k r =>
  match r with
  | Ok a => k a
  | Raise e => Raise e
  end.

#[export] Instance result_ret : MRet result := fun A a => Ok a.

Definition raise_none {A} (e : exn) (o : option A) : result A :=
  match o with
  | Some a => Ok a
  | None => Raise e
  end.

(** ** Insertion-ordered dictionaries

    [session_active] is iterated by [run], and the log folder is listed by
    [load_existing_sessions], so both keep their order. *)

Section Dict.
Context {V : Type}.

Fixpoint dict_get (k : str) (d : list (str * V)) : option V :=
  match d with
  | [] => None
  | (k', v) :: d' => if decide (k = k') then Some v else dict_get k d'
  end.

(** [d[k] = v]: an existing key keeps its place, a new one goes last. *)
Fixpoint dict_set (k : str) (v : V) (d : list (str * V)) : list (str * V) :=
  match d with
  | [] => [(k, v)]
  | (k', v') :: d' =>
      if decide (k = k') then (k, v) :: d' else (k', v') :: dict_set k v d'
  end.

(** What [d.pop(k)] leaves. *)
Fixpoint dict_remove (k : str) (d : list (str * V)) : list (str * V) :=
  match d with
  | [] => []
  | (k', v') :: d' =>
      if decide (k = k') then d' else (k', v') :: dict_remove k d'
  end.

Definition dict_keys (d : list (str * V)) : list str := d.*1.
End Dict.

(** ** SessionStore: the log writer *)

(** A closed session, as the dicts appended to [sessions[proj]]. *)
Record session := {
  s_start : str;
  s_end : str;
  s_duration : Z;
  s_window_title : str
}.

(** An entry of [session_active]. *)
Record active_session := {
  a_start : datetime;
  a_window_title : str
}.

(** An entry of [log_meta]; either key can be missing after a load. *)
Record meta := {
  created : option str;
  last_changed : option str
}.

(** [csv.writer], excel dialect: a field is quoted when it holds the
    delimiter, the quote character or a character of the line terminator,
    and quote characters are doubled. *)
Definition csv_special (c : N) : bool :=
  ((c =? Chr.COMMA) || (c =? Chr.QUOTE) || (c =? Chr.CR) || (c =? Chr.LF))%N.

Definition csv_field (field : str) : str :=
  if existsb csv_special field
  then Chr.QUOTE
       :: flat_map (fun c => if (c =? Chr.QUOTE)%N then [c; c] else [c]) field
       ++ [Chr.QUOTE]
  else field.

Fixpoint join (sep : str) (l : list str) : str :=
  match l with
  | [] => []
  | [x] => x
  | x :: l' => x ++ sep ++ join sep l'
  end.

(** The text that [writer.writerow(fields)] writes. *)
Definition writerow (fields : list str) : str :=
  match fields with
  | [[]] => [Chr.QUOTE; Chr.QUOTE; Chr.CR; Chr.LF]
  | _ => join [Chr.COMMA] (map csv_field fields) ++ [Chr.CR; Chr.LF]
  end.

Definition csv_header : list str :=
  [ py "session_start"; py "session_end"; py "session_duration_sec";
    py "window_title" ].

Definition session_row (s : session) : list str :=
  [ s_start s; s_end s; str_of_int (s_duration s); s_window_title s ].

(** [sum(s['duration'] for s in ...)] *)
Definition total_duration (l : list session) : Z :=
  foldr Z.add 0%Z (s_duration <$> l).

(** The whole text that [save_session_log] writes: the header lines, the
    row of column names and a row for each session.  The file is opened with
    [newline=''], so nothing is translated. *)
Definition log_text (created last_changed : str) (total_time : Z)
    (l : list session) : str :=
  py "# Created: " ++ created ++ [Chr.LF]
  ++ py "# Last changed: " ++ last_changed ++ [Chr.LF]
  ++ py "# Total time across all sessions (sec): "
  ++ str_of_int total_time ++ [Chr.LF]
  ++ py "# Columns: session_start, session_end, session_duration_sec, window_title"
  ++ [Chr.LF]
  ++ writerow csv_header
  ++ flat_map (fun s => writerow (session_row s)) l.

(** The name of a project's log inside [LOG_FOLDER]. *)
Definition log_name (proj : str) : str := proj ++ py "_log.csv".

(** ** SessionTracker: the state of a [WindowTimeTracker]

    [files] is the content of [LOG_FOLDER], in the order in which
    [os.listdir] lists it; [ticks] counts the clock readings taken. *)
Record tracker := {
  session_active : list (str * active_session);
  sessions : gmap str (list session);
  log_meta : gmap str meta;
  files : list (str * str);
  ticks : nat
}.

(** [self.sessions[proj]] of the [defaultdict(list)]. *)
Definition sessions_of (t : tracker) (proj : str) : list session :=
  default [] (sessions t !! proj).

Section Tracker.
Context `{UnicodeTables}.
(** [clock n] is what the [n]-th call of [datetime.now()] returns. *)
Context (clock : nat -> datetime).
(** The order in which a [set] of project names is iterated after [n]
    clock readings; [run] iterates [set(session_active) - tracked_now]. *)
Context (iteration_order : nat -> list str -> list str).

(** [self.log_meta.get(proj,{}).get('created', first['start'])] *)
Definition created_or_start (proj : str) (first : session) (t : tracker) : str :=
  match log_meta t !! proj with
  | Some m => default (s_start first) (created m)
  | None => s_start first
  end.

Definition save_session_log (proj : str) (t : tracker) : tracker :=
  match sessions_of t proj with
  | [] => t
  | first :: _ =>
      let total_time := total_duration (sessions_of t proj) in
      let created := created_or_start proj first t in
      let last_changed := strftime (clock (ticks t)) in
      {| session_active := session_active t;
         sessions := sessions t;
         log_meta :=
           <[proj := {| created := Some created;
                        last_changed := Some last_changed |}]> (log_meta t);
         files :=
           dict_set (log_name proj)
             (log_text created last_changed total_time (sessions_of t proj))
             (files t);
         ticks := S (ticks t) |}
  end.

Definition on_window_open (window_title : str) (t : tracker) : tracker :=
  let proj := extract_project_name window_title in
  match dict_get proj (session_active t) with
  | Some _ => t
  | None =>
      {| session_active :=
           dict_set proj {| a_start := clock (ticks t);
                            a_window_title := window_title |}
             (session_active t);
         sessions := sessions t;
         log_meta := log_meta t;
         files := files t;
         ticks := S (ticks t) |}
  end.

Definition on_window_close (window_title : str) (t : tracker) : tracker :=
  let proj := extract_project_name window_title in
  match dict_get proj (session_active t) with
  | None => t
  | Some session =>
      let end_time := clock (ticks t) in
      let duration := elapsed_seconds end_time (a_start session) in
      save_session_log proj
        {| session_active := dict_remove proj (session_active t);
           sessions :=
             <[proj := sessions_of t proj
                       ++ [ {| s_start := strftime (a_start session);
                               s_end := strftime end_time;
                               s_duration := duration;
                               s_window_title := window_title |} ] ]>
               (sessions t);
           log_meta := log_meta t;
           files := files t;
           ticks := S (ticks t) |}
  end.

(** The first loop of a cycle of [run]: the projects seen, and a session
    opened for each one that has none. *)
Fixpoint track_starts (current_windows : list str) (tracked_now : list str)
    (t : tracker) : list str * tracker :=
  match current_windows with
  | [] => (tracked_now, t)
  | wtitle :: rest =>
      let proj := extract_project_name wtitle in
      if is_tracked wtitle
      then track_starts rest (proj :: tracked_now)
             (match dict_get proj (session_active t) with
              | None => on_window_open wtitle t
              | Some _ => t
              end)
      else track_starts rest tracked_now t
  end.

(** [for proj in projs: on_window_close(session_active[proj]['window_title'])] *)
Fixpoint close_each (projs : list str) (t : tracker) : result tracker :=
  match projs with
  | [] => Ok t
  | proj :: rest =>
      a ← raise_none KeyError (dict_get proj (session_active t));
      close_each rest (on_window_close (a_window_title a) t)
  end.

(** One iteration of the loop of [run], up to the [sleep]. *)
Definition poll_cycle (current_windows : list str) (t : tracker) : result tracker :=
  let '(tracked_now, t1) := track_starts current_windows [] t in
  let closed_projs :=
    iteration_order (ticks t1)
      (List.filter (fun proj => bool_decide (proj ∉ tracked_now))
         (dict_keys (session_active t1))) in
  close_each closed_projs t1.

(** The [except KeyboardInterrupt] handler of [run]. *)
Definition shutdown (t : tracker) : result tracker :=
  close_each (dict_keys (session_active t)) t.
End Tracker.

(** ** Poller: [get_all_open_windows] and [run] *)

(** A top-level window, as [EnumWindows] hands it to the callback. *)
Record window := {
  visible : bool;       (* [win32gui.IsWindowVisible] *)
  window_text : str     (* [win32gui.GetWindowText] *)
}.

(** What the desktop gives to one call of [win32gui.EnumWindows]: the
    windows, or a failure of the call. *)
Inductive desktop :=
| Enumerated (ws : list window)
| EnumFailed.

(** No handler surrounds [EnumWindows], so its failure is the failure of
    the function. *)
Definition get_all_open_windows (d : desktop) : result (list str) :=
  match d with
  | Enumerated ws =>
      Ok (window_text <$>
            List.filter
              (fun w => visible w && negb (bool_decide (window_text w = [])))
              ws)
  | EnumFailed => Raise EnumWindowsError
  end.

(** What happens to the process between two sleeps: a cycle runs against
    the desktop, or Ctrl-C arrives (during the sleep). *)
Inductive event :=
| Cycle (d : desktop)
| CtrlC.

(** How [run] stands after a list of events: still in its loop, returned
    through the [KeyboardInterrupt] handler, or left by an exception that
    nothing handles.  The tracker of [Crashed] is the one the failing cycle
    started with. *)
Inductive exit :=
| Looping (t : tracker)
| Stopped (t : tracker)
| Crashed (e : exn) (t : tracker).

Section Run.
Context `{UnicodeTables}.
Context (clock : nat -> datetime).
Context (iteration_order : nat -> list str -> list str).

Fixpoint run (events : list event) (t : tracker) : exit :=
  match events with
  | [] => Looping t
  | Cycle d :: rest =>
      match get_all_open_windows d with
      | Raise e => Crashed e t
      | Ok current_windows =>
          match poll_cycle clock iteration_order current_windows t with
          | Ok t' => run rest t'
          | Raise e => Crashed e t
          end
      end
  | CtrlC :: _ =>
      match shutdown clock t with
      | Ok t' => Stopped t'
      | Raise e => Crashed e t
      end
  end.
End Run.

(** ** A log folder that can refuse a write

    [save_session_log] above is the save when [open] and every [write]
    succeed.  [open(fname, 'w')] raises [OSError] for a name that the
    folder does not accept, and a [write] raises [UnicodeEncodeError] for
    text that UTF-8 cannot encode (a lone surrogate in a window title).
    Nothing handles either.  The functions of the module [Disk] are those
    of [WindowTimeTracker] with these failures. *)

(** Text that the UTF-8 codec encodes: no surrogate code point. *)
Definition encodable (s : str) : bool :=
  forallb (fun c => negb ((55296 <=? c) && (c <=? 57343))%N) s.

(** The text of a log in the pieces in which it is written: one [write]
    for each header line, and one for each row of the [csv.writer]. *)
Definition log_pieces (created last_changed : str) (total_time : Z)
    (l : list session) : list str :=
  [ py "# Created: " ++ created ++ [Chr.LF];
    py "# Last changed: " ++ last_changed ++ [Chr.LF];
    py "# Total time across all sessions (sec): "
      ++ str_of_int total_time ++ [Chr.LF];
    py "# Columns: session_start, session_end, session_duration_sec, window_title"
      ++ [Chr.LF];
    writerow csv_header ]
  ++ map (fun s => writerow (session_row s)) l.

(** The writes up to the first piece that cannot be encoded: the text that
    reaches the file (the [with] statement closes it), and whether that is
    all of it. *)
Fixpoint write_pieces (written : str) (pieces : list str) : str * bool :=
  match pieces with
  | [] => (written, true)
  | piece :: rest =>
      if encodable piece then write_pieces (written ++ piece) rest
      else (written, false)
  end.

(** How a method ends: it returns, or an exception leaves it; in both
    cases with the tracker as the method has made it by then. *)
Inductive outcome :=
| Done (t : tracker)
| Failed (e : exn) (t : tracker).

Module Disk.
Section Folder.
Context `{UnicodeTables}.
Context (clock : nat -> datetime).
Context (iteration_order : nat -> list str -> list str).
(** Whether [open(fname, 'w')] succeeds for the file of that name. *)
Context (writable : str -> bool).

(** The metadata are set before the file is opened, and [open] empties
    the file before anything is written. *)
Definition save_session_log (proj : str) (t : tracker) : outcome :=
  match sessions_of t proj with
  | [] => Done t
  | first :: _ =>
      let total_time := total_duration (sessions_of t proj) in
      let created := created_or_start proj first t in
      let last_changed := strftime (clock (ticks t)) in
      let log_meta' :=
        <[proj := {| created := Some created;
                     last_changed := Some last_changed |}]> (log_meta t) in
      if writable (log_name proj) then
        let '(written, complete) :=
          write_pieces []
            (log_pieces created last_changed total_time (sessions_of t proj)) in
        let t' :=
          {| session_active := session_active t;
             sessions := sessions t;
             log_meta := log_meta';
             files := dict_set (log_name proj) written (files t);
             ticks := S (ticks t) |} in
        if complete then Done t' else Failed UnicodeEncodeError t'
      else
        Failed OSError
          {| session_active := session_active t;
             sessions := sessions t;
             log_meta := log_meta';
             files := files t;
             ticks := S (ticks t) |}
  end.

Definition on_window_close (window_title : str) (t : tracker) : outcome :=
  let proj := extract_project_name window_title in
  match dict_get proj (session_active t) with
  | None => Done t
  | Some session =>
      let end_time := clock (ticks t) in
      let duration := elapsed_seconds end_time (a_start session) in
      save_session_log proj
        {| session_active := dict_remove proj (session_active t);
           sessions :=
             <[proj := sessions_of t proj
                       ++ [ {| s_start := strftime (a_start session);
                               s_end := strftime end_time;
                               s_duration := duration;
                               s_window_title := window_title |} ] ]>
               (sessions t);
           log_meta := log_meta t;
           files := files t;
           ticks := S (ticks t) |}
  end.

(** [for proj in projs: on_window_close(session_active[proj]['window_title'])]:
    an exception ends the loop. *)
Fixpoint close_each (projs : list str) (t : tracker) : outcome :=
  match projs with
  | [] => Done t
  | proj :: rest =>
      match dict_get proj (session_active t) with
      | None => Failed KeyError t
      | Some a =>
          match on_window_close (a_window_title a) t with
          | Done t' => close_each rest t'
          | Failed e t' => Failed e t'
          end
      end
  end.

(** One iteration of the loop of [run], up to the [sleep]. *)
Definition poll_cycle (current_windows : list str) (t : tracker) : outcome :=
  let '(tracked_now, t1) := track_starts clock current_windows [] t in
  let closed_projs :=
    iteration_order (ticks t1)
      (List.filter (fun proj => bool_decide (proj ∉ tracked_now))
         (dict_keys (session_active t1))) in
  close_each closed_projs t1.

(** Consecutive cycles, each with the titles it enumerates. *)
Fixpoint poll_cycles (cycles : list (list str)) (t : tracker) : outcome :=
  match cycles with
  | [] => Done t
  | current_windows :: rest =>
      match poll_cycle current_windows t with
      | Done t' => poll_cycles rest t'
      | Failed e t' => Failed e t'
      end
  end.

(** The [except KeyboardInterrupt] handler of [run]. *)
Definition shutdown (t : tracker) : outcome :=
  close_each (dict_keys (session_active t)) t.

(** [run]; the tracker of [Crashed] is here the one that the exception
    leaves. *)
Fixpoint run (events : list event) (t : tracker) : exit :=
  match events with
  | [] => Looping t
  | Cycle d :: rest =>
      match get_all_open_windows d with
      | Raise e => Crashed e t
      | Ok current_windows =>
          match poll_cycle current_windows t with
          | Done t' => run rest t'
          | Failed e t' => Crashed e t'
          end
      end
  | CtrlC :: _ =>
      match shutdown t with
      | Done t' => Stopped t'
      | Failed e t' => Crashed e t'
      end
  end.
End Folder.
End Disk.





(** ** SessionStore: reading a log back *)

(** Text mode with the default [newline=None]: every line ending becomes a
    line feed. *)
Fixpoint universal_newlines (s : str) : str :=
  match s with
  | [] => []
  | c :: s' =>
      if (c =? Chr.CR)%N
      then Chr.LF :: match s' with
                     | c' :: s'' =>
                         if (c' =? Chr.LF)%N then universal_newlines s''
                         else universal_newlines s'
                     | [] => []
                     end
      else c :: universal_newlines s'
  end.

(** Iterating over a file: the lines with their line feed; [cur] is the
    line being read. *)
Fixpoint lines_from (cur s : str) : list str :=
  match s with
  | [] => match cur with [] => [] | _ => [cur] end
  | c :: s' =>
      if (c =? Chr.LF)%N then (cur ++ [c]) :: lines_from [] s'
      else lines_from (cur ++ [c]) s'
  end.

(** [for line in open(path, 'r')] *)
Definition read_lines (content : str) : list str :=
  lines_from [] (universal_newlines content).

(** [s.split(':', 1)[1]] *)
Fixpoint after_colon (s : str) : result str :=
  match s with
  | [] => Raise IndexError
  | c :: s' => if (c =? Chr.COLON)%N then Ok s' else after_colon s'
  end.

(** [line.strip().split(':',1)[1].strip()] *)
Definition meta_value (line : str) : result str :=
  v ← after_colon (strip line); Ok (strip v).

(** The first pass of [load_existing_sessions] over a file. *)
Fixpoint read_meta (lines : list str) (m : meta) : result meta :=
  match lines with
  | [] => Ok m
  | line :: rest =>
      if startswith (py "# Created:") line then
        v ← meta_value line;
        read_meta rest {| created := Some v; last_changed := last_changed m |}
      else if startswith (py "# Last changed:") line then
        v ← meta_value line;
        read_meta rest {| created := created m; last_changed := Some v |}
      else if negb (startswith (py "#") line)
              && negb (bool_decide (strip line = [])) then Ok m
      else read_meta rest m
  end.

(** [csv.reader], excel dialect, not strict: the parser of [_csv.c]. *)
Inductive parser_state :=
| START_RECORD | START_FIELD | IN_FIELD
| IN_QUOTED_FIELD | QUOTE_IN_QUOTED_FIELD | EAT_CRNL.

Record reader := {
  state : parser_state;
  field : str;              (* the field being read *)
  fields : list str         (* the fields of the record so far *)
}.

(** [parse_reset] *)
Definition reader_reset : reader :=
  {| state := START_RECORD; field := []; fields := [] |}.

Definition parse_save_field (st : parser_state) (r : reader) : reader :=
  {| state := st; field := []; fields := fields r ++ [field r] |}.

Definition parse_add_char (st : parser_state) (c : N) (r : reader) : reader :=
  {| state := st; field := field r ++ [c]; fields := fields r |}.

Definition set_state (st : parser_state) (r : reader) : reader :=
  {| state := st; field := field r; fields := fields r |}.

Definition is_crlf (c : N) : bool := ((c =? Chr.LF) || (c =? Chr.CR))%N.

(** [parse_process_char]; [None] is the end-of-line mark that the reader
    feeds after the characters of each line. *)
Definition parse_process_char (r : reader) (c : option N) : result reader :=
  let start_field r :=
    match c with
    | None => parse_save_field START_RECORD r
    | Some c =>
        if is_crlf c then parse_save_field EAT_CRNL r
        else if (c =? Chr.QUOTE)%N then set_state IN_QUOTED_FIELD r
        else if (c =? Chr.COMMA)%N then parse_save_field START_FIELD r
        else parse_add_char IN_FIELD c r
    end in
  match state r with
  | START_RECORD =>
      match c with
      | None => Ok r
      | Some c' => if is_crlf c' then Ok (set_state EAT_CRNL r)
                   else Ok (start_field r)
      end
  | START_FIELD => Ok (start_field r)
  | IN_FIELD =>
      match c with
      | None => Ok (parse_save_field START_RECORD r)
      | Some c =>
          if is_crlf c then Ok (parse_save_field EAT_CRNL r)
          else if (c =? Chr.COMMA)%N then Ok (parse_save_field START_FIELD r)
          else Ok (parse_add_char IN_FIELD c r)
      end
  | IN_QUOTED_FIELD =>
      match c with
      | None => Ok r
      | Some c =>
          if (c =? Chr.QUOTE)%N then Ok (set_state QUOTE_IN_QUOTED_FIELD r)
          else Ok (parse_add_char IN_QUOTED_FIELD c r)
      end
  | QUOTE_IN_QUOTED_FIELD =>
      match c with
      | None => Ok (parse_save_field START_RECORD r)
      | Some c =>
          if (c =? Chr.QUOTE)%N then Ok (parse_add_char IN_QUOTED_FIELD c r)
          else if (c =? Chr.COMMA)%N then Ok (parse_save_field START_FIELD r)
          else if is_crlf c then Ok (parse_save_field EAT_CRNL r)
          else Ok (parse_add_char IN_FIELD c r)
      end
  | EAT_CRNL =>
      match c with
      | None => Ok (set_state START_RECORD r)
      | Some c => if is_crlf c then Ok r else Raise CsvError
      end
  end.

Fixpoint parse_chars (r : reader) (line : str) : result reader :=
  match line with
  | [] => Ok r
  | c :: line' => r' ← parse_process_char r (Some c); parse_chars r' line'
  end.

(** One line of input: its characters, then the end-of-line mark. *)
Definition parse_line (r : reader) (line : str) : result reader :=
  r' ← parse_chars r line; parse_process_char r' None.

Definition at_record_start (r : reader) : bool :=
  match state r with START_RECORD => true | _ => false end.

(** At the end of the input a record is still returned when a field has
    been started. *)
Definition record_pending (r : reader) : bool :=
  negb (bool_decide (field r = []))
  || match state r with IN_QUOTED_FIELD => true | _ => false end.

(** [for row in csv.reader(filter(keep, lines)): acc = body(row, acc)].
    The filter is lazy, so [keep] is asked about a line when the reader
    wants it.  A record ends with the line after which the parser is back
    at [START_RECORD]. *)
Fixpoint for_each_row {A} (keep : str -> result bool)
    (body : list str -> A -> result A)
    (r : reader) (lines : list str) (acc : A) : result A :=
  match lines with
  | [] =>
      if record_pending r
      then body (fields (parse_save_field START_RECORD r)) acc
      else Ok acc
  | line :: rest =>
      k ← keep line;
      if k : bool then
        r' ← parse_line r line;
        if at_record_start r'
        then acc' ← body (fields r') acc;
             for_each_row keep body reader_reset rest acc'
        else for_each_row keep body r' rest acc
      else for_each_row keep body r rest acc
  end.

(** [lambda row: row[0] not in '#'] on a line *)
Definition not_comment (line : str) : result bool :=
  match line with
  | [] => Raise IndexError
  | c :: _ => Ok (negb (c =? Chr.HASH)%N)
  end.

(** [s.endswith(p)] *)
Definition endswith (p s : str) : bool :=
  bool_decide (drop (length s - length p) s = p).

Section Load.
Context `{UnicodeTables}.
Context (clock : nat -> datetime).

(** The body of the row loop, with the [next(reader, None)] before it:
    the first record is passed over, a later one with at least three
    columns becomes a session. *)
Definition load_row (row : list str) (acc : bool * list session)
    : result (bool * list session) :=
  let '(header_skipped, loaded) := acc in
  if negb header_skipped then Ok (true, loaded)
  else if (3 <=? length row)%nat then
    duration ← raise_none ValueError (int_of_str (row !!! 2%nat));
    Ok (true,
        loaded ++ [ {| s_start := row !!! 0%nat;
                       s_end := row !!! 1%nat;
                       s_duration := duration;
                       s_window_title :=
                         if (3 <? length row)%nat then row !!! 3%nat else [] |} ])
  else Ok (true, loaded).

(** The body of the file loop of [load_existing_sessions] for one entry
    of the folder. *)
Definition load_file (fname content : str) (t : tracker) : result tracker :=
  if endswith (py "_log.csv") fname then
    let proj := take (length fname - 8) fname in
    let lines := read_lines content in
    m ← read_meta lines {| created := None; last_changed := None |};
    let '(m, ticks') :=
      match created m, last_changed m with
      | None, None =>
          ({| created := Some (strftime (clock (ticks t)));
              last_changed := Some (strftime (clock (S (ticks t)))) |},
           S (S (ticks t)))
      | _, _ => (m, ticks t)
      end in
    '(_, loaded) ← for_each_row not_comment load_row reader_reset lines (false, []);
    Ok {| session_active := session_active t;
          sessions :=
            match loaded with
            | [] => sessions t
            | _ => <[proj := sessions_of t proj ++ loaded]> (sessions t)
            end;
          log_meta := <[proj := m]> (log_meta t);
          files := files t;
          ticks := ticks' |}
  else Ok t.

Fixpoint load_files (dir : list (str * str)) (t : tracker) : result tracker :=
  match dir with
  | [] => Ok t
  | (fname, content) :: rest => t' ← load_file fname content t; load_files rest t'
  end.

Definition load_existing_sessions (t : tracker) : result tracker :=
  load_files (files t) t.

(** [WindowTimeTracker()] on a log folder holding [dir]. *)
Definition new_tracker (dir : list (str * str)) : result tracker :=
  load_existing_sessions
    {| session_active := []; sessions := ∅; log_meta := ∅;
       files := dir; ticks := 0 |}.
End Load.

(** ** The log reader of the visualizer: [read_project_logs] *)

(** A session as the visualizer keeps it ([date] is [start.date()]). *)
Record chart_session := {
  c_start : datetime;
  c_end : datetime;
  c_duration : Z
}.

(** [row[key]] of a [csv.DictReader] row: [dict(zip(fieldnames, row))], a
    later column of the same name winning, and [None] for a name that has
    no column in a short row.  The result is [None] when the lookup raises
    [KeyError] or gives [None]; both end in the [except] of the caller. *)
Definition dict_row_get (key : str) (fieldnames row : list str) : option str :=
  let values :=
    (Some <$> row) ++ replicate (length fieldnames - length row) None in
  match List.find (fun kv => bool_decide (kv.1 = key))
          (rev (zip fieldnames values)) with
  | Some (_, v) => v
  | None => None
  end.

Section Visualizer.
Context `{UnicodeTables}.
(** [datetime.strptime(s, '%Y-%m-%d %H:%M:%S')]; [None] stands for the
    exception it raises on text that is not such a timestamp. *)
Context (strptime : str -> option datetime).

(** The [try] block of the row loop; [None] is a raised exception. *)
Definition parse_chart_row (fieldnames row : list str) : option chart_session :=
  start_time ← dict_row_get (py "session_start") fieldnames row ≫= strptime;
  end_time ← dict_row_get (py "session_end") fieldnames row ≫= strptime;
  duration ← dict_row_get (py "session_duration_sec") fieldnames row ≫= int_of_str;
  Some {| c_start := start_time; c_end := end_time; c_duration := duration |}.

(** One record from the [csv.DictReader]: the first is the field names,
    an empty one is passed over, one that raises is skipped. *)
Definition chart_row (row : list str)
    (acc : option (list str) * list chart_session * Z)
    : result (option (list str) * list chart_session * Z) :=
  let '(fieldnames, sessions, total_seconds) := acc in
  match fieldnames with
  | None => Ok (Some row, sessions, total_seconds)
  | Some names =>
      if bool_decide (row = []) then Ok acc
      else match parse_chart_row names row with
           | Some s =>
               Ok (fieldnames, sessions ++ [s], (total_seconds + c_duration s)%Z)
           | None => Ok acc
           end
  end.

(** The sessions and the total read from one log. *)
Definition read_log (content : str) : result (list chart_session * Z) :=
  '(_, sessions, total_seconds) ←
    for_each_row (fun line => Ok (negb (startswith (py "#") line)))
      chart_row reader_reset (read_lines content) (None, [], 0%Z);
  Ok (sessions, total_seconds).

(** [read_project_logs] on a log folder holding [dir]: the projects with
    at least one session, in the order of the listing. *)
Fixpoint read_project_logs (dir : list (str * str))
    : result (list (str * (list chart_session * Z))) :=
  match dir with
  | [] => Ok []
  | (filename, content) :: rest =>
      if endswith (py "_log.csv") filename then
        '(sessions, total_seconds) ← read_log content;
        project_data ← read_project_logs rest;
        Ok (match sessions with
            | [] => project_data
            | _ => (take (length filename - 8) filename,
                    (sessions, total_seconds)) :: project_data
            end)
      else read_project_logs rest
  end.
End Visualizer.

(** ** Notions used to state the properties *)

(** Text of ASCII characters only. *)
Definition ascii_only (s : str) : bool := forallb (fun c => (c <? 128)%N) s.

(** A dictionary of active sessions is well formed: no key occurs twice and
    every key is the project of the title stored under it. *)
Definition active_ok (d : list (str * active_session)) : Prop :=
  NoDup (dict_keys d)
  /\ Forall (fun kv => extract_project_name (a_window_title kv.2) = kv.1) d.

(** Every key of [session_active] is the project of the title stored under
    it, and no key occurs twice. *)
Definition active_wf (t : tracker) : bool :=
  bool_decide (NoDup (dict_keys (session_active t)))
  && forallb (fun kv => bool_decide (extract_project_name (a_window_title kv.2) = kv.1))
       (session_active t).

(** A cycle observes project [p]: some window of a tracked application
    classifies to [p]. *)
Definition observed `{UnicodeTables} (p : str) (current_windows : list str) : bool :=
  existsb (fun wtitle => is_tracked wtitle
                         && bool_decide (extract_project_name wtitle = p))
    current_windows.

(** The title that opens the session of [p] in a cycle: the first one of a
    tracked application that classifies to [p]. *)
Definition opening_title `{UnicodeTables} (p : str) (current_windows : list str)
    : option str :=
  List.find (fun wtitle => is_tracked wtitle
                           && bool_decide (extract_project_name wtitle = p))
    current_windows.

(** The session that closing [a] at clock reading [n] appends. *)
Definition closed_session (clock : nat -> datetime) (a : active_session) (n : nat)
    : session :=
  {| s_start := strftime (a_start a);
     s_end := strftime (clock n);
     s_duration := elapsed_seconds (clock n) (a_start a);
     s_window_title := a_window_title a |}.

Section Sequences.
Context `{UnicodeTables}.
Context (clock : nat -> datetime).
Context (iteration_order : nat -> list str -> list str).

(** Consecutive cycles of [run], each with the titles it enumerates. *)
Fixpoint poll_cycles (cycles : list (list str)) (t : tracker) : result tracker :=
  match cycles with
  | [] => Ok t
  | current_windows :: rest =>
      t' ← poll_cycle clock iteration_order current_windows t;
      poll_cycles rest t'
  end.

(** The trackers that a process can hold: a fresh one, and what cycles and
    the interrupt handler make of it. *)
Inductive reachable : tracker -> Prop :=
| reach_new dir t :
    new_tracker clock dir = Ok t -> reachable t
| reach_cycle t current_windows t' :
    reachable t ->
    poll_cycle clock iteration_order current_windows t = Ok t' ->
    reachable t'
| reach_shutdown t t' :
    reachable t -> shutdown clock t = Ok t' -> reachable t'.
End Sequences.

(** Text without a carriage return or a line feed. *)
Definition one_line (s : str) : bool := forallb (fun c => negb (is_crlf c)) s.

(** Text with no white space at either end. *)
Definition trimmed (s : str) : bool :=
  match s with
  | [] => true
  | c :: _ => negb (isspace c) && negb (isspace (List.last s c))
  end.

(** The state of the parser after the text of a written field. *)
Definition field_end_state (f : str) : parser_state :=
  if existsb csv_special f then QUOTE_IN_QUOTED_FIELD
  else match f with
       | [] => START_FIELD
       | _ => IN_FIELD
       end.

(** The ASCII digits. *)
Definition is_digit (c : N) : bool := ((48 <=? c) && (c <=? 57))%N.

(** A time stamp that the header of a log gives back: one line, no white
    space at either end. *)
Definition clean_stamp (s : str) : bool := one_line s && trimmed s.

(** A session whose row of the log is read back as written: no line break
    in its texts, and a start that does not begin with a hash. *)
Definition clean_session (s : session) : bool :=
  one_line (s_start s) && one_line (s_end s) && one_line (s_window_title s)
  && negb (startswith [Chr.HASH] (s_start s)).

(** The line that holds the row of a session when the log is read. *)
Definition row_line (fields : list str) : str :=
  join [Chr.COMMA] (map csv_field fields) ++ [Chr.LF].

(** The history of [proj] is one that a log gives back: it is not empty,
    its sessions are clean, and so is the creation stamp that
    [save_session_log] writes for it. *)
Definition clean_history (proj : str) (t : tracker) : bool :=
  match sessions_of t proj with
  | [] => false
  | first :: _ =>
      forallb clean_session (sessions_of t proj)
      && clean_stamp (created_or_start proj first t)
  end.

(** A line as the iteration over a text file gives it: no carriage return,
    and no line feed except as its last character. *)
Fixpoint line_ok (line : str) : bool :=
  match line with
  | [] => true
  | [c] => negb (c =? Chr.CR)%N
  | c :: rest => negb (is_crlf c) && line_ok rest
  end.

(** The parser is not waiting for the end of a line. *)
Definition steady (r : reader) : bool :=
  match state r with
  | EAT_CRNL => false
  | _ => true
  end.

(** ** Notions used to state further properties *)

(** The keywords of [app_keywords] whose application is in the tracked set
    of [run], and the other ones. *)
Definition tracked_keywords : list str :=
  [ py "blender"; py "archicad"; py "revit"; py "autocad"; py "sketchup";
    py "rhino"; py "3ds max"; py "lumion"; py "enscape"; py "photoshop";
    py "illustrator" ].

Definition other_keywords : list str :=
  [ py "chrome"; py "firefox"; py "excel"; py "word"; py "powerpoint" ].

(** [str.lower] changes nothing of ASCII text but its capital letters. *)
Definition lower_on_ascii `{UnicodeTables} : Prop :=
  forall s, ascii_only s = true -> lower s = map ascii_lower_char s.

(** The tracker that [run] holds, unless an exception has ended it. *)
Definition final_tracker (e : exit) : option tracker :=
  match e with
  | Looping t | Stopped t => Some t
  | Crashed _ _ => None
  end.

(** The creation stamp in the metadata of project [p]. *)
Definition created_of (t : tracker) (p : str) : option str :=
  log_meta t !! p ≫= created.

(** The log folder mirrors the histories: the log of a project, when there
    is one, is the text that [save_session_log] writes for the history of
    the project, and a project without a log has an empty history. *)
Definition in_sync (t : tracker) : Prop :=
  forall p,
    match dict_get (log_name p) (files t) with
    | Some text =>
        exists c lc,
          text = log_text c lc (total_duration (sessions_of t p)) (sessions_of t p)
    | None => sessions_of t p = []
    end.

(** Every active session started at a clock reading that has been taken. *)
Definition starts_read (clock : nat -> datetime) (t : tracker) : Prop :=
  forall p a,
    dict_get p (session_active t) = Some a ->
    exists n, n < ticks t /\ a_start a = clock n.

(** A clock that never goes back. *)
Definition nondecreasing (clock : nat -> datetime) : Prop :=
  forall m n, m <= n -> (0 <= sub_microseconds (clock n) (clock m))%Z.

(** Limits of the Python runtime on a log that is read back: [csv.reader]
    refuses a field of more than [field_limit] characters (the default of
    [csv.field_size_limit]), and [int] and [str] refuse a number of more
    than [max_str_digits] digits (the default of
    [sys.set_int_max_str_digits]).  What is said below of a log read back
    is said of histories within these limits. *)
Definition field_limit : nat := 128 * 1024.



(** The sum of the durations of the sessions of a chart. *)
Definition chart_total (l : list chart_session) : Z :=
  foldr Z.add 0%Z (c_duration <$> l).

(** A window title that a log gives back: one line, within the field
    limit. *)
Definition storable_title (w : str) : bool :=
  one_line w && (length w <=? field_limit).

(** The titles that an event shows to [run] are such titles. *)
Definition storable_event (ev : event) : bool :=
  match ev with
  | Cycle (Enumerated ws) => forallb (fun w => storable_title (window_text w)) ws
  | _ => true
  end.

(** An entry of the log folder is the log of a project as
    [save_session_log] writes it for the history of the project in [t], the
    history is one that a log gives back, and the creation stamp of the log
    is the one of the metadata. *)
Definition log_entry_ok (t : tracker) (entry : str * str) : Prop :=
  exists p c lc,
    entry = (log_name p,
             log_text c lc (total_duration (sessions_of t p)) (sessions_of t p))
    /\ sessions_of t p <> []
    /\ forallb clean_session (sessions_of t p) = true
    /\ clean_stamp c = true /\ clean_stamp lc = true
    /\ created_of t p = Some c.

(** What [run] keeps of a tracker started on an empty log folder: the
    titles of the active sessions are one line each, the folder holds one
    log for each project with a history and nothing else, and a project
    without a history has no metadata. *)
Definition restartable (t : tracker) : Prop :=
  active_ok (session_active t)
  /\ (forall p a, dict_get p (session_active t) = Some a ->
                  one_line (a_window_title a) = true)
  /\ NoDup (dict_keys (files t))
  /\ Forall (log_entry_ok t) (files t)
  /\ (forall p, sessions_of t p <> [] -> log_name p ∈ dict_keys (files t))
  /\ (forall p, sessions_of t p = [] -> log_meta t !! p = None).

(** ** Data of the worked examples *)

(** A tracker on an empty log folder. *)
Definition fresh_tracker : tracker :=
  {| session_active := []; sessions := ∅; log_meta := ∅; files := []; ticks := 0 |}.

(** [s] seconds after nine o'clock on 2024-01-01. *)
Definition at_second (s : Z) : datetime :=
  {| year := 2024; month := 1; day := 1;
     hour := 9; minute := (s / 60)%Z; second := (s mod 60)%Z; microsecond := 0 |}.

(** The clock of the scenario of section 8: the first reading is taken in
    the cycle at 0 s, the later ones in the cycle at 60 s. *)
Definition scenario_clock (n : nat) : datetime :=
  match n with
  | O => at_second 0
  | S _ => at_second 60
  end.

(** Sets iterated in the order of the dictionary. *)
Definition as_listed (n : nat) (l : list str) : list str := l.

(** The tracker after a first cycle that saw the window [ProjA - Blender]. *)
Definition tracking_ProjA : tracker :=
  {| session_active :=
       [ (py "ProjA",
          {| a_start := at_second 0; a_window_title := py "ProjA - Blender" |}) ];
     sessions := ∅; log_meta := ∅; files := []; ticks := 1 |}.

(** A log of [ProjA] as the tracker writes it, in which the duration of the
    second of three rows has been replaced by the text [abc]. *)
Definition corrupt_log : str :=
  log_text (py "2024-01-01 09:00:00") (py "2024-01-01 12:00:00") 60
    [ {| s_start := py "2024-01-01 09:00:00"; s_end := py "2024-01-01 09:01:00";
         s_duration := 60; s_window_title := py "ProjA - Blender" |} ]
  ++ py "2024-01-01 10:00:00,2024-01-01 10:30:00,abc,ProjA - Blender"
  ++ [Chr.CR; Chr.LF]
  ++ writerow (session_row
       {| s_start := py "2024-01-01 11:00:00"; s_end := py "2024-01-01 11:30:00";
          s_duration := 1800; s_window_title := py "ProjA - Blender" |}).

(** A window title of [ProjA] with a carriage return in it. *)
Definition title_with_cr : str := py "ProjA" ++ [Chr.CR] ++ py " - Blender".

(** A history whose first title holds a line feed followed by a hash. *)
Definition history_with_hash_line : list session :=
  [ {| s_start := py "2024-01-01 09:00:00"; s_end := py "2024-01-01 09:01:00";
       s_duration := 60;
       s_window_title := py "ProjA" ++ [Chr.LF] ++ py "#1 - Blender" |};
    {| s_start := py "2024-01-01 10:00:00"; s_end := py "2024-01-01 10:00:30";
       s_duration := 30; s_window_title := py "ProjA - Blender" |} ].

(** A tracker whose history of [ProjA] holds one closed session. *)
Definition ProjA_history : tracker :=
  {| session_active := [];
     sessions :=
       {[ py "ProjA" :=
            [ {| s_start := py "2024-01-01 09:00:00";
                 s_end := py "2024-01-01 09:01:00";
                 s_duration := 60;
                 s_window_title := py "ProjA - Blender, draft" |} ] ]};
     log_meta := ∅; files := []; ticks := 2 |}.

(** The window of the scenario, and its events as [run] meets them: the
    window is there in three cycles and gone in the fourth. *)
Definition ProjA_window : window :=
  {| visible := true; window_text := py "ProjA - Blender" |}.

Definition scenario_events : list event :=
  [ Cycle (Enumerated [ProjA_window]); Cycle (Enumerated [ProjA_window]);
    Cycle (Enumerated [ProjA_window]); Cycle (Enumerated []) ].

(** The tracker after the scenario, and after the scenario has been gone
    through a second time. *)
Definition after_scenario : tracker :=
  default fresh_tracker
    (final_tracker (run scenario_clock as_listed scenario_events fresh_tracker)).

Definition after_second_scenario : tracker :=
  default fresh_tracker
    (final_tracker (run scenario_clock as_listed scenario_events after_scenario)).

(** [strptime] on the two time stamps of the scenario (no other text is
    given to it there). *)
Definition scenario_strptime (s : str) : option datetime :=
  if bool_decide (s = py "2024-01-01 09:00:00") then Some (at_second 0)
  else if bool_decide (s = py "2024-01-01 09:01:00") then Some (at_second 60)
  else None.







(** ** Proof automation *)

(** Evaluate a goal, giving each [int] of an ASCII literal its value;
    [ascii_lemma] is the lemma that [int] on ASCII text does not depend on
    the Unicode tables. *)
Ltac eval_with_ints ascii_lemma :=
  lazy -[int_of_str];
  repeat match goal with
         | |- context [@int_of_str ?H ?s] =>
             let v := eval vm_compute in (@int_of_str ascii_tables s) in
             replace (@int_of_str H s) with v
               by (rewrite ascii_lemma by reflexivity; vm_compute; reflexivity)
         end.

(** * Properties *)

(** ** Lists *)

Lemma elem_of_List_filter {A} (f : A -> bool) (l : list A) x :
  x ∈ List.filter f l <-> x ∈ l /\ f x = true.
Proof. by rewrite !list_elem_of_In, filter_In. Qed.

Lemma NoDup_List_filter {A} (f : A -> bool) (l : list A) :
  NoDup l -> NoDup (List.filter f l).
Proof.
  induction 1 as [|x l Hx Hnd IH]; simpl; [constructor|].
  destruct (f x); [|done]. constructor; [|done].
  rewrite elem_of_List_filter. tauto.
Qed.

(** ** Properties of the classifier *)

Section StripLemmas.
Variable f : N -> bool.

Lemma lstrip_by_idemp s : lstrip_by f (lstrip_by f s) = lstrip_by f s.
Proof.
  induction s as [|c s IH]; simpl; [done|].
  destruct (f c) eqn:E; [done|]. simpl. by rewrite E.
Qed.

Lemma lstrip_by_snoc s c :
  lstrip_by f (s ++ [c]) =
  match lstrip_by f s with
  | [] => if f c then [] else [c]
  | r => r ++ [c]
  end.
Proof.
  induction s as [|a s IH]; simpl; [done|].
  destruct (f a); [exact IH | done].
Qed.

Lemma rstrip_by_cons c s :
  rstrip_by f (c :: s) =
  match rstrip_by f s with
  | [] => if f c then [] else [c]
  | r => c :: r
  end.
Proof.
  unfold rstrip_by. simpl. rewrite lstrip_by_snoc.
  destruct (lstrip_by f (rev s)) as [|a r]; simpl.
  - by destruct (f c).
  - rewrite rev_app_distr. simpl.
    destruct (rev r ++ [a]) eqn:E; [by destruct (rev r)|done].
Qed.

Lemma rstrip_by_idemp s : rstrip_by f (rstrip_by f s) = rstrip_by f s.
Proof. unfold rstrip_by. by rewrite rev_involutive, lstrip_by_idemp. Qed.

(** What [rstrip] removes is a run of stripped characters. *)
Lemma rstrip_by_split s :
  exists v, s = rstrip_by f s ++ v /\ forallb f v = true.
Proof.
  induction s as [|c s (v & Hs & Hv)].
  - by exists [].
  - rewrite rstrip_by_cons. destruct (rstrip_by f s) as [|a r] eqn:E.
    + destruct (f c) eqn:Ec.
      * exists (c :: v). simpl in *. rewrite Ec, Hv. by rewrite Hs at 1.
      * exists v. simpl in *. by rewrite Hs at 1.
    + exists v. split; [|done]. simpl. by rewrite Hs at 1.
Qed.
End StripLemmas.

Lemma sep_at_cons c s :
  sep_at (c :: s) = if isspace c then sep_at s else is_dash c.
Proof. unfold sep_at. simpl. by destruct (isspace c). Qed.

Lemma dash_not_space c : is_dash c = true -> isspace c = false.
Proof.
  unfold is_dash, Chr.HYPHEN, Chr.EN_DASH, Chr.EM_DASH.
  rewrite !orb_true_iff, !N.eqb_eq. by intros [[-> | ->] | ->].
Qed.

Lemma sep_at_spaces v d r :
  forallb isspace v = true -> is_dash d = true -> sep_at (v ++ d :: r) = true.
Proof.
  intros Hv Hd. induction v as [|c v IH]; simpl in *.
  - rewrite sep_at_cons, Hd. by rewrite dash_not_space.
  - apply andb_true_iff in Hv as [Hc Hv]. rewrite sep_at_cons, Hc. auto.
Qed.

(** No separator starts where a character that is neither a space nor a
    dash comes before any dash. *)
Lemma sep_at_blocked x y :
  forallb (fun c => negb (is_dash c)) x = true ->
  existsb (fun c => negb (isspace c)) x = true ->
  sep_at (x ++ y) = false.
Proof.
  induction x as [|c x IH]; simpl; [done|].
  intros [Hc Hx]%andb_true_iff Hex. rewrite sep_at_cons.
  destruct (isspace c); simpl in *; [auto | by apply negb_true_iff].
Qed.

Lemma sep_at_no_dash s :
  forallb (fun c => negb (is_dash c)) s = true -> sep_at s = false.
Proof.
  induction s as [|c s IH]; simpl; [done|].
  intros [Hc Hs]%andb_true_iff. rewrite sep_at_cons.
  destruct (isspace c); [auto | by apply negb_true_iff].
Qed.

Lemma lazy_group_no_dash acc s :
  forallb (fun c => negb (is_dash c)) s = true -> lazy_group acc s = None.
Proof.
  revert acc. induction s as [|c s IH]; intros acc Hs.
  - done.
  - simpl. rewrite (sep_at_no_dash (c :: s) Hs).
    simpl in Hs. apply andb_true_iff in Hs as [_ Hs].
    destruct (c =? Chr.LF)%N; auto.
Qed.

Lemma rstrip_by_all f s : forallb f s = true -> rstrip_by f s = [].
Proof.
  induction s as [|c s IH]; [done|]. simpl.
  intros [Hc Hs]%andb_true_iff. by rewrite rstrip_by_cons, IH, Hc.
Qed.

Lemma existsb_negb_false (f : N -> bool) s :
  existsb (fun c => negb (f c)) s = false -> forallb f s = true.
Proof.
  induction s as [|c s IH]; [done|]. simpl.
  intros [Hc Hs]%orb_false_iff. apply negb_false_iff in Hc. rewrite Hc. auto.
Qed.

Lemma rstrip_fixed_exists u c :
  rstrip_by isspace (c :: u) = c :: u ->
  existsb (fun c => negb (isspace c)) (c :: u) = true /\
  rstrip_by isspace u = u.
Proof.
  intros Hfix. split.
  - destruct (existsb _ (c :: u)) eqn:E; [done|].
    apply existsb_negb_false, rstrip_by_all in E. congruence.
  - rewrite rstrip_by_cons in Hfix.
    destruct (rstrip_by isspace u) as [|a r] eqn:E.
    + destruct (isspace c); [done|]. by injection Hfix as <-.
    + by injection Hfix.
Qed.

Lemma lazy_group_eq acc rest :
  lazy_group acc rest =
  if sep_at rest then Some acc
  else match rest with
       | [] => None
       | c :: rest' =>
           if (c =? Chr.LF)%N then None else lazy_group (acc ++ [c]) rest'
       end.
Proof. by destruct rest. Qed.

(** The lazy group stops at the first place where the separator matches:
    the end of [u], when [u] does not end with a space. *)
Lemma lazy_group_stops acc u v d r :
  rstrip_by isspace u = u ->
  forallb (fun c => negb (is_dash c)) u = true ->
  forallb (fun c => negb (c =? Chr.LF)%N) u = true ->
  forallb isspace v = true -> is_dash d = true ->
  lazy_group acc (u ++ v ++ d :: r) = Some (acc ++ u).
Proof.
  revert acc. induction u as [|c u IH]; intros acc Hfix Hnd Hnl Hv Hd.
  - rewrite lazy_group_eq. simpl app at 1.
    by rewrite sep_at_spaces, app_nil_r.
  - destruct (rstrip_fixed_exists u c Hfix) as [Hex Hfix'].
    simpl in Hnd, Hnl.
    apply andb_true_iff in Hnd as [Hc Hnd].
    apply andb_true_iff in Hnl as [Hl Hnl].
    rewrite lazy_group_eq.
    rewrite sep_at_blocked; [|by simpl; rewrite Hc, Hnd|done].
    apply negb_true_iff in Hl. simpl. rewrite Hl.
    rewrite IH by done. by rewrite <- app_assoc.
Qed.

Lemma before_dash_None s :
  before_dash s = None -> forallb (fun c => negb (is_dash c)) s = true.
Proof.
  induction s as [|c s IH]; simpl; [done|].
  destruct (is_dash c); [done|]. destruct (before_dash s); [done|]. auto.
Qed.

Lemma before_dash_Some s t :
  before_dash s = Some t ->
  exists d r, s = t ++ d :: r /\ is_dash d = true
              /\ forallb (fun c => negb (is_dash c)) t = true.
Proof.
  revert t. induction s as [|c s IH]; intros t; simpl; [done|].
  destruct (is_dash c) eqn:Ec.
  - intros [= <-]. by exists c, s.
  - destruct (before_dash s) as [t'|]; [|done]. intros [= <-].
    destruct (IH t' eq_refl) as (d & r & -> & Hd & Ht).
    exists d, r. simpl. by rewrite Ec.
Qed.

Lemma forallb_app_l {A} (g : A -> bool) x y :
  forallb g (x ++ y) = true -> forallb g x = true.
Proof. rewrite forallb_app. by intros [? _]%andb_true_iff. Qed.

(** On a title that starts plainly the pattern of the source finds the text
    before the first separator. *)
Lemma candidate_plain title :
  plain_start title = true -> one_line_prefix title = true ->
  project_candidate title
  = sanitize (lstrip_star_space (text_before_separator title)).
Proof.
  unfold project_candidate, text_before_separator, one_line_prefix.
  destruct title as [|c0 rest]; [done|].
  intros [Hd Hs]%andb_true_iff. apply negb_true_iff in Hd, Hs.
  assert (Hlf : (c0 =? Chr.LF)%N = false).
  { destruct (c0 =? Chr.LF)%N eqn:E; [|done].
    apply N.eqb_eq in E. subst c0. discriminate Hs. }
  simpl. rewrite Hd, Hlf.
  destruct (before_dash rest) as [t|] eqn:Et; simpl.
  - intros Hone.
    apply before_dash_Some in Et as (d & r & -> & Hdash & Hnd).
    destruct (rstrip_by_split isspace t) as (v & Ht & Hv).
    assert (Hr : rstrip_by isspace (c0 :: t) = c0 :: rstrip_by isspace t).
    { rewrite rstrip_by_cons. destruct (rstrip_by isspace t); [by rewrite Hs|done]. }
    rewrite Hr in *. simpl in Hone. rewrite Hlf in Hone. simpl in Hone.
    set (u := rstrip_by isspace t) in *.
    rewrite Ht, <- app_assoc.
    rewrite lazy_group_stops;
      [ | apply rstrip_by_idemp | | done | done | done ].
    + simpl. unfold strip. simpl. rewrite Hs.
      rewrite rstrip_by_cons. unfold u. rewrite rstrip_by_idemp.
      fold u. destruct u; [by rewrite Hs | done].
    + rewrite Ht in Hnd. by apply forallb_app_l in Hnd.
  - intros _. by rewrite lazy_group_no_dash by by apply before_dash_None.
Qed.

(** C4, as amended: every title whose name, after the split, the stripping
    and the substitution, has fewer than two characters is classified as
    [Unnamed_Project]. *)
Theorem short_name_fallback title :
  (length (project_candidate title) < 2)%nat ->
  extract_project_name title = Unnamed_Project.
Proof.
  intros Hshort. unfold extract_project_name.
  by apply Nat.ltb_lt in Hshort as ->.
Qed.

(** The fallback at the title [* - App]. *)
Lemma short_name_fallback_witness :
  (length (project_candidate (py "* - App")) < 2)%nat
  /\ extract_project_name (py "* - App") = Unnamed_Project.
Proof.
  split; [vm_compute; lia | apply short_name_fallback; vm_compute; lia].
Defined.

(** C4, as stated, fails at its own example: a dash at the very start of
    the title is not a split point, so [- App] keeps its five characters. *)
Lemma leading_dash_keeps_title :
  extract_project_name (py "- App") = py "- App"
  /\ extract_project_name (py "- App") <> Unnamed_Project.
Proof. split; [reflexivity | discriminate]. Qed.

(** C5, as amended: on every title whose first character is neither a dash
    nor white space and whose text before the separator holds no line feed,
    the source classifies as section 4.1 words it: the text before the first
    dash-family separator (or the first 50 characters), without leading
    stars and spaces. *)
Theorem classification_follows_spec title :
  plain_start title = true -> one_line_prefix title = true ->
  extract_project_name title = classify_project_spec title.
Proof.
  intros Hplain Hline. unfold extract_project_name, classify_project_spec.
  by rewrite candidate_plain.
Qed.

(** The two titles of the stable-classification example. *)
Lemma classification_follows_spec_witness :
  extract_project_name (py "* My House - Blender") = py "My House"
  /\ extract_project_name (py "My House - Blender 4.5") = py "My House".
Proof.
  split.
  - rewrite (classification_follows_spec (py "* My House - Blender"));
      reflexivity.
  - rewrite (classification_follows_spec (py "My House - Blender 4.5"));
      reflexivity.
Defined.

(** C5, as stated, fails on a title that starts with a dash: the text
    before its first separator is empty, but the source splits at the
    second dash. *)
Lemma leading_dash_splits_later :
  text_before_separator (py "-X - Y") = []
  /\ extract_project_name (py "-X - Y") = py "-X"
  /\ extract_project_name (py "-X - Y") <> classify_project_spec (py "-X - Y").
Proof. repeat split; [reflexivity.. | discriminate]. Qed.

Lemma sanitize_legal s : Forall (fun c => illegal c = false) (sanitize s).
Proof.
  unfold sanitize. apply Forall_forall. intros c Hc.
  apply list_elem_of_In, in_map_iff in Hc as (c' & <- & _).
  by destruct (illegal c') eqn:E.
Qed.

(** C6: the name returned for any title holds none of the characters that
    the substitution replaces (less-than, greater-than, colon, double quote,
    slash, backslash, bar, question mark, star). *)
Theorem no_illegal_character title :
  Forall (fun c => illegal c = false) (extract_project_name title).
Proof.
  unfold extract_project_name, project_candidate.
  destruct (_ <? 2)%nat.
  - apply Forall_forall. intros c Hc. vm_compute in Hc.
    repeat (apply elem_of_cons in Hc as [-> | Hc]; [reflexivity|]).
    by apply elem_of_nil in Hc.
  - apply sanitize_legal.
Qed.

(** The sanitization example evaluated. *)
Example sanitization_example :
  extract_project_name (py "Bad:Name/Here - App") = py "Bad_Name_Here".
Proof. reflexivity. Qed.

(** ** Insertion-ordered dictionaries *)

Section DictLemmas.
Context {V : Type}.
Implicit Types (d : list (str * V)) (k : str) (v : V).

Lemma dict_get_None k d : dict_get k d = None <-> k ∉ dict_keys d.
Proof.
  unfold dict_keys. induction d as [|[k' v'] d IH]; simpl.
  - split; [intros _; apply not_elem_of_nil | done].
  - rewrite not_elem_of_cons. destruct (decide (k = k')); [|tauto].
    split; [done | tauto].
Qed.

Lemma dict_get_Some_key k v d : dict_get k d = Some v -> k ∈ dict_keys d.
Proof.
  intros Hget. destruct (decide (k ∈ dict_keys d)) as [|Hn]; [done|].
  apply dict_get_None in Hn. congruence.
Qed.

Lemma dict_get_key k d : k ∈ dict_keys d -> exists v, dict_get k d = Some v.
Proof.
  intros Hin. destruct (dict_get k d) as [v|] eqn:E; [by exists v|].
  by apply dict_get_None in E.
Qed.

Lemma dict_get_elem k v d : dict_get k d = Some v -> (k, v) ∈ d.
Proof.
  induction d as [|[k' v'] d IH]; simpl; [done|].
  destruct (decide (k = k')) as [->|].
  - intros [= ->]. apply list_elem_of_here.
  - intros Hget. apply list_elem_of_further. auto.
Qed.

Lemma dict_get_set k k' v d :
  dict_get k' (dict_set k v d) = if decide (k' = k) then Some v else dict_get k' d.
Proof.
  induction d as [|[k0 v0] d IH]; simpl.
  - by destruct (decide (k' = k)).
  - destruct (decide (k = k0)) as [->|Hne]; simpl.
    + by destruct (decide (k' = k0)).
    + rewrite IH. destruct (decide (k' = k0)) as [->|]; [|done].
      by rewrite decide_False.
Qed.

Lemma dict_get_set_eq k v d : dict_get k (dict_set k v d) = Some v.
Proof. by rewrite dict_get_set, decide_True. Qed.

Lemma dict_get_set_ne k k' v d :
  k' <> k -> dict_get k' (dict_set k v d) = dict_get k' d.
Proof. intros. by rewrite dict_get_set, decide_False. Qed.

Lemma dict_set_new k v d : dict_get k d = None -> dict_set k v d = d ++ [(k, v)].
Proof.
  induction d as [|[k0 v0] d IH]; simpl; [done|].
  destruct (decide (k = k0)); [done|]. intros Hget. by rewrite IH.
Qed.

Lemma dict_keys_set_new k v d :
  dict_get k d = None -> dict_keys (dict_set k v d) = dict_keys d ++ [k].
Proof. intros Hget. unfold dict_keys. by rewrite dict_set_new, fmap_app. Qed.

Lemma dict_keys_remove k d :
  NoDup (dict_keys d) ->
  forall k', k' ∈ dict_keys (dict_remove k d) <-> k' ∈ dict_keys d /\ k' <> k.
Proof.
  unfold dict_keys. induction d as [|[k0 v0] d IH]; simpl; intros Hnd k'.
  - rewrite elem_of_nil. tauto.
  - apply NoDup_cons in Hnd as [Hk0 Hnd].
    destruct (decide (k = k0)) as [->|Hne]; simpl.
    + rewrite elem_of_cons. split.
      * intros Hin. split; [by right | by intros ->].
      * intros [[->|Hin] Hk']; done.
    + rewrite !elem_of_cons, IH by done. split.
      * intros [->|[? ?]]; split; auto.
      * intros [[->|?] ?]; auto.
Qed.

Lemma dict_remove_NoDup k d :
  NoDup (dict_keys d) -> NoDup (dict_keys (dict_remove k d)).
Proof.
  unfold dict_keys. induction d as [|[k0 v0] d IH]; simpl; intros Hnd; [done|].
  pose proof Hnd as Hnd'. apply NoDup_cons in Hnd as [Hk0 Hnd].
  destruct (decide (k = k0)); [done|]. simpl. apply NoDup_cons. split; [|auto].
  intros Hin. by apply (dict_keys_remove k d Hnd k0) in Hin as [? _].
Qed.

Lemma dict_get_remove k k' d :
  NoDup (dict_keys d) ->
  dict_get k' (dict_remove k d) = if decide (k' = k) then None else dict_get k' d.
Proof.
  unfold dict_keys. induction d as [|[k0 v0] d IH]; simpl; intros Hnd.
  - by destruct (decide (k' = k)).
  - apply NoDup_cons in Hnd as [Hk0 Hnd].
    destruct (decide (k = k0)) as [->|Hne]; simpl.
    + destruct (decide (k' = k0)) as [->|]; [|done].
      by apply dict_get_None.
    + rewrite IH by done. destruct (decide (k' = k0)) as [->|]; [|done].
      by rewrite decide_False.
Qed.

Lemma dict_remove_elem k kv d : kv ∈ dict_remove k d -> kv ∈ d.
Proof.
  induction d as [|[k0 v0] d IH]; simpl; [done|].
  destruct (decide (k = k0)).
  - apply list_elem_of_further.
  - rewrite !elem_of_cons. intros [->|?]; auto.
Qed.

Lemma dict_all_None d : (forall k, dict_get k d = None) -> d = [].
Proof.
  destruct d as [|[k v] d]; [done|]. intros Hall. specialize (Hall k).
  simpl in Hall. by rewrite decide_True in Hall.
Qed.
End DictLemmas.

(** ** The session state machine *)

Lemma active_wf_ok t : active_wf t = true <-> active_ok (session_active t).
Proof.
  unfold active_wf, active_ok.
  rewrite andb_true_iff, bool_decide_eq_true, forallb_forall, Forall_forall.
  split; intros [Hnd Hall]; (split; [done|]); intros kv Hkv.
  - apply list_elem_of_In, Hall in Hkv. by apply bool_decide_eq_true in Hkv.
  - apply bool_decide_eq_true, Hall. by apply list_elem_of_In.
Qed.

Lemma active_ok_key d p a :
  active_ok d -> dict_get p d = Some a ->
  extract_project_name (a_window_title a) = p.
Proof.
  intros [_ Hall] Hget. apply dict_get_elem in Hget.
  by apply (proj1 (Forall_forall _ _) Hall) in Hget.
Qed.

Lemma active_ok_remove d p : active_ok d -> active_ok (dict_remove p d).
Proof.
  intros [Hnd Hall]. split; [by apply dict_remove_NoDup|].
  apply Forall_forall. intros kv Hkv%dict_remove_elem.
  by apply (proj1 (Forall_forall _ _) Hall).
Qed.

Lemma active_ok_open d w start :
  active_ok d -> dict_get (extract_project_name w) d = None ->
  active_ok (dict_set (extract_project_name w)
               {| a_start := start; a_window_title := w |} d).
Proof.
  intros [Hnd Hall] Hget. split.
  - rewrite dict_keys_set_new by done. apply NoDup_app. split; [done|].
    split; [|apply NoDup_singleton].
    intros k Hk ->%list_elem_of_singleton. by apply dict_get_None in Hget.
  - rewrite dict_set_new by done. apply Forall_app. split; [done|].
    by apply Forall_singleton.
Qed.

Lemma log_name_inj p q : log_name p = log_name q -> p = q.
Proof. unfold log_name. apply app_inv_tail. Qed.

Lemma sessions_of_insert t p q l sa lm fs tk :
  sessions_of {| session_active := sa; sessions := <[p := l]> (sessions t);
                 log_meta := lm; files := fs; ticks := tk |} q
  = if decide (q = p) then l else sessions_of t q.
Proof.
  unfold sessions_of. simpl. destruct (decide (q = p)) as [->|Hne].
  - by rewrite lookup_insert_eq.
  - by rewrite lookup_insert_ne.
Qed.

Section TrackerLemmas.
Context `{UnicodeTables}.
Context (clock : nat -> datetime).

(** [save_session_log] touches neither the active sessions nor the
    histories. *)
Lemma save_session_log_frame proj t :
  session_active (save_session_log clock proj t) = session_active t
  /\ sessions (save_session_log clock proj t) = sessions t.
Proof. unfold save_session_log. by destruct (sessions_of t proj). Qed.

(** With a history to write, it writes the whole history. *)
Lemma save_session_log_writes proj t :
  sessions_of t proj <> [] ->
  exists c,
    save_session_log clock proj t =
    {| session_active := session_active t;
       sessions := sessions t;
       log_meta :=
         <[proj := {| created := Some c;
                      last_changed := Some (strftime (clock (ticks t))) |}]>
           (log_meta t);
       files :=
         dict_set (log_name proj)
           (log_text c (strftime (clock (ticks t)))
              (total_duration (sessions_of t proj)) (sessions_of t proj))
           (files t);
       ticks := S (ticks t) |}.
Proof.
  intros Hne. unfold save_session_log.
  destruct (sessions_of t proj) as [|first l] eqn:E; [done|]. eauto.
Qed.

(** What closing the session of [p] does. *)
Lemma on_window_close_active t p a :
  active_ok (session_active t) ->
  dict_get p (session_active t) = Some a ->
  let t' := on_window_close clock (a_window_title a) t in
  active_ok (session_active t')
  /\ ticks t' = S (S (ticks t))
  /\ (forall q, dict_get q (session_active t')
                = if decide (q = p) then None else dict_get q (session_active t))
  /\ (forall q, sessions_of t' q
                = if decide (q = p)
                  then sessions_of t p ++ [closed_session clock a (ticks t)]
                  else sessions_of t q)
  /\ (exists c lc,
        dict_get (log_name p) (files t')
        = Some (log_text c lc
                  (total_duration
                     (sessions_of t p ++ [closed_session clock a (ticks t)]))
                  (sessions_of t p ++ [closed_session clock a (ticks t)])))
  /\ (forall name, name <> log_name p ->
        dict_get name (files t') = dict_get name (files t))
  /\ (forall q, q <> p -> log_meta t' !! q = log_meta t !! q).
Proof.
  intros Hok Hget. pose proof (active_ok_key _ _ _ Hok Hget) as Hkey.
  unfold on_window_close. rewrite Hkey, Hget.
  set (s := {| s_start := _ |}).
  set (t1 := {| session_active := dict_remove p _ |}).
  assert (Hs1 : forall q, sessions_of t1 q
              = if decide (q = p) then sessions_of t p ++ [s] else sessions_of t q)
    by (intros q; apply sessions_of_insert).
  destruct (save_session_log_writes p t1) as [c Hsave].
  { rewrite Hs1, decide_True by done. by destruct (sessions_of t p). }
  simpl. rewrite Hsave. simpl. repeat split.
  - by apply dict_remove_NoDup, Hok.
  - by apply active_ok_remove.
  - intros q. apply dict_get_remove, Hok.
  - intros q. unfold sessions_of at 1. simpl. apply (Hs1 q).
  - exists c, (strftime (clock (S (ticks t)))).
    by rewrite dict_get_set_eq, Hs1, decide_True.
  - intros name Hname. by rewrite dict_get_set_ne.
  - intros q Hq. by rewrite lookup_insert_ne.
Qed.

(** Closing when the project has no session changes nothing. *)
Lemma on_window_close_idle t w :
  dict_get (extract_project_name w) (session_active t) = None ->
  on_window_close clock w t = t.
Proof. intros Hget. unfold on_window_close. by rewrite Hget. Qed.

Lemma on_window_open_new t w :
  dict_get (extract_project_name w) (session_active t) = None ->
  on_window_open clock w t =
  {| session_active :=
       dict_set (extract_project_name w)
         {| a_start := clock (ticks t); a_window_title := w |}
         (session_active t);
     sessions := sessions t; log_meta := log_meta t; files := files t;
     ticks := S (ticks t) |}.
Proof. intros Hget. unfold on_window_open. by rewrite Hget. Qed.
End TrackerLemmas.

Section CycleLemmas.
Context `{UnicodeTables}.
Context (clock : nat -> datetime).

Lemma observed_opening p ws :
  observed p ws = true <-> exists w, opening_title p ws = Some w.
Proof.
  unfold observed, opening_title. induction ws as [|w ws IH]; simpl.
  - split; [done | by intros [? ?]].
  - destruct (is_tracked w && bool_decide (extract_project_name w = p));
      simpl; [|done]. split; eauto.
Qed.

Lemma not_observed_opening p ws :
  observed p ws = false <-> opening_title p ws = None.
Proof.
  pose proof (observed_opening p ws) as Hiff.
  destruct (observed p ws), (opening_title p ws) as [w|]; split; try done.
  - intros _. by destruct (proj1 Hiff eq_refl) as [? ?].
  - intros _. by assert (false = true) by (apply Hiff; eauto).
Qed.

Lemma observed_cons p w ws :
  observed p (w :: ws)
  = is_tracked w && bool_decide (extract_project_name w = p) || observed p ws.
Proof. done. Qed.

Lemma opening_title_cons p w ws :
  opening_title p (w :: ws)
  = if is_tracked w && bool_decide (extract_project_name w = p)
    then Some w else opening_title p ws.
Proof. done. Qed.

Lemma track_starts_cons w ws tn t :
  track_starts clock (w :: ws) tn t
  = if is_tracked w
    then track_starts clock ws (extract_project_name w :: tn)
           (match dict_get (extract_project_name w) (session_active t) with
            | None => on_window_open clock w t
            | Some _ => t
            end)
    else track_starts clock ws tn t.
Proof. done. Qed.

(** The first loop of a cycle: sessions already open are left alone, a
    session is opened for each project seen without one, and nothing
    else changes. *)
Lemma track_starts_spec ws : forall tn t,
  active_ok (session_active t) ->
  exists tn' t1,
    track_starts clock ws tn t = (tn', t1)
    /\ active_ok (session_active t1)
    /\ sessions t1 = sessions t /\ log_meta t1 = log_meta t
    /\ files t1 = files t /\ ticks t <= ticks t1
    /\ (forall p, p ∈ tn' <-> p ∈ tn \/ observed p ws = true)
    /\ (forall p a, dict_get p (session_active t) = Some a ->
                    dict_get p (session_active t1) = Some a)
    /\ (forall p, dict_get p (session_active t) = None ->
          match opening_title p ws with
          | Some w =>
              exists n, ticks t <= n < ticks t1
                /\ dict_get p (session_active t1)
                   = Some {| a_start := clock n; a_window_title := w |}
          | None => dict_get p (session_active t1) = None
          end).
Proof.
  induction ws as [|w ws IH]; intros tn t Hok.
  - exists tn, t. simpl. split_and!; auto. intros p. split; [tauto | by intros [?|?]].
  - rewrite track_starts_cons. destruct (is_tracked w) eqn:Etr.
    + set (p0 := extract_project_name w).
      assert (Hseen : forall (tn' : list str) (p : str),
                (p ∈ tn' <-> p ∈ p0 :: tn \/ observed p ws = true) ->
                (p ∈ tn' <-> p ∈ tn \/ observed p (w :: ws) = true)).
      { intros tn' p ->. rewrite observed_cons, Etr. simpl. fold p0.
        rewrite elem_of_cons, orb_true_iff, bool_decide_eq_true.
        split; [intros [[->|?]|?] | intros [?|[->|?]]]; auto. }
      destruct (dict_get p0 (session_active t)) as [a0|] eqn:E0.
      * destruct (IH (p0 :: tn) t Hok)
          as (tn' & t1 & Heq & Hok1 & Hs & Hm & Hf & Htk & Htn & Hkeep & Hnew).
        exists tn', t1. rewrite Heq. split_and!; auto.
        intros p Hp. specialize (Hnew p Hp).
        rewrite opening_title_cons, Etr. simpl. fold p0.
        destruct (bool_decide (p0 = p)) eqn:Ep; [|done].
        apply bool_decide_eq_true in Ep. congruence.
      * rewrite (on_window_open_new clock t w E0).
        set (t0 := {| session_active := dict_set _ _ _ |}).
        assert (Hok0 : active_ok (session_active t0))
          by by apply active_ok_open.
        destruct (IH (p0 :: tn) t0 Hok0)
          as (tn' & t1 & Heq & Hok1 & Hs & Hm & Hf & Htk & Htn & Hkeep & Hnew).
        exists tn', t1. rewrite Heq. simpl in Hs, Hm, Hf, Htk, Hkeep.
        split_and!; auto; [lia|..].
        -- intros p a Hp. apply Hkeep. rewrite dict_get_set_ne; [done|].
           intros Hpp. rewrite Hpp in Hp. unfold p0 in E0. congruence.
        -- intros p Hp. rewrite opening_title_cons, Etr. simpl. fold p0.
           destruct (bool_decide (p0 = p)) eqn:Ep.
           ++ apply bool_decide_eq_true in Ep as <-. exists (ticks t).
              split; [lia|]. apply Hkeep. apply dict_get_set_eq.
           ++ apply bool_decide_eq_false in Ep.
              assert (Hp0 : dict_get p (session_active t0) = None)
                by (simpl; rewrite dict_get_set_ne; auto).
              specialize (Hnew p Hp0).
              destruct (opening_title p ws); [|done].
              destruct Hnew as (n & Hn & Hg). simpl in Hn.
              exists n. split; [lia|done].
    + destruct (IH tn t Hok)
        as (tn' & t1 & Heq & Hok1 & Hs & Hm & Hf & Htk & Htn & Hkeep & Hnew).
      exists tn', t1. rewrite Heq. split_and!; auto.
      * intros p. by rewrite observed_cons, Etr.
      * intros p Hp. rewrite opening_title_cons, Etr. simpl. by apply Hnew.
Qed.

(** Closing a list of distinct projects that all have a session. *)
Lemma close_each_spec projs : forall t,
  active_ok (session_active t) -> NoDup projs ->
  (forall p, p ∈ projs -> p ∈ dict_keys (session_active t)) ->
  exists t',
    close_each clock projs t = Ok t'
    /\ active_ok (session_active t')
    /\ ticks t' = ticks t + 2 * length projs
    /\ (forall p, p ∉ projs ->
          dict_get p (session_active t') = dict_get p (session_active t)
          /\ sessions_of t' p = sessions_of t p
          /\ dict_get (log_name p) (files t') = dict_get (log_name p) (files t))
    /\ (forall p a, p ∈ projs -> dict_get p (session_active t) = Some a ->
          dict_get p (session_active t') = None
          /\ exists n, ticks t <= n < ticks t'
               /\ sessions_of t' p
                  = sessions_of t p ++ [closed_session clock a n]
               /\ exists c lc,
                    dict_get (log_name p) (files t')
                    = Some (log_text c lc (total_duration (sessions_of t' p))
                              (sessions_of t' p))).
Proof.
  induction projs as [|p projs IH]; intros t Hok Hnd Hin.
  - exists t. simpl. split_and!; auto; try lia.
    intros p a Hp. by apply elem_of_nil in Hp.
  - apply NoDup_cons in Hnd as [Hp Hnd].
    destruct (dict_get_key p (session_active t)) as [a Ha];
      [apply Hin; by left|].
    simpl. rewrite Ha. simpl.
    destruct (on_window_close_active clock t p a Hok Ha)
      as (Hok1 & Htk1 & Hact1 & Hses1 & (c & lc & Hfile1) & Hfiles1 & _).
    set (t1 := on_window_close clock (a_window_title a) t) in *.
    destruct (IH t1 Hok1 Hnd) as (t' & Heq & Hok' & Htk' & Hout & Hclosed).
    { intros q Hq. assert (q <> p) by (by intros ->).
      destruct (dict_get_key q (session_active t)) as [aq Haq];
        [apply Hin; by right|].
      apply (dict_get_Some_key q aq). by rewrite Hact1, decide_False. }
    exists t'. unfold mbind, result_bind. rewrite Heq. split_and!; auto.
    + rewrite Htk', Htk1. simpl. lia.
    + intros q Hq. apply not_elem_of_cons in Hq as [Hqp Hq].
      destruct (Hout q Hq) as (-> & -> & ->).
      rewrite Hact1, Hses1, !decide_False by done. split_and!; auto.
      apply Hfiles1. by intros Hname%log_name_inj.
    + intros q aq Hq Haq. apply elem_of_cons in Hq as [->|Hq].
      * destruct (Hout p Hp) as (Hact & Hs & Hf).
        rewrite Hact, Hact1, decide_True by done. split; [done|].
        assert (aq = a) as -> by congruence.
        exists (ticks t). split; [lia|]. rewrite Hs, Hses1, decide_True by done.
        split; [done|]. exists c, lc. by rewrite Hf.
      * assert (q <> p) by (by intros ->).
        destruct (Hclosed q aq Hq) as (Hact & n & Hn & Hs & Hf).
        { by rewrite Hact1, decide_False. }
        split; [done|]. exists n. split; [lia|]. split; [|done].
        by rewrite Hs, Hses1, decide_False.
Qed.
End CycleLemmas.

Section PollLemmas.
Context `{UnicodeTables}.
Context (clock : nat -> datetime).
Context (iteration_order : nat -> list str -> list str).
(** A set is iterated in some order, each element once. *)
Hypothesis iteration_order_perm :
  forall n l, iteration_order n l ≡ₚ l.

(** A cycle of [run] on a well-formed tracker: it does not raise; a
    project with a session keeps it untouched when observed and is closed
    otherwise; a project without a session gets one when observed. *)
Lemma poll_cycle_spec ws t :
  active_ok (session_active t) ->
  exists t',
    poll_cycle clock iteration_order ws t = Ok t'
    /\ active_ok (session_active t')
    /\ ticks t <= ticks t'
    /\ (forall p a, dict_get p (session_active t) = Some a ->
          if observed p ws
          then dict_get p (session_active t') = Some a
               /\ sessions_of t' p = sessions_of t p
          else dict_get p (session_active t') = None
               /\ exists n, ticks t <= n < ticks t'
                    /\ sessions_of t' p
                       = sessions_of t p ++ [closed_session clock a n]
                    /\ exists c lc,
                         dict_get (log_name p) (files t')
                         = Some (log_text c lc (total_duration (sessions_of t' p))
                                   (sessions_of t' p)))
    /\ (forall p, dict_get p (session_active t) = None ->
          sessions_of t' p = sessions_of t p
          /\ match opening_title p ws with
             | Some w =>
                 exists n, ticks t <= n < ticks t'
                   /\ dict_get p (session_active t')
                      = Some {| a_start := clock n; a_window_title := w |}
             | None => dict_get p (session_active t') = None
             end).
Proof.
  intros Hok. unfold poll_cycle.
  destruct (track_starts_spec clock ws [] t Hok)
    as (tn & t1 & -> & Hok1 & Hs & _ & _ & Htk & Htn & Hkeep & Hnew).
  set (closed := iteration_order _ _).
  assert (Hclosed : forall p,
            p ∈ closed <-> p ∈ dict_keys (session_active t1) /\ p ∉ tn).
  { intros p. unfold closed. rewrite iteration_order_perm.
    rewrite elem_of_List_filter, bool_decide_eq_true. tauto. }
  assert (Hsame : forall p, sessions_of t1 p = sessions_of t p)
    by (intros p; unfold sessions_of; by rewrite Hs).
  destruct (close_each_spec clock closed t1 Hok1)
    as (t' & -> & Hok' & Htk' & Hout & Hin).
  { unfold closed. rewrite iteration_order_perm.
    apply NoDup_List_filter, Hok1. }
  { intros p Hp. by apply Hclosed in Hp as [? _]. }
  exists t'. split_and!; auto; [lia|..].
  - intros p a Ha. pose proof (Hkeep p a Ha) as Ha1.
    destruct (observed p ws) eqn:Eobs.
    + destruct (Hout p) as (-> & -> & _); [|by rewrite Hsame].
      rewrite Hclosed. intros [_ Hp]. apply Hp, Htn. by right.
    + destruct (Hin p a) as (Hact & n & Hn & Hses & Hfile); [|done|].
      { apply Hclosed. split; [by apply (dict_get_Some_key p a)|].
        rewrite Htn. intros [Hp|Hp]; [by apply elem_of_nil in Hp | congruence]. }
      split; [done|]. exists n. split; [lia|]. split; [|done].
      by rewrite Hses, Hsame.
  - intros p Hp. specialize (Hnew p Hp).
    assert (Hnot : p ∉ closed).
    { rewrite Hclosed. intros [Hkey Hntn].
      destruct (opening_title p ws) as [w|] eqn:Eo.
      - apply Hntn, Htn. right. apply observed_opening. eauto.
      - by apply dict_get_None in Hnew. }
    destruct (Hout p Hnot) as (-> & -> & _). split; [apply Hsame|].
    destruct (opening_title p ws); [|done].
    destruct Hnew as (n & Hn & Hg). exists n. split; [lia|done].
Qed.


(** The interrupt handler closes every session. *)
Lemma shutdown_spec t :
  active_ok (session_active t) ->
  exists t',
    shutdown clock t = Ok t'
    /\ session_active t' = []
    /\ (forall p a, dict_get p (session_active t) = Some a ->
          exists n, ticks t <= n < ticks t'
            /\ sessions_of t' p = sessions_of t p ++ [closed_session clock a n]
            /\ exists c lc,
                 dict_get (log_name p) (files t')
                 = Some (log_text c lc (total_duration (sessions_of t' p))
                           (sessions_of t' p)))
    /\ (forall p, dict_get p (session_active t) = None ->
          sessions_of t' p = sessions_of t p).
Proof.
  intros Hok. unfold shutdown.
  destruct (close_each_spec clock (dict_keys (session_active t)) t Hok)
    as (t' & Heq & Hok' & Htk' & Hout & Hin); [apply Hok | done |].
  exists t'. split_and!; auto.
  - apply dict_all_None. intros p.
    destruct (dict_get p (session_active t)) as [a|] eqn:Ea.
    + apply (Hin p a); [by apply (dict_get_Some_key p a) | done].
    + destruct (Hout p) as (-> & _); [by apply dict_get_None | done].
  - intros p a Ha. apply (Hin p a); [by apply (dict_get_Some_key p a) | done].
  - intros p Hp. apply Hout. by apply dict_get_None.
Qed.
End PollLemmas.

Section LoadFrame.
Context `{UnicodeTables}.
Context (clock : nat -> datetime).

Lemma load_file_active fname content t t' :
  load_file clock fname content t = Ok t' ->
  session_active t' = session_active t.
Proof.
  unfold load_file. destruct (endswith _ fname); [|by intros [= <-]].
  destruct (read_meta _ _) as [m|]; [|done]. simpl.
  destruct (created m), (last_changed m);
    (destruct (for_each_row _ _ _ _ _) as [[? ?]|]; [|done]);
    by intros [= <-].
Qed.

Lemma load_files_active dir : forall t t',
  load_files clock dir t = Ok t' -> session_active t' = session_active t.
Proof.
  induction dir as [|[fname content] dir IH]; intros t t'; simpl.
  - by intros [= <-].
  - destruct (load_file clock fname content t) as [t1|] eqn:E; [|done].
    simpl. intros Hrest. apply IH in Hrest. apply load_file_active in E.
    congruence.
Qed.

Lemma new_tracker_active dir t :
  new_tracker clock dir = Ok t -> session_active t = [].
Proof. intros Hnew. by apply load_files_active in Hnew. Qed.
End LoadFrame.

Section Reachable.
Context `{UnicodeTables}.
Context (clock : nat -> datetime).
Context (iteration_order : nat -> list str -> list str).
Hypothesis iteration_order_perm :
  forall n l, iteration_order n l ≡ₚ l.

Lemma reachable_active_ok t :
  reachable clock iteration_order t -> active_ok (session_active t).
Proof.
  induction 1 as [dir t Hnew | t ws t' _ IH Hcycle | t t' _ IH Hstop].
  - rewrite (new_tracker_active clock dir t Hnew). split; constructor.
  - destruct (poll_cycle_spec clock iteration_order iteration_order_perm ws t IH)
      as (t1 & Heq & Hok & _). congruence.
  - destruct (shutdown_spec clock t IH) as (t1 & Heq & Hnil & _).
    assert (t1 = t') as <- by congruence. rewrite Hnil. split; constructor.
Qed.
End Reachable.

Section TrackerClaims.
Context `{UnicodeTables}.
Context (clock : nat -> datetime).
Context (iteration_order : nat -> list str -> list str).
Hypothesis iteration_order_perm :
  forall n l, iteration_order n l ≡ₚ l.


(** C9: in every tracker that cycles and shutdowns can reach, a project
    has at most one active session; and through a cycle an active session
    either stays exactly as it was (start time and title) or is gone, and
    it stays when the project is observed. *)
Theorem one_session_per_project t :
  reachable clock iteration_order t ->
  NoDup (dict_keys (session_active t))
  /\ forall ws t' p a,
       poll_cycle clock iteration_order ws t = Ok t' ->
       dict_get p (session_active t) = Some a ->
       (observed p ws = true -> dict_get p (session_active t') = Some a)
       /\ (forall a', dict_get p (session_active t') = Some a' -> a' = a).
Proof.
  intros Hok%(reachable_active_ok _ _ iteration_order_perm).
  split; [apply Hok|]. intros ws t' p a Hcycle Ha.
  destruct (poll_cycle_spec clock iteration_order iteration_order_perm ws t Hok)
    as (t1 & Heq & _ & _ & Hact & _).
  assert (t1 = t') as -> by congruence.
  specialize (Hact p a Ha). destruct (observed p ws).
  - destruct Hact as [Hsame _]. split; [done | congruence].
  - destruct Hact as [Hgone _]. split; [done | congruence].
Qed.

(** C10: closing a window whose project has no active session returns
    the tracker unchanged: active sessions, histories, log metadata, files
    and the clock are all as before. *)
Theorem close_without_session_is_noop window_title t :
  dict_get (extract_project_name window_title) (session_active t) = None ->
  on_window_close clock window_title t = t.
Proof. apply on_window_close_idle. Qed.

(** C7, as amended: a failure of the window enumeration is not handled;
    [run] ends with the exception at once, whatever would follow, and the
    tracker is as the failing cycle found it: nothing is closed and nothing
    is written. *)
Theorem enumeration_failure_ends_run t rest :
  run clock iteration_order (Cycle EnumFailed :: rest) t
  = Crashed EnumWindowsError t.
Proof. reflexivity. Qed.
End TrackerClaims.

Lemma as_listed_perm n l : as_listed n l ≡ₚ l.
Proof. reflexivity. Qed.

(** The same scenario evaluated: one session for [ProjA], from 09:00:00 to
    09:01:00, of 60 seconds, and no active session left. *)
Example scenario_ProjA :
  exists t',
    poll_cycles scenario_clock as_listed
      [ [py "ProjA - Blender"]; [py "ProjA - Blender"];
        [py "ProjA - Blender"]; [] ] fresh_tracker = Ok t'
    /\ sessions_of t' (py "ProjA")
       = [ {| s_start := py "2024-01-01 09:00:00";
              s_end := py "2024-01-01 09:01:00";
              s_duration := 60;
              s_window_title := py "ProjA - Blender" |} ]
    /\ session_active t' = [].
Proof. eexists. split; [vm_compute; reflexivity|]. split; vm_compute; reflexivity. Qed.

(** After the first cycle of the scenario [ProjA] has an active session,
    and later cycles leave it as it is or close it. *)
Lemma one_session_per_project_witness :
  reachable scenario_clock as_listed tracking_ProjA
  /\ dict_get (py "ProjA") (session_active tracking_ProjA)
     = Some {| a_start := at_second 0; a_window_title := py "ProjA - Blender" |}
  /\ NoDup (dict_keys (session_active tracking_ProjA))
  /\ forall ws t' p a,
       poll_cycle scenario_clock as_listed ws tracking_ProjA = Ok t' ->
       dict_get p (session_active tracking_ProjA) = Some a ->
       (observed p ws = true -> dict_get p (session_active t') = Some a)
       /\ (forall a', dict_get p (session_active t') = Some a' -> a' = a).
Proof.
  assert (Hreach : reachable scenario_clock as_listed tracking_ProjA).
  { apply (reach_cycle _ _ fresh_tracker [py "ProjA - Blender"]).
    - apply (reach_new _ _ []). reflexivity.
    - vm_compute. reflexivity. }
  split; [exact Hreach|]. split; [reflexivity|].
  apply (one_session_per_project scenario_clock as_listed as_listed_perm).
  exact Hreach.
Defined.

Lemma close_without_session_is_noop_witness :
  on_window_close scenario_clock (py "Other - Blender") tracking_ProjA
  = tracking_ProjA.
Proof. apply close_without_session_is_noop. vm_compute. reflexivity. Defined.

(** C7, as stated, fails: with a session active, a failed enumeration ends
    [run] and leaves the session open, while an empty enumeration closes it
    and the loop goes on. *)
Lemma enumeration_failure_is_not_an_empty_cycle :
  run scenario_clock as_listed [Cycle EnumFailed; Cycle (Enumerated [])] tracking_ProjA
  = Crashed EnumWindowsError tracking_ProjA
  /\ (exists t', run scenario_clock as_listed
                   [Cycle (Enumerated []); Cycle (Enumerated [])] tracking_ProjA
                 = Looping t'
                 /\ session_active t' = []
                 /\ length (sessions_of t' (py "ProjA")) = 1%nat)
  /\ run scenario_clock as_listed [Cycle EnumFailed; Cycle (Enumerated [])] tracking_ProjA
     <> run scenario_clock as_listed
          [Cycle (Enumerated []); Cycle (Enumerated [])] tracking_ProjA.
Proof.
  split; [reflexivity|]. split.
  - eexists. split; [vm_compute; reflexivity|]. split; vm_compute; reflexivity.
  - vm_compute. discriminate.
Qed.

(** ** Reading integers *)

Lemma lstrip_by_ascii f s : ascii_only s = true -> ascii_only (lstrip_by f s) = true.
Proof.
  unfold ascii_only. induction s as [|c s IH]; simpl; [done|].
  intros [Hc Hs]%andb_true_iff. destruct (f c); [auto|]. simpl. by rewrite Hc, Hs.
Qed.

Lemma ascii_only_rev s : ascii_only (rev s) = ascii_only s.
Proof.
  unfold ascii_only. induction s as [|c s IH]; simpl; [done|].
  rewrite forallb_app, IH. simpl. by rewrite andb_true_r, andb_comm.
Qed.

Lemma rstrip_by_ascii f s : ascii_only s = true -> ascii_only (rstrip_by f s) = true.
Proof.
  intros Hs. unfold rstrip_by. rewrite ascii_only_rev.
  apply lstrip_by_ascii. by rewrite ascii_only_rev.
Qed.

(** On ASCII text [int] does not depend on the Unicode tables. *)
Lemma int_digits_ascii `{UnicodeTables} s : forall acc prev,
  ascii_only s = true ->
  int_digits acc prev s = int_digits (H := ascii_tables) acc prev s.
Proof.
  induction s as [|c s IH]; intros acc prev; simpl; [done|].
  intros [Hc Hs]%andb_true_iff. apply N.ltb_lt in Hc.
  rewrite decimal_ascii by done.
  destruct (c =? Chr.UNDERSCORE)%N; [destruct prev; auto|].
  destruct (ascii_decimal c); auto.
Qed.

Lemma int_of_str_ascii `{UnicodeTables} s :
  ascii_only s = true -> int_of_str s = int_of_str (H := ascii_tables) s.
Proof.
  intros Hs. unfold int_of_str.
  pose proof (rstrip_by_ascii int_isspace _ (lstrip_by_ascii int_isspace s Hs)) as Ha.
  destruct (rstrip_by _ _) as [|c r]; [done|].
  pose proof Ha as Ha'. simpl in Ha'. apply andb_true_iff in Ha' as [_ Hr].
  destruct (c =? 43)%N; [by apply int_digits_ascii|].
  destruct (c =? Chr.HYPHEN)%N; [by rewrite int_digits_ascii|].
  by apply int_digits_ascii.
Qed.

(** ** Lines of a text file *)

Lemma one_line_app a b : one_line (a ++ b) = one_line a && one_line b.
Proof. apply forallb_app. Qed.

Lemma universal_newlines_plain a rest :
  forallb (fun c => negb (c =? Chr.CR)%N) a = true ->
  universal_newlines (a ++ rest) = a ++ universal_newlines rest.
Proof.
  induction a as [|c a IH]; simpl; [done|].
  intros [Hc Ha]%andb_true_iff. apply negb_true_iff in Hc. rewrite Hc.
  by rewrite IH.
Qed.

Lemma one_line_no_cr a :
  one_line a = true -> forallb (fun c => negb (c =? Chr.CR)%N) a = true.
Proof.
  unfold one_line, is_crlf. induction a as [|c a IH]; simpl; [done|].
  intros [Hc Ha]%andb_true_iff. rewrite IH by done.
  apply negb_true_iff, orb_false_iff in Hc as [_ ->]. done.
Qed.

Lemma one_line_no_lf a :
  one_line a = true -> forallb (fun c => negb (c =? Chr.LF)%N) a = true.
Proof.
  unfold one_line, is_crlf. induction a as [|c a IH]; simpl; [done|].
  intros [Hc Ha]%andb_true_iff. rewrite IH by done.
  apply negb_true_iff, orb_false_iff in Hc as [-> _]. done.
Qed.

Lemma lines_from_line a : forall cur rest,
  forallb (fun c => negb (c =? Chr.LF)%N) a = true ->
  lines_from cur (a ++ Chr.LF :: rest) = (cur ++ a ++ [Chr.LF]) :: lines_from [] rest.
Proof.
  induction a as [|c a IH]; intros cur rest; simpl.
  - done.
  - intros [Hc Ha]%andb_true_iff. apply negb_true_iff in Hc. rewrite Hc.
    rewrite IH by done. by rewrite <- app_assoc.
Qed.

(** A line ended by a line feed is read as it is. *)
Lemma read_lines_lf a rest :
  one_line a = true ->
  read_lines (a ++ Chr.LF :: rest) = (a ++ [Chr.LF]) :: read_lines rest.
Proof.
  intros Ha. unfold read_lines.
  rewrite universal_newlines_plain by by apply one_line_no_cr.
  simpl. by rewrite lines_from_line by by apply one_line_no_lf.
Qed.

(** A line ended by the terminator of [csv.writer] is read with a line
    feed. *)
Lemma read_lines_crlf a rest :
  one_line a = true ->
  read_lines (a ++ Chr.CR :: Chr.LF :: rest) = (a ++ [Chr.LF]) :: read_lines rest.
Proof.
  intros Ha. unfold read_lines.
  rewrite universal_newlines_plain by by apply one_line_no_cr.
  simpl. by rewrite lines_from_line by by apply one_line_no_lf.
Qed.

(** ** Stripping *)

Lemma lstrip_by_app f x y :
  lstrip_by f (x ++ y) =
  match lstrip_by f x with
  | [] => lstrip_by f y
  | r => r ++ y
  end.
Proof.
  induction x as [|c x IH]; simpl; [done|].
  destruct (f c); [exact IH | done].
Qed.

Lemma rstrip_by_app f x y :
  rstrip_by f (x ++ y) =
  match rstrip_by f y with
  | [] => rstrip_by f x
  | r => x ++ r
  end.
Proof.
  unfold rstrip_by. rewrite rev_app_distr, lstrip_by_app.
  destruct (lstrip_by f (rev y)) as [|c r]; [done|].
  rewrite rev_app_distr, rev_involutive.
  change (rev (c :: r)) with (rev r ++ [c]).
  by destruct (rev r ++ [c]) eqn:E; [destruct (rev r)|].
Qed.

Lemma trimmed_lstrip s : trimmed s = true -> lstrip_by isspace s = s.
Proof.
  destruct s as [|c s]; [done|]. simpl.
  intros [Hc _]%andb_true_iff. apply negb_true_iff in Hc. by rewrite Hc.
Qed.

Lemma trimmed_rstrip s : trimmed s = true -> rstrip_by isspace s = s.
Proof.
  destruct s as [|c s]; [done|]. unfold trimmed.
  intros [_ Hl]%andb_true_iff. apply negb_true_iff in Hl.
  unfold rstrip_by.
  destruct (rev (c :: s)) as [|b r] eqn:E.
  { apply (f_equal (@length N)) in E. rewrite length_rev in E. done. }
  assert (Hlast : List.last (c :: s) c = b).
  { rewrite <- (rev_involutive (c :: s)), E. simpl. apply last_last. }
  rewrite Hlast in Hl. simpl. rewrite Hl. by rewrite <- E, rev_involutive.
Qed.

Lemma trimmed_strip s : trimmed s = true -> strip s = s.
Proof.
  intros Hs. unfold strip. by rewrite trimmed_lstrip, trimmed_rstrip.
Qed.

(** ** The CSV reader on text of the CSV writer *)

Lemma bind_Ok {A B} (a : A) (k : A -> result B) : Ok a ≫= k = k a.
Proof. done. Qed.

Lemma join_cons sep x y l : join sep (x :: y :: l) = x ++ sep ++ join sep (y :: l).
Proof. done. Qed.

Lemma parse_chars_app a : forall r b,
  parse_chars r (a ++ b) = r' ← parse_chars r a; parse_chars r' b.
Proof.
  induction a as [|c a IH]; intros r b; simpl; [done|].
  destruct (parse_process_char r (Some c)) as [r'|e]; simpl; [apply IH | done].
Qed.

Lemma csv_special_false c :
  csv_special c = false ->
  is_crlf c = false /\ (c =? Chr.QUOTE)%N = false /\ (c =? Chr.COMMA)%N = false.
Proof.
  unfold csv_special, is_crlf.
  rewrite !orb_false_iff. tauto.
Qed.

(** An unquoted field is read character by character. *)
Lemma parse_plain f : forall r,
  state r = START_FIELD \/ state r = IN_FIELD ->
  existsb csv_special f = false -> f <> [] ->
  parse_chars r f
  = Ok {| state := IN_FIELD; field := field r ++ f; fields := fields r |}.
Proof.
  induction f as [|c f IH]; intros r Hst Hf Hne; [done|].
  simpl in Hf. apply orb_false_iff in Hf as [Hc Hf].
  apply csv_special_false in Hc as (Hcrlf & Hq & Hcomma).
  assert (Hstep : parse_process_char r (Some c) = Ok (parse_add_char IN_FIELD c r)).
  { unfold parse_process_char. destruct Hst as [-> | ->]; by rewrite Hcrlf, ?Hq, Hcomma. }
  simpl. rewrite Hstep. simpl.
  destruct f as [|c' f'].
  - done.
  - rewrite IH; [|by right|done|done]. simpl. by rewrite <- app_assoc.
Qed.

Lemma parse_chars_cons r c line :
  parse_chars r (c :: line)
  = r' ← parse_process_char r (Some c); parse_chars r' line.
Proof. done. Qed.

Lemma parse_in_quoted r c :
  state r = IN_QUOTED_FIELD ->
  parse_process_char r (Some c)
  = if (c =? Chr.QUOTE)%N then Ok (set_state QUOTE_IN_QUOTED_FIELD r)
    else Ok (parse_add_char IN_QUOTED_FIELD c r).
Proof. intros Hst. unfold parse_process_char. by rewrite Hst. Qed.

Lemma parse_quote_in_quoted r :
  state r = QUOTE_IN_QUOTED_FIELD ->
  parse_process_char r (Some Chr.QUOTE)
  = Ok (parse_add_char IN_QUOTED_FIELD Chr.QUOTE r).
Proof. intros Hst. unfold parse_process_char. by rewrite Hst. Qed.

(** Inside quotes a doubled quote is one quote and every other character
    is itself. *)
Lemma parse_quoted_body f : forall r,
  state r = IN_QUOTED_FIELD ->
  parse_chars r (flat_map (fun c => if (c =? Chr.QUOTE)%N then [c; c] else [c]) f)
  = Ok {| state := IN_QUOTED_FIELD; field := field r ++ f; fields := fields r |}.
Proof.
  induction f as [|c f IH]; intros r Hst.
  - simpl. rewrite app_nil_r. destruct r. simpl in Hst. by subst.
  - change (flat_map ?g (c :: f)) with (g c ++ flat_map g f). cbv beta.
    destruct (c =? Chr.QUOTE)%N eqn:Ec.
    + apply N.eqb_eq in Ec as ->.
      change ([Chr.QUOTE; Chr.QUOTE] ++ ?l) with (Chr.QUOTE :: Chr.QUOTE :: l).
      rewrite parse_chars_cons, parse_in_quoted by done. simpl.
      rewrite IH by done. simpl. by rewrite <- app_assoc.
    + change ([c] ++ ?l) with (c :: l).
      rewrite parse_chars_cons, parse_in_quoted, Ec by done. simpl.
      rewrite IH by done. simpl. by rewrite <- app_assoc.
Qed.

(** The text of a written field gives the field back. *)
Lemma parse_csv_field f r :
  state r = START_FIELD -> field r = [] ->
  parse_chars r (csv_field f)
  = Ok {| state := field_end_state f; field := f; fields := fields r |}.
Proof.
  intros Hst Hfield. unfold csv_field, field_end_state.
  destruct (existsb csv_special f) eqn:Esp.
  - simpl. unfold parse_process_char at 1. rewrite Hst. simpl.
    rewrite parse_chars_app, parse_quoted_body by done. simpl.
    by rewrite Hfield.
  - destruct f as [|c f]; [destruct r; simpl in *; by subst|].
    rewrite parse_plain; [by rewrite Hfield | by left | done | done].
Qed.

Lemma field_end_comma f fs :
  parse_process_char
    {| state := field_end_state f; field := f; fields := fs |} (Some Chr.COMMA)
  = Ok {| state := START_FIELD; field := []; fields := fs ++ [f] |}.
Proof.
  unfold field_end_state. destruct (existsb csv_special f); [done|].
  by destruct f.
Qed.

Lemma field_end_line f fs :
  parse_line {| state := field_end_state f; field := f; fields := fs |} [Chr.LF]
  = Ok {| state := START_RECORD; field := []; fields := fs ++ [f] |}.
Proof.
  unfold field_end_state. destruct (existsb csv_special f); [done|].
  by destruct f.
Qed.

Lemma parse_line_app a r b :
  parse_line r (a ++ b) = r' ← parse_chars r a; parse_line r' b.
Proof.
  unfold parse_line. rewrite parse_chars_app.
  by destruct (parse_chars r a).
Qed.

Lemma parse_line_cons r c line :
  parse_line r (c :: line)
  = r' ← parse_process_char r (Some c); parse_line r' line.
Proof.
  unfold parse_line. rewrite parse_chars_cons.
  by destruct (parse_process_char r (Some c)).
Qed.

(** The fields of a row after the first. *)
Lemma parse_row_tail fs : forall f r,
  state r = START_FIELD -> field r = [] ->
  parse_line r (join [Chr.COMMA] (map csv_field (f :: fs)) ++ [Chr.LF])
  = Ok {| state := START_RECORD; field := []; fields := fields r ++ f :: fs |}.
Proof.
  induction fs as [|g fs IH]; intros f r Hst Hfield.
  - simpl. rewrite parse_line_app, parse_csv_field by done.
    rewrite bind_Ok. apply field_end_line.
  - rewrite !map_cons, join_cons, <- !app_assoc, <- map_cons.
    rewrite parse_line_app, parse_csv_field, bind_Ok by done.
    change ([Chr.COMMA] ++ ?l) with (Chr.COMMA :: l).
    rewrite parse_line_cons, field_end_comma, bind_Ok.
    rewrite IH by done. simpl. by rewrite <- app_assoc.
Qed.

(** At the start of a record a character that is no line end is read as
    at the start of a field. *)
Lemma parse_chars_record_start c line r :
  state r = START_RECORD -> is_crlf c = false ->
  parse_chars r (c :: line) = parse_chars (set_state START_FIELD r) (c :: line).
Proof.
  intros Hst Hc. simpl. unfold parse_process_char.
  rewrite Hst. simpl. by rewrite Hc.
Qed.


(** A written row of at least two fields, read as one line, gives its
    fields back. *)
Lemma parse_written_row f g fs :
  parse_line reader_reset
    (join [Chr.COMMA] (map csv_field (f :: g :: fs)) ++ [Chr.LF])
  = Ok {| state := START_RECORD; field := []; fields := f :: g :: fs |}.
Proof.
  rewrite !map_cons, join_cons, <- !app_assoc, <- map_cons.
  assert (Hfirst :
    parse_chars reader_reset (csv_field f ++ [Chr.COMMA])
    = Ok {| state := START_FIELD; field := []; fields := [f] |}).
  { destruct (csv_field f) as [|c line] eqn:Ef.
    - assert (f = []) as ->; [|done].
      unfold csv_field in Ef. destruct (existsb csv_special f); done.
    - assert (Hc : is_crlf c = false).
      { unfold csv_field in Ef. destruct (existsb csv_special f) eqn:Esp.
        - by injection Ef as <- _.
        - subst f. simpl in Esp. apply orb_false_iff in Esp as [Hc _].
          by apply csv_special_false in Hc as [? _]. }
      change ((c :: line) ++ [Chr.COMMA]) with (c :: (line ++ [Chr.COMMA])).
      rewrite parse_chars_record_start by done.
      change (c :: (line ++ [Chr.COMMA])) with ((c :: line) ++ [Chr.COMMA]).
      rewrite <- Ef, parse_chars_app, parse_csv_field, bind_Ok by done.
      rewrite parse_chars_cons, field_end_comma. done. }
  rewrite (app_assoc (csv_field f) [Chr.COMMA]).
  rewrite parse_line_app, Hfirst, bind_Ok.
  by rewrite parse_row_tail.
Qed.

(** ** Integers written and read back *)

Lemma last_digit n :
  is_digit (48 + n mod 10) = true
  /\ (48 + n mod 10 =? Chr.UNDERSCORE)%N = false
  /\ (Z.of_N (48 + n mod 10) - 48 = Z.of_N (n mod 10))%Z.
Proof.
  pose proof (N.mod_lt n 10 ltac:(lia)) as Hm. revert Hm.
  generalize (n mod 10)%N. intros d Hd. unfold is_digit, Chr.UNDERSCORE.
  split_and!; [apply andb_true_iff; split; apply N.leb_le | apply N.eqb_neq |]; lia.
Qed.

Lemma digits_of_digits fuel : forall n acc,
  forallb is_digit acc = true -> forallb is_digit (digits_of fuel n acc) = true.
Proof.
  induction fuel as [|fuel IH]; intros n acc Hacc; simpl; [done|].
  destruct (last_digit n) as (Hd & _).
  destruct (n / 10 =? 0)%N; [|apply IH]; simpl; by rewrite Hd, Hacc.
Qed.

Lemma digits_of_nonempty fuel n acc : digits_of (S fuel) n acc <> [].
Proof.
  revert n acc. induction fuel as [|fuel IH]; intros n acc; simpl.
  - by destruct (n / 10 =? 0)%N.
  - destruct (n / 10 =? 0)%N; [done|]. apply IH.
Qed.

Section IntRound.
Context `{UnicodeTables}.

Lemma decimal_digit c : is_digit c = true -> decimal c = Some (Z.of_N c - 48)%Z.
Proof.
  intros Hc. unfold is_digit in Hc. rewrite decimal_ascii.
  - unfold ascii_decimal. by rewrite Hc.
  - apply andb_true_iff in Hc as [_ Hc%N.leb_le]. lia.
Qed.

(** Reading the digits written for [n] gives [n]. *)
Lemma int_digits_of fuel : forall n rest,
  (n < 10 ^ N.of_nat (S fuel))%N ->
  int_digits 0 false (digits_of (S fuel) n rest)
  = int_digits (Z.of_N n) true rest.
Proof.
  induction fuel as [|fuel IH]; intros n rest Hn;
    destruct (last_digit n) as (Hd & Hu & Hv);
    pose proof (N.div_mod n 10 ltac:(lia)) as Hdm;
    change (digits_of (S ?f) n rest)
      with (let acc' := (48 + n mod 10)%N :: rest in
            if (n / 10 =? 0)%N then acc' else digits_of f (n / 10) acc');
    cbv zeta.
  - change (10 ^ N.of_nat 1)%N with 10%N in Hn.
    assert (Hq : (n / 10 = 0)%N) by (apply N.div_small; lia).
    rewrite Hq. simpl. rewrite Hu, decimal_digit, Hv by done.
    f_equal. rewrite Hq in Hdm. lia.
  - destruct (n / 10 =? 0)%N eqn:Eq.
    + apply N.eqb_eq in Eq. simpl. rewrite Hu, decimal_digit, Hv by done.
      f_equal. rewrite Eq in Hdm. lia.
    + rewrite IH.
      * simpl. rewrite Hu, decimal_digit, Hv by done. f_equal. lia.
      * apply N.Div0.div_lt_upper_bound.
        replace (N.of_nat (S (S fuel))) with (N.succ (N.of_nat (S fuel))) in Hn by lia.
        by rewrite N.pow_succ_r' in Hn.
Qed.

Lemma int_digits_str_of_N n : int_digits 0 false (str_of_N n) = Some (Z.of_N n).
Proof.
  unfold str_of_N. rewrite int_digits_of; [done|].
  destruct (decide (n = 0%N)) as [->|Hn]; [done|].
  pose proof (N.log2_spec n ltac:(lia)) as [_ Hlt].
  eapply N.lt_le_trans; [exact Hlt|].
  replace (N.of_nat (S (N.to_nat (N.log2 n)))) with (N.succ (N.log2 n)) by lia.
  apply N.pow_le_mono_l. lia.
Qed.
End IntRound.

Lemma digit_not_space c : is_digit c = true -> int_isspace c = false.
Proof.
  unfold is_digit, int_isspace, isspace.
  intros [H1%N.leb_le H2%N.leb_le]%andb_true_iff.
  repeat match goal with
         | |- context [(?a <=? ?b)%N] =>
             destruct (N.leb_spec a b); try lia
         | |- context [(?a =? ?b)%N] =>
             destruct (N.eqb_spec a b); try lia
         end; done.
Qed.

Lemma lstrip_by_head f c s : f c = false -> lstrip_by f (c :: s) = c :: s.
Proof. intros Hc. simpl. by rewrite Hc. Qed.

Lemma rstrip_by_last f s c : f c = false -> rstrip_by f (s ++ [c]) = s ++ [c].
Proof.
  intros Hc. unfold rstrip_by. rewrite rev_app_distr. simpl. rewrite Hc.
  simpl. by rewrite rev_involutive.
Qed.

Lemma str_of_N_shape n :
  exists s c, str_of_N n = s ++ [c] /\ forallb is_digit (s ++ [c]) = true.
Proof.
  pose proof (digits_of_digits (S (N.to_nat (N.log2 n))) n [] eq_refl) as Hd.
  pose proof (digits_of_nonempty (N.to_nat (N.log2 n)) n []) as Hne.
  fold (str_of_N n) in Hd, Hne.
  destruct (exists_last Hne) as (s & c & Heq). exists s, c. by rewrite <- Heq.
Qed.

(** [int(str(z)) == z] *)
Lemma int_of_str_of_int `{UnicodeTables} z : int_of_str (str_of_int z) = Some z.
Proof.
  unfold int_of_str, str_of_int.
  destruct (str_of_N_shape (Z.abs_N z)) as (s & c & Hs & Hd).
  pose proof (int_digits_str_of_N (Z.abs_N z)) as Hint.
  assert (Hc : int_isspace c = false).
  { rewrite forallb_app in Hd. apply andb_true_iff in Hd as [_ Hc].
    simpl in Hc. apply andb_true_iff in Hc as [Hc _]. by apply digit_not_space. }
  destruct (z <? 0)%Z eqn:Ez.
  - rewrite lstrip_by_head by done.
    rewrite Hs, app_comm_cons, rstrip_by_last by done. simpl.
    rewrite <- Hs, Hint. simpl. f_equal. apply Z.ltb_lt in Ez. lia.
  - assert (Hhead : exists d s', s ++ [c] = d :: s' /\ is_digit d = true).
    { destruct s as [|d s']; simpl in *.
      - exists c, []. by apply andb_true_iff in Hd as [? _].
      - exists d, (s' ++ [c]). by apply andb_true_iff in Hd as [? _]. }
    destruct Hhead as (d & s' & Heq & Hdd).
    rewrite Hs, Heq, lstrip_by_head by by apply digit_not_space.
    rewrite <- Heq, rstrip_by_last by done. rewrite Heq.
    assert (Hd43 : (d =? 43)%N = false).
    { unfold is_digit in Hdd. apply andb_true_iff in Hdd as [H1%N.leb_le _].
      apply N.eqb_neq. lia. }
    assert (Hd45 : (d =? Chr.HYPHEN)%N = false).
    { unfold is_digit in Hdd. apply andb_true_iff in Hdd as [H1%N.leb_le _].
      apply N.eqb_neq. unfold Chr.HYPHEN. lia. }
    rewrite Hd43, Hd45, <- Heq, <- Hs, Hint. f_equal.
    apply Z.ltb_ge in Ez. lia.
Qed.

(** ** A written log read back *)

Lemma writerow_row f g fs :
  writerow (f :: g :: fs)
  = join [Chr.COMMA] (map csv_field (f :: g :: fs)) ++ [Chr.CR; Chr.LF].
Proof. by destruct f. Qed.

Lemma csv_field_one_line f : one_line f = true -> one_line (csv_field f) = true.
Proof.
  intros Hf. unfold csv_field. destruct (existsb csv_special f); [|done].
  change (one_line
            ([Chr.QUOTE]
             ++ flat_map (fun c => if (c =? Chr.QUOTE)%N then [c; c] else [c]) f
             ++ [Chr.QUOTE]) = true).
  rewrite !one_line_app. simpl. rewrite andb_true_r.
  induction f as [|c f IH]; [done|]. simpl in Hf.
  apply andb_true_iff in Hf as [Hc Hf].
  change (flat_map ?g (c :: f)) with (g c ++ flat_map g f). cbv beta.
  rewrite one_line_app, IH, andb_true_r by done.
  destruct (c =? Chr.QUOTE)%N; simpl; by rewrite Hc.
Qed.

Lemma join_one_line fs :
  forallb one_line fs = true ->
  one_line (join [Chr.COMMA] (map csv_field fs)) = true.
Proof.
  induction fs as [|f fs IH]; [done|]. simpl.
  intros [Hf Hfs]%andb_true_iff. apply csv_field_one_line in Hf.
  destruct (map csv_field fs) eqn:E; [done|].
  rewrite !one_line_app, Hf. simpl. by apply IH.
Qed.

Lemma str_of_int_chars z :
  forallb (fun c => is_digit c || (c =? Chr.HYPHEN)%N) (str_of_int z) = true.
Proof.
  assert (Hn : forall n,
    forallb (fun c => is_digit c || (c =? Chr.HYPHEN)%N) (str_of_N n) = true).
  { intros n. pose proof (digits_of_digits (S (N.to_nat (N.log2 n))) n [] eq_refl) as Hd.
    fold (str_of_N n) in Hd. rewrite forallb_forall in *.
    intros c Hc. by rewrite (Hd c Hc). }
  unfold str_of_int. destruct (z <? 0)%Z; simpl; by rewrite Hn.
Qed.

Lemma digit_or_hyphen_line s :
  forallb (fun c => is_digit c || (c =? Chr.HYPHEN)%N) s = true ->
  one_line s = true.
Proof.
  unfold one_line. rewrite !forallb_forall. intros Hs c Hc.
  specialize (Hs c Hc). unfold is_crlf, is_digit, Chr.HYPHEN, Chr.LF, Chr.CR in *.
  apply orb_true_iff in Hs as [[H1%N.leb_le _]%andb_true_iff | ->%N.eqb_eq]; [|done].
  apply negb_true_iff, orb_false_iff. split; apply N.eqb_neq; lia.
Qed.

Lemma str_of_int_one_line z : one_line (str_of_int z) = true.
Proof. apply digit_or_hyphen_line, str_of_int_chars. Qed.

(** The lines of a written log. *)
Lemma read_lines_rows l :
  forallb (fun s => forallb one_line (session_row s)) l = true ->
  read_lines (flat_map (fun s => writerow (session_row s)) l)
  = map (fun s => row_line (session_row s)) l.
Proof.
  induction l as [|s l IH]; [done|].
  intros Hsl. simpl in Hsl. apply andb_true_iff in Hsl as [Hs Hl].
  change (flat_map ?g (s :: l)) with (g s ++ flat_map g l). cbv beta.
  rewrite map_cons. unfold row_line at 1.
  unfold session_row at 1 2. rewrite writerow_row. fold (session_row s).
  rewrite <- app_assoc.
  change ([Chr.CR; Chr.LF] ++ ?x) with (Chr.CR :: Chr.LF :: x).
  rewrite read_lines_crlf by by apply join_one_line.
  f_equal. by apply IH.
Qed.

Lemma read_lines_log c lc total l :
  one_line c = true -> one_line lc = true ->
  forallb (fun s => forallb one_line (session_row s)) l = true ->
  read_lines (log_text c lc total l)
  = (py "# Created: " ++ c ++ [Chr.LF])
    :: (py "# Last changed: " ++ lc ++ [Chr.LF])
    :: (py "# Total time across all sessions (sec): " ++ str_of_int total ++ [Chr.LF])
    :: (py "# Columns: session_start, session_end, session_duration_sec, window_title"
        ++ [Chr.LF])
    :: row_line csv_header
    :: map (fun s => row_line (session_row s)) l.
Proof.
  intros Hc Hlc Hl. unfold log_text.
  repeat match goal with
         | |- context [?a ++ ?b ++ [Chr.LF] ++ ?rest] =>
             replace (a ++ b ++ [Chr.LF] ++ rest) with ((a ++ b) ++ Chr.LF :: rest)
               by (by rewrite <- app_assoc)
         end.
  rewrite read_lines_lf by (by rewrite one_line_app, Hc).
  rewrite read_lines_lf by (by rewrite one_line_app, Hlc).
  rewrite read_lines_lf by (by rewrite one_line_app, str_of_int_one_line).
  change (?a ++ [Chr.LF] ++ ?rest) with (a ++ Chr.LF :: rest).
  rewrite read_lines_lf by done.
  unfold csv_header at 1. rewrite writerow_row. fold csv_header.
  rewrite <- (app_assoc (join _ _)).
  change ([Chr.CR; Chr.LF] ++ ?x) with (Chr.CR :: Chr.LF :: x).
  rewrite read_lines_crlf by done.
  rewrite read_lines_rows by done.
  by rewrite <- !app_assoc.
Qed.

(** The value of a header line. *)
Lemma meta_value_line prefix stripped c :
  (forall x, lstrip_by isspace (prefix ++ x) = prefix ++ x) ->
  rstrip_by isspace prefix = stripped ->
  after_colon stripped = Ok [] ->
  (forall x, after_colon (prefix ++ x) = Ok (Chr.SPACE :: x)) ->
  clean_stamp c = true ->
  meta_value (prefix ++ c ++ [Chr.LF]) = Ok c.
Proof.
  intros Hl Hr Hempty Hcolon [Hline Htrim]%andb_true_iff.
  unfold meta_value, strip. rewrite Hl.
  rewrite rstrip_by_app, rstrip_by_app.
  change (rstrip_by isspace [Chr.LF]) with (@nil N).
  rewrite (trimmed_rstrip c Htrim).
  destruct c as [|a c'].
  - by rewrite Hr, Hempty.
  - rewrite Hcolon, bind_Ok. f_equal.
    change (lstrip_by isspace (Chr.SPACE :: a :: c'))
      with (lstrip_by isspace (a :: c')).
    by rewrite trimmed_lstrip, trimmed_rstrip.
Qed.

Lemma meta_value_created c :
  clean_stamp c = true -> meta_value (py "# Created: " ++ c ++ [Chr.LF]) = Ok c.
Proof. by apply (meta_value_line _ (py "# Created:")). Qed.

Lemma meta_value_last_changed c :
  clean_stamp c = true ->
  meta_value (py "# Last changed: " ++ c ++ [Chr.LF]) = Ok c.
Proof. by apply (meta_value_line _ (py "# Last changed:")). Qed.

(** The first pass over a written log finds both time stamps. *)
Lemma read_meta_log c lc total rows m :
  clean_stamp c = true -> clean_stamp lc = true ->
  read_meta
    ((py "# Created: " ++ c ++ [Chr.LF])
     :: (py "# Last changed: " ++ lc ++ [Chr.LF])
     :: (py "# Total time across all sessions (sec): " ++ str_of_int total ++ [Chr.LF])
     :: (py "# Columns: session_start, session_end, session_duration_sec, window_title"
         ++ [Chr.LF])
     :: row_line csv_header :: rows) m
  = Ok {| created := Some c; last_changed := Some lc |}.
Proof.
  intros Hc Hlc.
  change (read_meta (?l1 :: ?l2 :: ?l3 :: ?l4 :: ?l5 :: rows) m)
    with (v ← meta_value l1;
          w ← meta_value l2;
          Ok {| created := Some v; last_changed := Some w |}).
  by rewrite meta_value_created, meta_value_last_changed.
Qed.

Lemma for_each_row_skip {A} keep (body : list str -> A -> result A) r line rest acc :
  keep line = Ok false ->
  for_each_row keep body r (line :: rest) acc = for_each_row keep body r rest acc.
Proof. intros Hk. simpl. by rewrite Hk. Qed.

Lemma for_each_row_record {A} keep (body : list str -> A -> result A)
    r line rest acc row :
  keep line = Ok true ->
  parse_line r line = Ok {| state := START_RECORD; field := []; fields := row |} ->
  for_each_row keep body r (line :: rest) acc
  = acc' ← body row acc; for_each_row keep body reader_reset rest acc'.
Proof. intros Hk Hp. simpl. by rewrite Hk, Hp. Qed.

(** The line of a row of a clean session is no comment. *)
Lemma row_line_not_comment s :
  clean_session s = true -> not_comment (row_line (session_row s)) = Ok true.
Proof.
  unfold clean_session. intros [_ Hh]%andb_true_iff.
  unfold row_line, session_row. rewrite !map_cons, join_cons.
  unfold csv_field at 1. destruct (existsb csv_special (s_start s)); [done|].
  destruct (s_start s) as [|c start]; [done|].
  simpl in Hh. rewrite andb_true_r in Hh. simpl. f_equal.
  by rewrite N.eqb_sym.
Qed.

Lemma clean_session_fields s :
  clean_session s = true -> forallb one_line (session_row s) = true.
Proof.
  unfold clean_session. intros [[[H1 H2]%andb_true_iff H3]%andb_true_iff _]%andb_true_iff.
  simpl. by rewrite H1, H2, H3, str_of_int_one_line.
Qed.

Section Reload.
Context `{UnicodeTables}.

(** The row of a session gives the session back. *)
Lemma load_row_session s loaded :
  load_row (session_row s) (true, loaded) = Ok (true, loaded ++ [s]).
Proof.
  unfold load_row, session_row. simpl.
  change ([s_start s; s_end s; str_of_int (s_duration s); s_window_title s] !!! 2%nat)
    with (str_of_int (s_duration s)).
  rewrite int_of_str_of_int. simpl. by destruct s.
Qed.

(** The second pass over the rows of clean sessions. *)
Lemma for_each_row_sessions l : forall loaded,
  forallb clean_session l = true ->
  for_each_row not_comment load_row reader_reset
    (map (fun s => row_line (session_row s)) l) (true, loaded)
  = Ok (true, loaded ++ l).
Proof.
  induction l as [|s l IH]; intros loaded Hl.
  - simpl. by rewrite app_nil_r.
  - simpl in Hl. apply andb_true_iff in Hl as [Hs Hl]. rewrite map_cons.
    rewrite (for_each_row_record _ _ _ _ _ _ (session_row s));
      [|by apply row_line_not_comment|apply parse_written_row].
    rewrite load_row_session, bind_Ok, IH by done.
    by rewrite <- app_assoc.
Qed.

(** Loading a log that [save_session_log] wrote, for clean time stamps and
    sessions: the sessions are appended to the history of the project and
    the time stamps become its metadata; no clock is read. *)
Lemma load_file_written clock proj c lc total l t :
  clean_stamp c = true -> clean_stamp lc = true ->
  forallb clean_session l = true ->
  load_file clock (log_name proj) (log_text c lc total l) t
  = Ok {| session_active := session_active t;
          sessions :=
            match l with
            | [] => sessions t
            | _ => <[proj := sessions_of t proj ++ l]> (sessions t)
            end;
          log_meta :=
            <[proj := {| created := Some c; last_changed := Some lc |}]> (log_meta t);
          files := files t;
          ticks := ticks t |}.
Proof.
  intros Hc Hlc Hl. unfold load_file.
  assert (Hend : endswith (py "_log.csv") (log_name proj) = true).
  { unfold endswith, log_name. apply bool_decide_eq_true.
    rewrite length_app. replace (_ - _)%nat with (length proj) by (simpl; lia).
    by rewrite drop_app_length. }
  assert (Hproj : take (length (log_name proj) - 8) (log_name proj) = proj).
  { unfold log_name. rewrite length_app.
    replace (_ - _)%nat with (length proj) by (simpl; lia).
    by rewrite take_app_length. }
  rewrite Hend, Hproj.
  pose proof Hc as [Hc1 _]%andb_true_iff. pose proof Hlc as [Hlc1 _]%andb_true_iff.
  rewrite read_lines_log; [|done|done|].
  2:{ rewrite forallb_forall in *. intros s Hs. by apply clean_session_fields, Hl. }
  rewrite read_meta_log, bind_Ok by done. cbv beta iota zeta. simpl created.
  do 4 (rewrite for_each_row_skip by done).
  rewrite (for_each_row_record _ _ _ _ _ _ csv_header);
    [|done|apply parse_written_row].
  change (load_row csv_header (false, [])) with (Ok (true, @nil session)).
  rewrite bind_Ok, for_each_row_sessions, bind_Ok by done.
  done.
Qed.
End Reload.

(** ** Time stamps of the tracker are clean *)

Lemma zero_pad_chars width z :
  forallb (fun c => is_digit c || (c =? Chr.HYPHEN)%N) (zero_pad width z) = true.
Proof.
  unfold zero_pad. rewrite forallb_app, str_of_int_chars, andb_true_r.
  apply forallb_forall. intros c Hc%list_elem_of_In%elem_of_replicate.
  by destruct Hc as [-> _].
Qed.

Lemma zero_pad_nonempty width z : zero_pad width z <> [].
Proof.
  unfold zero_pad, str_of_int. intros Heq. apply app_eq_nil in Heq as [_ Heq].
  destruct (z <? 0)%Z; [done|].
  by apply (digits_of_nonempty (N.to_nat (N.log2 (Z.abs_N z))) (Z.abs_N z) []).
Qed.

Lemma digit_or_hyphen_not_space c :
  is_digit c || (c =? Chr.HYPHEN)%N = true -> isspace c = false.
Proof.
  unfold is_digit, isspace, Chr.HYPHEN.
  intros [[H1%N.leb_le H2%N.leb_le]%andb_true_iff | ->%N.eqb_eq]%orb_true_iff;
    [|done].
  repeat match goal with
         | |- context [(?a <=? ?b)%N] => destruct (N.leb_spec a b); try lia
         | |- context [(?a =? ?b)%N] => destruct (N.eqb_spec a b); try lia
         end; done.
Qed.

Lemma trimmed_ends a front middle back b :
  isspace a = false -> isspace b = false ->
  trimmed ((a :: front) ++ middle ++ back ++ [b]) = true.
Proof.
  intros Ha Hb.
  assert (Heq : (a :: front) ++ middle ++ back ++ [b]
                = a :: (front ++ middle ++ back) ++ [b])
    by (simpl; by rewrite <- !app_assoc).
  rewrite Heq. unfold trimmed. rewrite app_comm_cons, last_last.
  by rewrite Ha, Hb.
Qed.

Lemma strftime_clean d : clean_stamp (strftime d) = true.
Proof.
  unfold clean_stamp, strftime. apply andb_true_iff. split.
  - rewrite !one_line_app.
    by rewrite !(digit_or_hyphen_line _ (zero_pad_chars _ _)).
  - pose proof (zero_pad_chars 4 (year d)) as Hy.
    pose proof (zero_pad_nonempty 4 (year d)) as Hyn.
    pose proof (zero_pad_chars 2 (second d)) as Hs.
    pose proof (zero_pad_nonempty 2 (second d)) as Hsn.
    destruct (zero_pad 4 (year d)) as [|a front]; [done|].
    destruct (exists_last Hsn) as (back & b & Heq). rewrite Heq in *.
    simpl in Hy. apply andb_true_iff in Hy as [Ha _].
    rewrite forallb_app in Hs. apply andb_true_iff in Hs as [_ Hb].
    simpl in Hb. rewrite andb_true_r in Hb.
    rewrite !(app_assoc _ _ (back ++ [b])).
    rewrite <- !(app_assoc (a :: front)).
    apply trimmed_ends; by apply digit_or_hyphen_not_space.
Qed.

Lemma strftime_no_hash d : startswith [Chr.HASH] (strftime d) = false.
Proof.
  unfold strftime.
  pose proof (zero_pad_chars 4 (year d)) as Hy.
  pose proof (zero_pad_nonempty 4 (year d)) as Hyn.
  destruct (zero_pad 4 (year d)) as [|a front]; [done|].
  simpl in Hy. apply andb_true_iff in Hy as [Ha _].
  change (startswith [Chr.HASH] ((a :: front) ++ ?r))
    with ((Chr.HASH =? a)%N && true).
  rewrite andb_true_r. apply N.eqb_neq. unfold is_digit, Chr.HASH, Chr.HYPHEN in *.
  apply orb_true_iff in Ha as [[H1%N.leb_le _]%andb_true_iff | ->%N.eqb_eq];
    [lia | done].
Qed.

(** A session that the tracker closes is clean when its title is one
    line. *)
Lemma closed_session_clean clock a n :
  one_line (a_window_title a) = true ->
  clean_session (closed_session clock a n) = true.
Proof.
  intros Hw. unfold clean_session, closed_session.
  cbn [s_start s_end s_window_title].
  pose proof (strftime_clean (a_start a)) as [H1 _]%andb_true_iff.
  pose proof (strftime_clean (clock n)) as [H2 _]%andb_true_iff.
  by rewrite H1, H2, Hw, strftime_no_hash.
Qed.

Section ReloadTracker.
Context `{UnicodeTables}.
Context (clock clock' : nat -> datetime).

(** Idempotent reload, for a history that a log gives back: the log that
    [save_session_log] writes holds the sum of the durations and one row for
    each session; a tracker started on it has the same ordered session list
    and the same creation stamp; and saving again writes the same creation
    stamp, total and rows (only the stamp of the last change can differ). *)
Theorem reload_gives_history_back proj t :
  clean_history proj t = true ->
  let l := sessions_of t proj in
  exists c lc lc' t2,
    dict_get (log_name proj) (files (save_session_log clock proj t))
    = Some (log_text c lc (total_duration l) l)
    /\ new_tracker clock' [(log_name proj, log_text c lc (total_duration l) l)]
       = Ok t2
    /\ sessions_of t2 proj = l
    /\ log_meta t2 !! proj = Some {| created := Some c; last_changed := Some lc |}
    /\ dict_get (log_name proj) (files (save_session_log clock' proj t2))
       = Some (log_text c lc' (total_duration l) l).
Proof.
  intros Hclean. unfold clean_history in Hclean. intros l.
  destruct (sessions_of t proj) as [|first rest] eqn:Hl; [done|].
  apply andb_true_iff in Hclean as [Hsessions Hcreated].
  set (c := created_or_start proj first t) in *.
  set (lc := strftime (clock (ticks t))).
  exists c, lc, (strftime (clock' 0)).
  assert (Hload : new_tracker clock' [(log_name proj, log_text c lc (total_duration l) l)]
    = Ok {| session_active := [];
            sessions := <[proj := l]> ∅;
            log_meta := <[proj := {| created := Some c; last_changed := Some lc |}]> ∅;
            files := [(log_name proj, log_text c lc (total_duration l) l)];
            ticks := 0 |}).
  { unfold new_tracker, load_existing_sessions, load_files, files.
    rewrite load_file_written; [done | done | apply strftime_clean | done]. }
  eexists. split_and!.
  - unfold save_session_log. rewrite Hl. simpl. by rewrite dict_get_set_eq.
  - exact Hload.
  - unfold sessions_of. simpl. by rewrite lookup_insert_eq.
  - simpl. by rewrite lookup_insert_eq.
  - unfold save_session_log, sessions_of. simpl. rewrite lookup_insert_eq. simpl.
    unfold created_or_start. simpl. rewrite lookup_insert_eq. simpl.
    rewrite decide_True by done. simpl. by rewrite decide_True.
Qed.
End ReloadTracker.

Lemma reload_gives_history_back_witness :
  let l := sessions_of ProjA_history (py "ProjA") in
  exists c lc lc' t2,
    dict_get (log_name (py "ProjA"))
      (files (save_session_log scenario_clock (py "ProjA") ProjA_history))
    = Some (log_text c lc (total_duration l) l)
    /\ new_tracker scenario_clock
         [(log_name (py "ProjA"), log_text c lc (total_duration l) l)] = Ok t2
    /\ sessions_of t2 (py "ProjA") = l
    /\ log_meta t2 !! py "ProjA"
       = Some {| created := Some c; last_changed := Some lc |}
    /\ dict_get (log_name (py "ProjA"))
         (files (save_session_log scenario_clock (py "ProjA") t2))
       = Some (log_text c lc' (total_duration l) l).
Proof.
  apply (reload_gives_history_back scenario_clock scenario_clock).
  vm_compute. reflexivity.
Defined.

(** ** The reader of the visualizer never raises *)

Lemma universal_newlines_cons c s :
  universal_newlines (c :: s)
  = if (c =? Chr.CR)%N
    then Chr.LF :: match s with
                   | c' :: s'' =>
                       if (c' =? Chr.LF)%N then universal_newlines s''
                       else universal_newlines s
                   | [] => []
                   end
    else c :: universal_newlines s.
Proof. by destruct s. Qed.

Lemma universal_newlines_no_cr s :
  forallb (fun c => negb (c =? Chr.CR)%N) (universal_newlines s) = true.
Proof.
  assert (Hlen : forall n s, (length s <= n)%nat ->
            forallb (fun c => negb (c =? Chr.CR)%N) (universal_newlines s) = true).
  { clear s. induction n as [|n IH]; intros s Hs.
    - destruct s; [done | simpl in Hs; lia].
    - destruct s as [|c s]; [done|]. rewrite universal_newlines_cons.
      simpl in Hs. destruct (c =? Chr.CR)%N eqn:Ec.
      + change (forallb ?f (Chr.LF :: ?x)) with (forallb f x).
        destruct s as [|c' s']; [done|]. simpl in Hs.
        destruct (c' =? Chr.LF)%N; apply IH; simpl; lia.
      + change (forallb ?f (c :: ?x)) with (f c && forallb f x). cbv beta.
        rewrite Ec. simpl. apply IH. lia. }
  by apply (Hlen (length s)).
Qed.

Lemma line_ok_one_line x : one_line x = true -> line_ok x = true.
Proof.
  unfold one_line. induction x as [|c x IH]; [done|]. simpl.
  intros [Hc Hx]%andb_true_iff. destruct x as [|c' x'].
  - unfold is_crlf in Hc. by apply negb_true_iff, orb_false_iff in Hc as [_ ->].
  - by rewrite Hc, IH.
Qed.

Lemma line_ok_snoc x c :
  one_line x = true -> (c =? Chr.CR)%N = false -> line_ok (x ++ [c]) = true.
Proof.
  unfold one_line. intros Hx Hc. induction x as [|a x IH].
  - simpl. by rewrite Hc.
  - simpl in Hx. apply andb_true_iff in Hx as [Ha Hx]. specialize (IH Hx).
    change ((a :: x) ++ [c]) with (a :: (x ++ [c])).
    destruct (x ++ [c]) as [|b rest] eqn:E; [by destruct x|].
    change (line_ok (a :: b :: rest)) with (negb (is_crlf a) && line_ok (b :: rest)).
    by rewrite Ha, IH.
Qed.

Lemma lines_from_ok s : forall cur,
  one_line cur = true ->
  forallb (fun c => negb (c =? Chr.CR)%N) s = true ->
  forallb line_ok (lines_from cur s) = true.
Proof.
  induction s as [|c s IH]; intros cur Hcur Hs; simpl.
  - destruct cur as [|a cur]; [done|].
    change (line_ok (a :: cur) && true = true).
    by rewrite line_ok_one_line.
  - simpl in Hs. apply andb_true_iff in Hs as [Hc Hs].
    apply negb_true_iff in Hc.
    destruct (c =? Chr.LF)%N eqn:El.
    + change (line_ok (cur ++ [c]) && forallb line_ok (lines_from [] s) = true).
      rewrite line_ok_snoc by done. by apply IH.
    + apply IH; [|done]. rewrite one_line_app, Hcur. simpl.
      unfold is_crlf. by rewrite El, Hc.
Qed.

Lemma read_lines_ok content : forallb line_ok (read_lines content) = true.
Proof. apply lines_from_ok; [done | apply universal_newlines_no_cr]. Qed.

Lemma step_steady r c :
  steady r = true ->
  exists r', parse_process_char r (Some c) = Ok r'
             /\ (is_crlf c = false -> steady r' = true).
Proof.
  unfold steady, parse_process_char. intros Hr.
  destruct (state r); try done;
    destruct (is_crlf c) eqn:Ecr, (c =? Chr.QUOTE)%N, (c =? Chr.COMMA)%N;
    eexists; split; try reflexivity; done.
Qed.

Lemma step_eol r :
  exists r', parse_process_char r None = Ok r' /\ steady r' = true.
Proof.
  unfold steady, parse_process_char.
  destruct (state r) eqn:E; eexists; (split; [reflexivity|]); simpl; by rewrite ?E.
Qed.

Lemma parse_chars_ok line : forall r,
  line_ok line = true -> steady r = true ->
  exists r', parse_chars r line = Ok r'.
Proof.
  induction line as [|c line IH]; intros r Hline Hr; [by exists r|].
  destruct (step_steady r c Hr) as (r1 & Hstep & Hst).
  rewrite parse_chars_cons, Hstep, bind_Ok.
  destruct line as [|c' line']; [by exists r1|].
  simpl in Hline. apply andb_true_iff in Hline as [Hc Hline].
  apply negb_true_iff in Hc. apply IH; auto.
Qed.

Lemma parse_line_ok line r :
  line_ok line = true -> steady r = true ->
  exists r', parse_line r line = Ok r' /\ steady r' = true.
Proof.
  intros Hline Hr. unfold parse_line.
  destruct (parse_chars_ok line r Hline Hr) as [r1 ->]. rewrite bind_Ok.
  apply step_eol.
Qed.

(** With a filter and a body that do not raise, the loop over the rows of
    a text file does not raise. *)
Lemma for_each_row_total {A} keep (body : list str -> A -> result A) lines :
  (forall line, exists k, keep line = Ok k) ->
  (forall row acc, exists acc', body row acc = Ok acc') ->
  forallb line_ok lines = true ->
  forall r acc, steady r = true ->
  exists acc', for_each_row keep body r lines acc = Ok acc'.
Proof.
  intros Hkeep Hbody. induction lines as [|line lines IH]; intros Hlines r acc Hr.
  - simpl. destruct (record_pending r); [apply Hbody | by exists acc].
  - simpl in Hlines. apply andb_true_iff in Hlines as [Hline Hlines].
    simpl. destruct (Hkeep line) as [[] ->]; rewrite bind_Ok; [|by apply IH].
    destruct (parse_line_ok line r Hline Hr) as (r1 & -> & Hr1). rewrite bind_Ok.
    destruct (at_record_start r1); [|by apply IH].
    destruct (Hbody (fields r1) acc) as [acc1 ->]. rewrite bind_Ok.
    by apply IH.
Qed.

Section VisualizerTotal.
Context `{UnicodeTables}.
Context (strptime : str -> option datetime).

Lemma chart_row_total row acc : exists acc', chart_row strptime row acc = Ok acc'.
Proof.
  unfold chart_row. destruct acc as [[[names|] sessions] total]; [|by eexists].
  destruct (bool_decide (row = [])); [by eexists|].
  destruct (parse_chart_row strptime names row); by eexists.
Qed.

Lemma read_log_total content : exists data, read_log strptime content = Ok data.
Proof.
  unfold read_log.
  destruct (for_each_row_total
              (fun line => Ok (negb (startswith (py "#") line)))
              (chart_row strptime) (read_lines content)
              ltac:(by eexists) chart_row_total (read_lines_ok content)
              reader_reset (None, [], 0%Z) eq_refl) as [[[names sessions] total] ->].
  by eexists.
Qed.

(** [read_project_logs] returns for every log folder: a row that fails to
    parse is passed over inside the loop and never ends the reading. *)
Theorem visualizer_never_aborts dir :
  exists project_data, read_project_logs strptime dir = Ok project_data.
Proof.
  induction dir as [|[filename content] dir [data IH]]; [by eexists|].
  simpl. destruct (endswith _ filename); [|by eexists].
  destruct (read_log_total content) as [[sessions total] ->].
  rewrite bind_Ok, IH, bind_Ok. by eexists.
Qed.
End VisualizerTotal.

(** C1: the loader of the tracker does not skip a row whose duration is not
    an integer.  On a folder whose only log has one such row among valid
    ones, creating the tracker raises [ValueError], for every clock and
    every Unicode table: the startup is aborted and no row is loaded. *)
Theorem corrupt_row_aborts_startup `{UnicodeTables} (clock : nat -> datetime) :
  new_tracker clock [(log_name (py "ProjA"), corrupt_log)] = Raise ValueError.
Proof.
  do 2 eval_with_ints @int_of_str_ascii. reflexivity.
Qed.

(** The reader of the visualizer, on the same folder, skips the corrupt row
    and keeps the two valid ones with their total, whatever timestamps
    [strptime] accepts among those of the valid rows. *)
Lemma visualizer_skips_corrupt_row `{UnicodeTables}
    (strptime : str -> option datetime) d1 d2 d3 d4 :
  strptime (py "2024-01-01 09:00:00") = Some d1 ->
  strptime (py "2024-01-01 09:01:00") = Some d2 ->
  strptime (py "2024-01-01 11:00:00") = Some d3 ->
  strptime (py "2024-01-01 11:30:00") = Some d4 ->
  read_project_logs strptime [(log_name (py "ProjA"), corrupt_log)]
  = Ok [ (py "ProjA",
          ([ {| c_start := d1; c_end := d2; c_duration := 60 |};
             {| c_start := d3; c_end := d4; c_duration := 1800 |} ],
           1860%Z)) ].
Proof.
  intros H1 H2 H3 H4. lazy in H1, H2, H3, H4.
  remember (strptime (py "2024-01-01 10:00:00")) as o5 eqn:E5.
  remember (strptime (py "2024-01-01 10:30:00")) as o6 eqn:E6.
  lazy in E5, E6.
  do 3 (eval_with_ints @int_of_str_ascii; rewrite ?H1, ?H2, ?H3, ?H4, <- ?E5, <- ?E6).
  destruct o5, o6; do 3 (eval_with_ints @int_of_str_ascii; rewrite ?H3, ?H4); reflexivity.
Qed.

(** C3: a reload does not give back a window title that holds a carriage
    return.  The window [title_with_cr] is seen in one cycle and gone in the
    next, so its session is closed and its log written; a tracker started on
    that folder loads the session with a line feed in place of the carriage
    return, so the session list is not the one that was persisted. *)
Theorem reload_alters_title_with_carriage_return :
  exists t1 t2,
    run scenario_clock as_listed
      [ Cycle (Enumerated [ {| visible := true; window_text := title_with_cr |} ]);
        Cycle (Enumerated []) ] fresh_tracker = Looping t1
    /\ sessions_of t1 (py "ProjA")
       = [ {| s_start := py "2024-01-01 09:00:00";
              s_end := py "2024-01-01 09:01:00";
              s_duration := 60;
              s_window_title := title_with_cr |} ]
    /\ new_tracker scenario_clock (files t1) = Ok t2
    /\ sessions_of t2 (py "ProjA")
       = [ {| s_start := py "2024-01-01 09:00:00";
              s_end := py "2024-01-01 09:01:00";
              s_duration := 60;
              s_window_title := py "ProjA" ++ [Chr.LF] ++ py " - Blender" |} ]
    /\ sessions_of t2 (py "ProjA") <> sessions_of t1 (py "ProjA").
Proof.
  eexists _, _. split; [vm_compute; reflexivity|].
  split; [vm_compute; reflexivity|].
  split; [vm_compute; reflexivity|].
  split; [vm_compute; reflexivity|].
  vm_compute. discriminate.
Qed.

(** A line feed followed by a hash in a title does more harm: the line that
    starts with the hash is dropped as a comment, the quoted field swallows
    the next row, and the reloaded history has one session instead of two
    and a total of 60 seconds instead of 90. *)
Lemma reload_loses_row_after_hash_line :
  let t1 :=
    save_session_log scenario_clock (py "ProjA")
      {| session_active := [];
         sessions := {[ py "ProjA" := history_with_hash_line ]};
         log_meta := ∅; files := []; ticks := 0 |} in
  total_duration (sessions_of t1 (py "ProjA")) = 90%Z
  /\ exists t2,
       new_tracker scenario_clock (files t1) = Ok t2
       /\ length (sessions_of t2 (py "ProjA")) = 1%nat
       /\ total_duration (sessions_of t2 (py "ProjA")) = 60%Z.
Proof.
  split; [vm_compute; reflexivity|].
  eexists. split; [vm_compute; reflexivity|].
  split; vm_compute; reflexivity.
Qed.

(** ** Cycles and the interrupt on a log folder that can refuse a write *)












Section DiskLemmas.
Context `{UnicodeTables}.
Context (clock : nat -> datetime).
Context (iteration_order : nat -> list str -> list str).
Context (writable : str -> bool).
Hypothesis iteration_order_perm :
  forall n l, iteration_order n l ≡ₚ l.








End DiskLemmas.





(** ** The project of a title *)

Lemma lstrip_by_first f s c r : lstrip_by f s = c :: r -> f c = false.
Proof.
  induction s as [|c' s IH]; simpl; [done|].
  destruct (f c') eqn:E; [done|]. by intros [= <- _].
Qed.

Lemma lstrip_by_all f m x :
  forallb f m = true -> lstrip_by f (m ++ x) = lstrip_by f x.
Proof.
  induction m as [|c m IH]; simpl; [done|].
  intros [-> Hm]%andb_true_iff. auto.
Qed.

Lemma strip_app_spaces x v : forallb isspace v = true -> strip (x ++ v) = strip x.
Proof.
  intros Hv. unfold strip. rewrite lstrip_by_app.
  assert (Hl : lstrip_by isspace v = []).
  { rewrite <- (app_nil_r v). by rewrite lstrip_by_all. }
  assert (Hr : rstrip_by isspace v = []) by by apply rstrip_by_all.
  destruct (lstrip_by isspace x) as [|c r] eqn:E.
  - rewrite Hl. done.
  - by rewrite rstrip_by_app, Hr.
Qed.

(** The pattern of the source on a title with text before its first dash:
    the group is that text, up to white space at its end. *)
Lemma search_project_split t d r :
  t <> [] ->
  forallb (fun c => negb (is_dash c)) t = true ->
  forallb (fun c => negb (c =? Chr.LF)%N) t = true ->
  is_dash d = true ->
  exists g, search_project (t ++ d :: r) = Some g /\ strip g = strip t.
Proof.
  destruct t as [|c t]; [done|]. intros _ Hnd Hnl Hd.
  simpl in Hnd, Hnl.
  apply andb_true_iff in Hnd as [_ Hnd]. apply andb_true_iff in Hnl as [Hc Hnl].
  apply negb_true_iff in Hc.
  destruct (rstrip_by_split isspace t) as (v & Ht & Hv).
  set (u := rstrip_by isspace t) in *.
  exists (c :: u). split.
  - simpl. rewrite Hc, Ht, <- app_assoc.
    rewrite Ht in Hnd, Hnl. apply forallb_app_l in Hnd, Hnl.
    by rewrite lazy_group_stops; [ | apply rstrip_by_idemp | ..].
  - rewrite Ht. symmetry. apply (strip_app_spaces (c :: u) v Hv).
Qed.

(** X3: when a title has text before its first dash (hyphen, en dash or
    em dash) and that text holds no line feed, the project is read from
    that text alone: which dash it is, and what follows it (application,
    version, document state), make no difference. *)
Theorem project_is_read_before_first_dash t d r :
  t <> [] ->
  forallb (fun c => negb (is_dash c)) t = true ->
  forallb (fun c => negb (c =? Chr.LF)%N) t = true ->
  is_dash d = true ->
  extract_project_name (t ++ d :: r)
  = let name := sanitize (lstrip_star_space (strip t)) in
    if (length name <? 2)%nat then Unnamed_Project else name.
Proof.
  intros Ht Hnd Hnl Hd.
  destruct (search_project_split t d r Ht Hnd Hnl Hd) as (g & Hg & Hstrip).
  unfold extract_project_name, project_candidate. by rewrite Hg, Hstrip.
Qed.

Lemma project_is_read_before_first_dash_witness :
  extract_project_name (py "  My House " ++ Chr.EN_DASH :: py " Blender 4.5")
  = py "My House".
Proof.
  apply (project_is_read_before_first_dash (py "  My House ") Chr.EN_DASH
           (py " Blender 4.5")); [done | reflexivity..].
Defined.

(** X1: the name returned for any title has at least two characters, and
    it starts neither with a space nor with a star. *)
Theorem project_name_shape title :
  2 <= length (extract_project_name title)
  /\ forall c rest,
       extract_project_name title = c :: rest ->
       c <> Chr.SPACE /\ c <> Chr.STAR.
Proof.
  unfold extract_project_name.
  destruct (length (project_candidate title) <? 2)%nat eqn:E.
  - split; [vm_compute; lia|]. intros c rest [= <- _]. done.
  - apply Nat.ltb_ge in E. split; [done|]. intros c rest.
    unfold project_candidate, sanitize, lstrip_star_space.
    destruct (lstrip_by _ _) as [|c0 r0] eqn:El; [done|].
    apply lstrip_by_first in El. apply orb_false_iff in El as [Hstar Hspace].
    apply N.eqb_neq in Hstar, Hspace. simpl. intros [= <- _].
    destruct (illegal c0) eqn:Ei; [done|]. done.
Qed.

Lemma before_dash_marker m title :
  forallb (fun c => (c =? Chr.STAR)%N || (c =? Chr.SPACE)%N) m = true ->
  before_dash (m ++ title) = app m <$> before_dash title.
Proof.
  induction m as [|c m IH]; simpl.
  - intros _. by destruct (before_dash title).
  - intros [Hc Hm]%andb_true_iff. rewrite IH by done.
    assert (is_dash c = false) as ->.
    { apply orb_true_iff in Hc as [->%N.eqb_eq | ->%N.eqb_eq]; reflexivity. }
    by destruct (before_dash title).
Qed.

Lemma lstrip_by_forallb (f g : N -> bool) s :
  forallb g s = true -> forallb g (lstrip_by f s) = true.
Proof.
  induction s as [|c s IH]; [done|]. intros Hs. simpl.
  destruct (f c); [|done]. simpl in Hs. apply andb_true_iff in Hs as [_ Hs]. auto.
Qed.

(** X2: the mark of a modified document does not make another project: a
    title and the same title behind stars and spaces classify alike, when
    the title starts with neither a dash nor white space and either has a
    separator (with no line feed before it) or is short enough for the cut
    at 50 characters to keep all of it. *)
Theorem modified_mark_keeps_project m title :
  forallb (fun c => (c =? Chr.STAR)%N || (c =? Chr.SPACE)%N) m = true ->
  plain_start title = true ->
  one_line_prefix title = true ->
  (before_dash title = None -> length (m ++ title) <= 50) ->
  extract_project_name (m ++ title) = extract_project_name title.
Proof.
  intros Hm Hp Hone Hlen.
  destruct m as [|c0 m']; [done|].
  assert (Hmark : forall c, In c (c0 :: m') ->
                            is_dash c = false /\ (c =? Chr.LF)%N = false).
  { intros c Hc. apply (proj1 (forallb_forall _ _) Hm) in Hc.
    apply orb_true_iff in Hc as [->%N.eqb_eq | ->%N.eqb_eq]; by split. }
  assert (Hnd : forallb (fun c => negb (is_dash c)) m' = true).
  { apply forallb_forall. intros c Hc. apply negb_true_iff, Hmark. by right. }
  assert (Hnl : forallb (fun c => negb (c =? Chr.LF)%N) m' = true).
  { apply forallb_forall. intros c Hc. apply negb_true_iff, Hmark. by right. }
  destruct (Hmark c0) as [_ Hc0]; [by left|].
  unfold extract_project_name. rewrite (candidate_plain title) by done.
  enough (project_candidate ((c0 :: m') ++ title)
          = sanitize (lstrip_star_space (text_before_separator title)))
    as -> by done.
  unfold project_candidate, text_before_separator, one_line_prefix in *.
  change (search_project ((c0 :: m') ++ title))
    with (if (c0 =? Chr.LF)%N then None else lazy_group [c0] (m' ++ title)).
  rewrite Hc0.
  destruct (before_dash title) as [t|] eqn:Et.
  - apply before_dash_Some in Et as (d & r & -> & Hd & Htnd).
    destruct t as [|c t].
    { simpl in Hp. by rewrite Hd in Hp. }
    simpl in Hp. apply andb_true_iff in Hp as [_ Hc]. apply negb_true_iff in Hc.
    destruct (rstrip_by_split isspace (c :: t)) as (v & Ht & Hv).
    assert (Hu : rstrip_by isspace (c :: t) = c :: rstrip_by isspace t).
    { rewrite rstrip_by_cons. destruct (rstrip_by isspace t); [by rewrite Hc|done]. }
    assert (Hfix : rstrip_by isspace (c :: rstrip_by isspace t)
                   = c :: rstrip_by isspace t).
    { rewrite <- Hu. apply rstrip_by_idemp. }
    rewrite Hu in Ht, Hone |- *. set (u := rstrip_by isspace t) in *.
    assert (Hund : forallb (fun c => negb (is_dash c)) (c :: u) = true).
    { rewrite Ht in Htnd. by apply forallb_app_l in Htnd. }
    replace (m' ++ (c :: t) ++ d :: r) with ((m' ++ c :: u) ++ v ++ d :: r)
      by (by rewrite Ht, <- !app_assoc).
    rewrite lazy_group_stops; [| | | |done|done].
    + f_equal. change ([c0] ++ m' ++ c :: u) with ((c0 :: m') ++ c :: u).
      unfold strip. rewrite lstrip_by_app.
      pose proof (lstrip_by_forallb isspace _ _ Hm) as Hm2.
      destruct (lstrip_by isspace (c0 :: m')) as [|c1 m2].
      * cbn [lstrip_by]. rewrite Hc, Hfix. done.
      * rewrite rstrip_by_app, Hfix. unfold lstrip_star_space.
        by rewrite lstrip_by_all.
    + by rewrite rstrip_by_app, Hfix.
    + by rewrite forallb_app, Hnd.
    + by rewrite forallb_app, Hnl.
  - specialize (Hlen eq_refl).
    rewrite lazy_group_no_dash
      by (by rewrite forallb_app, Hnd, (before_dash_None _ Et)).
    rewrite !take_ge; [| rewrite length_app in Hlen; lia | done].
    unfold lstrip_star_space. by rewrite lstrip_by_all.
Qed.

Lemma modified_mark_keeps_project_witness :
  extract_project_name (py " * " ++ py "PROJECTX - Blender")
  = extract_project_name (py "PROJECTX - Blender").
Proof.
  apply (modified_mark_keeps_project (py " * ") (py "PROJECTX - Blender"));
    [reflexivity.. | discriminate].
Defined.

(** ** The applications that are tracked *)

Lemma find_existsb_false {A} (f : A -> bool) l :
  existsb f l = false -> List.find f l = None.
Proof.
  induction l as [|x l IH]; simpl; [done|].
  intros [-> Hl]%orb_false_iff. auto.
Qed.

Lemma startswith_app p s : startswith p (p ++ s) = true.
Proof. induction p as [|c p IH]; simpl; [done|]. by rewrite N.eqb_refl. Qed.

Lemma contains_eq p s :
  contains p s
  = startswith p s || match s with [] => false | _ :: s' => contains p s' end.
Proof. by destruct s. Qed.

Lemma contains_cons p c s :
  contains p (c :: s) = startswith p (c :: s) || contains p s.
Proof. done. Qed.

Lemma contains_infix p a b : contains p (a ++ p ++ b) = true.
Proof.
  induction a as [|c a IH].
  - change ([] ++ p ++ b) with (p ++ b). by rewrite contains_eq, startswith_app.
  - change ((c :: a) ++ p ++ b) with (c :: (a ++ p ++ b)).
    rewrite contains_cons, IH. apply orb_true_r.
Qed.

Lemma last_cons_nonempty {A} (x d : A) l : l <> [] -> List.last (x :: l) d = List.last l d.
Proof. by destruct l. Qed.

Lemma split_aux_nonempty sep s : forall skip cur, split_aux sep skip cur s <> [].
Proof.
  induction s as [|c s IH]; intros skip cur; simpl; [done|].
  destruct skip; [|apply IH]. destruct (startswith sep (c :: s)); [done|apply IH].
Qed.

(** The last part of a split is an end of the text. *)
Lemma split_aux_last sep s : forall skip cur,
  exists pre, cur ++ drop skip s = pre ++ List.last (split_aux sep skip cur s) [].
Proof.
  induction s as [|c s IH]; intros skip cur.
  - exists []. by rewrite drop_nil, app_nil_r.
  - destruct skip as [|k].
    + cbn [split_aux]. destruct (startswith sep (c :: s)).
      * rewrite last_cons_nonempty by apply split_aux_nonempty.
        destruct (IH (length sep - 1) []) as (pre & Hpre).
        exists (cur ++ c :: take (length sep - 1) s ++ pre).
        rewrite <- !app_assoc. simpl. rewrite <- !app_assoc, <- Hpre. simpl.
        by rewrite take_drop.
      * destruct (IH 0 (cur ++ [c])) as (pre & Hpre). exists pre.
        rewrite <- Hpre. by rewrite <- app_assoc.
    + cbn [split_aux]. apply IH.
Qed.

Lemma ascii_only_app a b : ascii_only (a ++ b) = ascii_only a && ascii_only b.
Proof. apply forallb_app. Qed.

Section TrackedApplications.
Context `{UnicodeTables}.
Hypothesis lower_ascii : lower_on_ascii.

(** X4: a title whose lower-case form holds the keyword of a tracked
    application (blender, archicad, revit, autocad, sketchup, rhino,
    3ds max, lumion, enscape, photoshop, illustrator) anywhere is tracked,
    whatever else it holds: these keywords come first in the table, so a
    browser tab that names Blender counts as Blender. *)
Theorem tracked_keyword_makes_tracked title k :
  k ∈ tracked_keywords ->
  contains k (lower title) = true ->
  is_tracked title = true.
Proof.
  intros Hk Hc. unfold is_tracked, get_app_name_from_title.
  set (s := lower title) in *.
  assert (Hany : existsb (fun k => contains k s) tracked_keywords = true).
  { apply existsb_exists. exists k. split; [by apply list_elem_of_In|done]. }
  clear Hk Hc. unfold tracked_keywords in Hany. unfold app_keywords.
  cbn [existsb List.find fst snd] in *.
  repeat match goal with
         | |- context [if contains ?k s then _ else _] =>
             destruct (contains k s) eqn:?;
             [rewrite lower_ascii by reflexivity; reflexivity|]
         end;
    try discriminate Hany.
Qed.

(** X5: a title whose lower-case form holds none of those keywords but one
    of chrome, firefox, excel, word and powerpoint is not tracked, even
    when it ends with the name of a tracked application. *)
Theorem other_keyword_makes_untracked title k :
  existsb (fun k => contains k (lower title)) tracked_keywords = false ->
  k ∈ other_keywords ->
  contains k (lower title) = true ->
  is_tracked title = false.
Proof.
  intros Hnone Hk Hc. unfold is_tracked, get_app_name_from_title.
  set (s := lower title) in *.
  assert (Hany : existsb (fun k => contains k s) other_keywords = true).
  { apply existsb_exists. exists k. split; [by apply list_elem_of_In|done]. }
  clear Hk Hc. unfold tracked_keywords in Hnone. unfold other_keywords in Hany.
  unfold app_keywords. cbn [existsb List.find fst snd] in *.
  repeat match type of Hnone with
         | (contains ?k s || _) = false =>
             apply orb_false_iff in Hnone as [-> Hnone]
         end.
  repeat match goal with
         | |- context [if contains ?k s then _ else _] =>
             destruct (contains k s) eqn:?;
             [rewrite lower_ascii by reflexivity; reflexivity|]
         end;
    try discriminate Hany.
Qed.
(** X6: a title of ASCII characters whose lower-case form holds no
    keyword of the table is tracked only through its last part: it is
    tracked exactly when it has a separator [ - ] and the text after the
    last one (cut at 30 characters) is, in lower case, [3dsmax] or
    [vectorworks].  The ten other names of the tracked set are keywords, so
    they cannot be met this way. *)
Theorem tracked_without_keyword title :
  ascii_only title = true ->
  existsb (fun kv => contains kv.1 (lower title)) app_keywords = false ->
  let parts := split (py " - ") title in
  is_tracked title = true
  <-> 1 < length parts
      /\ lower (take 30 (List.last parts [])) ∈ [py "3dsmax"; py "vectorworks"].
Proof.
  intros Hascii Hnone parts. unfold is_tracked, get_app_name_from_title.
  rewrite (find_existsb_false _ _ Hnone). fold parts.
  destruct (1 <? length parts)%nat eqn:Elen.
  - apply Nat.ltb_lt in Elen. rewrite bool_decide_eq_true.
    set (r := take 30 (List.last parts [])).
    split; [|intros [_ Hr]].
    2:{ apply elem_of_cons in Hr as [->|Hr]; [repeat constructor|].
        apply elem_of_cons in Hr as [->|Hr]; [repeat constructor|].
        by apply elem_of_nil in Hr. }
    intros Hr. split; [done|].
    destruct (split_aux_last (py " - ") title 0 []) as (pre & Hpre).
    simpl in Hpre. rewrite drop_0 in Hpre.
    fold (split (py " - ") title) in Hpre. fold parts in Hpre.
    rewrite <- (take_drop 30 (List.last parts [])) in Hpre. fold r in Hpre.
    assert (Hr_ascii : ascii_only r = true).
    { rewrite Hpre, !ascii_only_app in Hascii.
      by apply andb_true_iff in Hascii as [_ [? _]%andb_true_iff]. }
    assert (Hin : contains (lower r) (lower title) = true).
    { rewrite (lower_ascii title Hascii), (lower_ascii r Hr_ascii).
      rewrite Hpre at 1. rewrite !map_app. apply contains_infix. }
    unfold app_keywords in Hnone. cbn [existsb fst] in Hnone.
    unfold tracked_apps in Hr.
    repeat match type of Hnone with
           | (_ || _) = false => apply orb_false_iff in Hnone as [? Hnone]
           end.
    repeat (apply elem_of_cons in Hr as [Hr|Hr];
            [first [ solve [rewrite Hr; repeat constructor]
                   | rewrite Hr in Hin; congruence ] |]).
    by apply elem_of_nil in Hr.
  - apply Nat.ltb_ge in Elen. split; [|lia].
    rewrite lower_ascii by reflexivity. intros Hu. vm_compute in Hu. done.
Qed.
End TrackedApplications.

Lemma ascii_tables_lower : lower_on_ascii (H := ascii_tables).
Proof. by intros s _. Qed.

Lemma tracked_keyword_makes_tracked_witness :
  is_tracked (py "Blender tutorial - Google Chrome") = true.
Proof.
  apply (tracked_keyword_makes_tracked ascii_tables_lower
           (py "Blender tutorial - Google Chrome") (py "blender"));
    [repeat constructor | reflexivity].
Defined.

Lemma other_keyword_makes_untracked_witness :
  is_tracked (py "Plan.xlsx - Excel - Vectorworks") = false.
Proof.
  apply (other_keyword_makes_untracked ascii_tables_lower
           (py "Plan.xlsx - Excel - Vectorworks") (py "excel"));
    [reflexivity | repeat constructor | reflexivity].
Defined.

Lemma tracked_without_keyword_witness :
  let parts := split (py " - ") (py "Plan A - Vectorworks") in
  is_tracked (py "Plan A - Vectorworks") = true
  <-> 1 < length parts
      /\ lower (take 30 (List.last parts [])) ∈ [py "3dsmax"; py "vectorworks"].
Proof.
  apply (tracked_without_keyword ascii_tables_lower (py "Plan A - Vectorworks"));
    reflexivity.
Defined.

(** ** The poll cycle and [run] over any sequence of events *)

Lemma List_filter_nil {A} (f : A -> bool) (l : list A) :
  (forall x, x ∈ l -> f x = false) -> List.filter f l = [].
Proof.
  induction l as [|x l IH]; intros Hall; [done|]. simpl.
  rewrite (Hall x) by (by left). apply IH. intros y Hy. apply Hall. by right.
Qed.

Lemma elapsed_seconds_nonneg a b :
  (0 <= sub_microseconds a b)%Z -> (0 <= elapsed_seconds a b)%Z.
Proof. intros Hle. unfold elapsed_seconds. by apply Z.quot_pos. Qed.

Lemma scenario_clock_nondecreasing : nondecreasing scenario_clock.
Proof. intros [|m] [|n] Hle; try done; lia. Qed.

Lemma fresh_tracker_in_sync : in_sync fresh_tracker.
Proof. by intros p. Qed.

Section CycleProperties.
Context `{UnicodeTables}.
Context (clock : nat -> datetime).
Context (iteration_order : nat -> list str -> list str).
Hypothesis iteration_order_perm :
  forall n l, iteration_order n l ≡ₚ l.

Lemma track_starts_filter ws : forall tn t,
  track_starts clock (List.filter is_tracked ws) tn t = track_starts clock ws tn t.
Proof.
  induction ws as [|w ws IH]; intros tn t; [done|].
  rewrite track_starts_cons. cbn [List.filter].
  destruct (is_tracked w) eqn:E; [|apply IH].
  rewrite track_starts_cons, E. apply IH.
Qed.

(** X7: the windows of applications outside the tracked set are invisible
    to a poll cycle: the cycle on all the titles is the cycle on the titles
    of tracked applications alone, whatever the tracker. *)
Theorem untracked_windows_are_invisible ws t :
  poll_cycle clock iteration_order (List.filter is_tracked ws) t
  = poll_cycle clock iteration_order ws t.
Proof. unfold poll_cycle. by rewrite track_starts_filter. Qed.

(** When every observed project has its session already, the first loop
    of a cycle leaves the tracker alone. *)
Lemma track_starts_idle ws : forall tn t,
  (forall p, observed p ws = true -> dict_get p (session_active t) <> None) ->
  (track_starts clock ws tn t).2 = t.
Proof.
  induction ws as [|w ws IH]; intros tn t Hobs; [done|].
  assert (Hrest : forall p, observed p ws = true ->
                            dict_get p (session_active t) <> None).
  { intros p Hp. apply Hobs. rewrite observed_cons, Hp. apply orb_true_r. }
  rewrite track_starts_cons. destruct (is_tracked w) eqn:E; [|by apply IH].
  destruct (dict_get (extract_project_name w) (session_active t)) eqn:Eg;
    [by apply IH|].
  exfalso. apply (Hobs (extract_project_name w)); [|done].
  rewrite observed_cons, E. simpl. by rewrite bool_decide_true.
Qed.

(** After a cycle, the projects with a session are the observed ones. *)
Lemma poll_cycle_active ws t t' p :
  active_ok (session_active t) ->
  poll_cycle clock iteration_order ws t = Ok t' ->
  dict_get p (session_active t') <> None <-> observed p ws = true.
Proof.
  intros Hok Hcycle.
  destruct (poll_cycle_spec clock iteration_order iteration_order_perm ws t Hok)
    as (t1 & Heq & _ & _ & Hact & Hnew).
  assert (t1 = t') as -> by congruence.
  destruct (dict_get p (session_active t)) as [a|] eqn:Ea.
  - specialize (Hact p a Ea). destruct (observed p ws); by destruct Hact as [-> _].
  - destruct (Hnew p Ea) as [_ Ho]. destruct (opening_title p ws) eqn:Eo.
    + destruct Ho as (n & _ & ->). split; [|done]. intros _.
      apply observed_opening. eauto.
    + rewrite Ho. apply not_observed_opening in Eo. by rewrite Eo.
Qed.

(** X8: a cycle that enumerates the same titles as the cycle before it
    changes nothing at all: no session is opened or closed, no log is
    written and the clock is not read. *)
Theorem same_windows_change_nothing ws t :
  active_wf t = true ->
  exists t',
    poll_cycle clock iteration_order ws t = Ok t'
    /\ poll_cycle clock iteration_order ws t' = Ok t'.
Proof.
  intros Hwf%active_wf_ok.
  destruct (poll_cycle_spec clock iteration_order iteration_order_perm ws t Hwf)
    as (t' & Heq & Hok' & _).
  exists t'. split; [done|].
  pose proof (poll_cycle_active ws t t' ) as Hiff.
  unfold poll_cycle.
  destruct (track_starts_spec clock ws [] t' Hok')
    as (tn & t1 & Hts & _ & _ & _ & _ & _ & Htn & _).
  pose proof (track_starts_idle ws [] t') as Hidle.
  rewrite Hts in *. simpl in Hidle.
  rewrite Hidle by (intros p Hp; by apply Hiff).
  rewrite List_filter_nil.
  - pose proof (iteration_order_perm (ticks t') []) as Hperm.
    apply Permutation_nil_r in Hperm. by rewrite Hperm.
  - intros p Hp. apply bool_decide_eq_false. intros Hnot. apply Hnot, Htn. right.
    apply (Hiff p Hwf Heq). apply dict_get_key in Hp as [a ->]. done.
Qed.

(** X9: when a cycle sees several windows of a project that has no
    session, the session that it opens carries the title of the first
    window of a tracked application that classifies to the project, and
    starts at a clock reading of the cycle. *)
Theorem first_title_opens_session ws t p w :
  active_wf t = true ->
  dict_get p (session_active t) = None ->
  opening_title p ws = Some w ->
  exists t' n,
    poll_cycle clock iteration_order ws t = Ok t'
    /\ ticks t <= n < ticks t'
    /\ dict_get p (session_active t')
       = Some {| a_start := clock n; a_window_title := w |}
    /\ sessions_of t' p = sessions_of t p.
Proof.
  intros Hwf%active_wf_ok Hidle Hopen.
  destruct (poll_cycle_spec clock iteration_order iteration_order_perm ws t Hwf)
    as (t' & Heq & _ & _ & _ & Hnew).
  destruct (Hnew p Hidle) as [Hs Ho]. rewrite Hopen in Ho.
  destruct Ho as (n & Hn & Ha). by exists t', n.
Qed.

(** What a cycle leaves of the log folder: the log of a project that has no
    session, or that is observed, is not touched. *)
Lemma poll_cycle_files ws t t' p :
  active_ok (session_active t) ->
  poll_cycle clock iteration_order ws t = Ok t' ->
  dict_get p (session_active t) = None \/ observed p ws = true ->
  dict_get (log_name p) (files t') = dict_get (log_name p) (files t).
Proof.
  intros Hok. unfold poll_cycle.
  destruct (track_starts_spec clock ws [] t Hok)
    as (tn & t1 & -> & Hok1 & _ & _ & Hf & _ & Htn & _ & Hnew).
  set (closed := iteration_order _ _).
  assert (Hclosed : forall q,
            q ∈ closed <-> q ∈ dict_keys (session_active t1) /\ q ∉ tn).
  { intros q. unfold closed. rewrite iteration_order_perm.
    rewrite elem_of_List_filter, bool_decide_eq_true. tauto. }
  destruct (close_each_spec clock closed t1 Hok1)
    as (t2 & -> & _ & _ & Hout & _).
  { unfold closed. rewrite iteration_order_perm.
    apply NoDup_List_filter, Hok1. }
  { intros q Hq. by apply Hclosed in Hq as [? _]. }
  intros [= <-] Hp. destruct (Hout p) as (_ & _ & ->); [|by rewrite Hf].
  rewrite Hclosed. intros [Hkey Hntn].
  destruct (observed p ws) eqn:Eobs.
  - apply Hntn, Htn. by right.
  - destruct Hp as [Hp|Hp]; [|done]. specialize (Hnew p Hp).
    apply not_observed_opening in Eobs. rewrite Eobs in Hnew.
    by apply dict_get_None in Hnew.
Qed.

(** What the interrupt handler leaves of the log folder. *)
Lemma shutdown_files t t' p :
  active_ok (session_active t) ->
  shutdown clock t = Ok t' ->
  dict_get p (session_active t) = None ->
  dict_get (log_name p) (files t') = dict_get (log_name p) (files t).
Proof.
  intros Hok. unfold shutdown.
  destruct (close_each_spec clock (dict_keys (session_active t)) t Hok)
    as (t2 & -> & _ & _ & Hout & _); [apply Hok | done |].
  intros [= <-] Hp. apply Hout. by apply dict_get_None.
Qed.

(** A property of the trackers that [run] goes through, proved cycle by
    cycle: what every cycle and the interrupt handler keep holds of the
    tracker that [run] ends with. *)
Lemma run_invariant (I : tracker -> Prop) :
  (forall ws t t',
     I t -> poll_cycle clock iteration_order ws t = Ok t' -> I t') ->
  (forall t t', I t -> shutdown clock t = Ok t' -> I t') ->
  forall events t t',
    I t -> final_tracker (run clock iteration_order events t) = Some t' -> I t'.
Proof.
  intros Hstep Hstop.
  induction events as [|[d|] events IH]; intros t t' HI; simpl.
  - by intros [= <-].
  - destruct (get_all_open_windows d) as [ws|]; [|done].
    destruct (poll_cycle clock iteration_order ws t) as [t1|] eqn:E; [|done].
    apply IH. by apply (Hstep ws t).
  - destruct (shutdown clock t) as [t1|] eqn:E; [|done].
    intros [= <-]. by apply (Hstop t).
Qed.

Lemma poll_cycle_active_ok ws t t' :
  active_ok (session_active t) ->
  poll_cycle clock iteration_order ws t = Ok t' ->
  active_ok (session_active t').
Proof.
  intros Hok Hcycle.
  destruct (poll_cycle_spec clock iteration_order iteration_order_perm ws t Hok)
    as (t1 & Heq & Hok1 & _). congruence.
Qed.

Lemma shutdown_active_ok t t' :
  active_ok (session_active t) ->
  shutdown clock t = Ok t' ->
  active_ok (session_active t').
Proof.
  intros Hok Hstop. destruct (shutdown_spec clock t Hok) as (t1 & Heq & Hnil & _).
  assert (t1 = t') as <- by congruence. rewrite Hnil. split; constructor.
Qed.

(** X10: the history of a project is append-only: whatever cycles and
    interrupt [run] goes through, the sessions recorded before are still
    there afterwards, unchanged and in the same order, at the head of the
    history. *)
Theorem history_is_append_only events t t' p :
  active_wf t = true ->
  final_tracker (run clock iteration_order events t) = Some t' ->
  sessions_of t p `prefix_of` sessions_of t' p.
Proof.
  intros Hwf%active_wf_ok Hrun.
  apply (run_invariant
           (fun t1 => active_ok (session_active t1)
                      /\ sessions_of t p `prefix_of` sessions_of t1 p))
    with (events := events) (t := t); try done.
  - intros ws t0 t1 [Hok Hpre] Hcycle.
    split; [by apply (poll_cycle_active_ok ws t0)|].
    destruct (poll_cycle_spec clock iteration_order iteration_order_perm ws t0 Hok)
      as (t2 & Heq & _ & _ & Hact & Hnew).
    assert (t2 = t1) as -> by congruence. etrans; [done|].
    destruct (dict_get p (session_active t0)) as [a|] eqn:Ea.
    + specialize (Hact p a Ea). destruct (observed p ws).
      * destruct Hact as [_ ->]. done.
      * destruct Hact as (_ & n & _ & -> & _). by apply prefix_app_r.
    + destruct (Hnew p Ea) as [-> _]. done.
  - intros t0 t1 [Hok Hpre] Hstop. split; [by apply (shutdown_active_ok t0)|].
    destruct (shutdown_spec clock t0 Hok) as (t2 & Heq & _ & Hact & Hidle).
    assert (t2 = t1) as -> by congruence. etrans; [done|].
    destruct (dict_get p (session_active t0)) as [a|] eqn:Ea.
    + destruct (Hact p a Ea) as (n & _ & -> & _). by apply prefix_app_r.
    + by rewrite (Hidle p Ea).
Qed.

(** X11: as long as the window enumeration does not fail, [run] is not
    ended by an exception: the lookups [session_active[proj]] of its two
    closing loops never raise [KeyError], whatever the windows and the
    order in which the sets are iterated. *)
Theorem run_survives_while_enumeration_works events : forall t,
  active_wf t = true ->
  forallb (fun ev => match ev with Cycle EnumFailed => false | _ => true end)
    events = true ->
  exists t',
    final_tracker (run clock iteration_order events t) = Some t'
    /\ active_wf t' = true.
Proof.
  induction events as [|[[ws|]|] events IH]; intros t Hwf Hev; simpl.
  - by exists t.
  - apply active_wf_ok in Hwf.
    destruct (poll_cycle_spec clock iteration_order iteration_order_perm
                (window_text <$>
                   List.filter
                     (fun w => visible w && negb (bool_decide (window_text w = [])))
                     ws) t Hwf)
      as (t1 & -> & Hok1 & _).
    apply IH; [by apply active_wf_ok | done].
  - done.
  - apply active_wf_ok in Hwf.
    destruct (shutdown_spec clock t Hwf) as (t1 & -> & Hnil & _).
    exists t1. split; [done|]. apply active_wf_ok. rewrite Hnil. split; constructor.
Qed.

Lemma save_session_log_created proj t p c :
  created_of t p = Some c ->
  created_of (save_session_log clock proj t) p = Some c.
Proof.
  unfold created_of, save_session_log.
  destruct (sessions_of t proj) as [|first ?]; [done|]. simpl.
  destruct (decide (p = proj)) as [->|Hne]; [|by rewrite lookup_insert_ne].
  rewrite lookup_insert_eq. simpl. unfold created_or_start.
  destruct (log_meta t !! proj) as [m|]; simpl; [|done]. by intros ->.
Qed.

Lemma on_window_close_created w t p c :
  created_of t p = Some c -> created_of (on_window_close clock w t) p = Some c.
Proof.
  unfold on_window_close. destruct (dict_get _ _); [|done].
  intros Hc. by apply save_session_log_created.
Qed.

Lemma close_each_created projs : forall t t' p c,
  close_each clock projs t = Ok t' ->
  created_of t p = Some c -> created_of t' p = Some c.
Proof.
  induction projs as [|q projs IH]; intros t t' p c; simpl.
  - by intros [= <-].
  - destruct (dict_get q (session_active t)) as [a|]; [|done]. simpl.
    intros Hrest Hc. eapply IH; [done|]. by apply on_window_close_created.
Qed.

Lemma track_starts_log_meta ws : forall tn t,
  log_meta (track_starts clock ws tn t).2 = log_meta t.
Proof.
  induction ws as [|w ws IH]; intros tn t; [done|].
  rewrite track_starts_cons. destruct (is_tracked w); [|apply IH].
  rewrite IH. destruct (dict_get _ _) eqn:E; [done|].
  unfold on_window_open. by rewrite E.
Qed.

(** X12: the creation stamp of a project never changes once the metadata
    hold one: through every cycle and the interrupt handler, each save of
    the log writes the same [created] again. *)
Theorem created_stamp_is_kept events t t' p c :
  final_tracker (run clock iteration_order events t) = Some t' ->
  created_of t p = Some c ->
  created_of t' p = Some c.
Proof.
  intros Hrun Hc.
  apply (run_invariant (fun t1 => created_of t1 p = Some c))
    with (events := events) (t := t); try done.
  - intros ws t0 t1 Hc0 Hcycle. unfold poll_cycle in Hcycle.
    pose proof (track_starts_log_meta ws [] t0) as Hmeta.
    destruct (track_starts clock ws [] t0) as [tn t2]. simpl in Hmeta.
    eapply close_each_created; [done|]. unfold created_of. by rewrite Hmeta.
  - intros t0 t1 Hc0 Hstop. by eapply close_each_created.
Qed.

(** X13: the log folder mirrors the histories at every moment: if each log
    is the text that [save_session_log] writes for the history of its
    project (and a project without a log has no history) before [run], it
    is so after every cycle and after the interrupt. *)
Theorem log_folder_mirrors_histories events t t' :
  active_wf t = true ->
  in_sync t ->
  final_tracker (run clock iteration_order events t) = Some t' ->
  in_sync t'.
Proof.
  intros Hwf%active_wf_ok Hsync Hrun.
  apply (run_invariant
           (fun t1 => active_ok (session_active t1) /\ in_sync t1))
    with (events := events) (t := t); try done.
  - intros ws t0 t1 [Hok Hs] Hcycle.
    split; [by apply (poll_cycle_active_ok ws t0)|]. intros p.
    destruct (poll_cycle_spec clock iteration_order iteration_order_perm ws t0 Hok)
      as (t2 & Heq & _ & _ & Hact & Hnew).
    assert (t2 = t1) as -> by congruence.
    pose proof (poll_cycle_files ws t0 t1 p Hok Hcycle) as Hfiles.
    specialize (Hs p).
    destruct (dict_get p (session_active t0)) as [a|] eqn:Ea.
    + specialize (Hact p a Ea). destruct (observed p ws).
      * destruct Hact as [_ ->]. rewrite Hfiles by (by right). done.
      * destruct Hact as (_ & n & _ & _ & c & lc & ->). by exists c, lc.
    + destruct (Hnew p Ea) as [-> _]. rewrite Hfiles by (by left). done.
  - intros t0 t1 [Hok Hs] Hstop. split; [by apply (shutdown_active_ok t0)|].
    intros p. destruct (shutdown_spec clock t0 Hok) as (t2 & Heq & _ & Hact & Hidle).
    assert (t2 = t1) as -> by congruence. specialize (Hs p).
    destruct (dict_get p (session_active t0)) as [a|] eqn:Ea.
    + destruct (Hact p a Ea) as (n & _ & _ & c & lc & ->). by exists c, lc.
    + rewrite (Hidle p Ea), (shutdown_files t0 t1 p Hok Hstop Ea). done.
Qed.

(** X14: with a clock that never goes back, no session that [run] records
    has a negative duration: what [run] adds to the history of a project
    are sessions of zero seconds or more. *)
Theorem recorded_durations_are_not_negative events t t' p :
  nondecreasing clock ->
  active_wf t = true ->
  starts_read clock t ->
  final_tracker (run clock iteration_order events t) = Some t' ->
  exists added,
    sessions_of t' p = sessions_of t p ++ added
    /\ Forall (fun s => (0 <= s_duration s)%Z) added.
Proof.
  intros Hmono Hwf%active_wf_ok Hread Hrun.
  assert (Hclosed : forall t0 a n q,
            starts_read clock t0 -> dict_get q (session_active t0) = Some a ->
            ticks t0 <= n ->
            (0 <= s_duration (closed_session clock a n))%Z).
  { intros t0 a n q Hr Ha Hn. destruct (Hr q a Ha) as (m & Hm & Hstart).
    simpl. rewrite Hstart. apply elapsed_seconds_nonneg, Hmono. lia. }
  cut (active_ok (session_active t') /\ starts_read clock t'
       /\ exists added, sessions_of t' p = sessions_of t p ++ added
                        /\ Forall (fun s => (0 <= s_duration s)%Z) added);
    [tauto|].
  apply (run_invariant
           (fun t1 => active_ok (session_active t1) /\ starts_read clock t1
              /\ exists added, sessions_of t1 p = sessions_of t p ++ added
                               /\ Forall (fun s => (0 <= s_duration s)%Z) added))
    with (events := events) (t := t); try done.
  - intros ws t0 t1 (Hok & Hr & added & Hadd & Hpos) Hcycle.
    split; [by apply (poll_cycle_active_ok ws t0)|].
    destruct (poll_cycle_spec clock iteration_order iteration_order_perm ws t0 Hok)
      as (t2 & Heq & _ & Htk & Hact & Hnew).
    assert (t2 = t1) as -> by congruence. split.
    + intros q a' Ha'.
      destruct (dict_get q (session_active t0)) as [a|] eqn:Ea.
      * specialize (Hact q a Ea). destruct (observed q ws).
        -- destruct Hact as [Hsame _]. assert (a' = a) as -> by congruence.
           destruct (Hr q a Ea) as (m & Hm & Hstart). exists m. split; [lia|done].
        -- destruct Hact as [Hgone _]. congruence.
      * destruct (Hnew q Ea) as [_ Ho]. destruct (opening_title q ws).
        -- destruct Ho as (n & Hn & Hq). exists n. split; [lia|]. 
           assert (a' = {| a_start := clock n; a_window_title := s |}) as ->
             by congruence. done.
        -- congruence.
    + destruct (dict_get p (session_active t0)) as [a|] eqn:Ea.
      * specialize (Hact p a Ea). destruct (observed p ws).
        -- destruct Hact as [_ ->]. by exists added.
        -- destruct Hact as (_ & n & Hn & -> & _).
           exists (added ++ [closed_session clock a n]).
           rewrite Hadd, <- app_assoc. split; [done|].
           apply Forall_app. split; [done|]. constructor; [|done].
           apply (Hclosed t0 a n p); [done | done | lia].
      * destruct (Hnew p Ea) as [-> _]. by exists added.
  - intros t0 t1 (Hok & Hr & added & Hadd & Hpos) Hstop.
    split; [by apply (shutdown_active_ok t0)|].
    destruct (shutdown_spec clock t0 Hok) as (t2 & Heq & Hnil & Hact & Hidle).
    assert (t2 = t1) as -> by congruence. split.
    + intros q a'. by rewrite Hnil.
    + destruct (dict_get p (session_active t0)) as [a|] eqn:Ea.
      * destruct (Hact p a Ea) as (n & Hn & -> & _).
        exists (added ++ [closed_session clock a n]).
        rewrite Hadd, <- app_assoc. split; [done|].
        apply Forall_app. split; [done|]. constructor; [|done].
        apply (Hclosed t0 a n p); [done | done | lia].
      * rewrite (Hidle p Ea). by exists added.
  - split_and!; [done | done |]. exists []. by rewrite app_nil_r.
Qed.
End CycleProperties.

(** The second cycle of the scenario sees the window of the first. *)
Lemma same_windows_change_nothing_witness :
  exists t',
    poll_cycle scenario_clock as_listed [py "ProjA - Blender"] fresh_tracker = Ok t'
    /\ poll_cycle scenario_clock as_listed [py "ProjA - Blender"] t' = Ok t'.
Proof.
  apply (same_windows_change_nothing scenario_clock as_listed as_listed_perm).
  reflexivity.
Defined.

(** Two windows of [ProjA] in one cycle. *)
Lemma first_title_opens_session_witness :
  exists t' n,
    poll_cycle scenario_clock as_listed
      [py "ProjA - Blender 4.5"; py "ProjA - Blender"] fresh_tracker = Ok t'
    /\ ticks fresh_tracker <= n < ticks t'
    /\ dict_get (py "ProjA") (session_active t')
       = Some {| a_start := scenario_clock n;
                 a_window_title := py "ProjA - Blender 4.5" |}
    /\ sessions_of t' (py "ProjA") = sessions_of fresh_tracker (py "ProjA").
Proof.
  apply (first_title_opens_session scenario_clock as_listed as_listed_perm);
    vm_compute; reflexivity.
Defined.

(** The session of the scenario is still the first one after the scenario
    has been gone through again. *)
Lemma history_is_append_only_witness :
  sessions_of after_scenario (py "ProjA")
  `prefix_of` sessions_of after_second_scenario (py "ProjA").
Proof.
  apply (history_is_append_only scenario_clock as_listed as_listed_perm
           scenario_events);
    vm_compute; reflexivity.
Defined.

Lemma run_survives_while_enumeration_works_witness :
  exists t',
    final_tracker (run scenario_clock as_listed (scenario_events ++ [CtrlC])
                     fresh_tracker) = Some t'
    /\ active_wf t' = true.
Proof.
  apply (run_survives_while_enumeration_works scenario_clock as_listed
           as_listed_perm); reflexivity.
Defined.

(** The log of [ProjA] was created at nine o'clock, and it says so after
    the second session of 09:01:00. *)
Lemma created_stamp_is_kept_witness :
  created_of after_second_scenario (py "ProjA") = Some (py "2024-01-01 09:00:00").
Proof.
  apply (created_stamp_is_kept scenario_clock as_listed scenario_events
           after_scenario);
    vm_compute; reflexivity.
Defined.

Lemma log_folder_mirrors_histories_witness : in_sync after_scenario.
Proof.
  apply (log_folder_mirrors_histories scenario_clock as_listed as_listed_perm
           scenario_events fresh_tracker);
    [reflexivity | apply fresh_tracker_in_sync | vm_compute; reflexivity].
Defined.

Lemma recorded_durations_are_not_negative_witness :
  exists added,
    sessions_of after_scenario (py "ProjA")
    = sessions_of fresh_tracker (py "ProjA") ++ added
    /\ Forall (fun s => (0 <= s_duration s)%Z) added.
Proof.
  apply (recorded_durations_are_not_negative scenario_clock as_listed as_listed_perm
           scenario_events fresh_tracker);
    [apply scenario_clock_nondecreasing | reflexivity | by intros p a
    | vm_compute; reflexivity].
Defined.

(** ** Logs read back *)

(** What the body of the row loop keeps holds at the end of the loop. *)
Lemma for_each_row_invariant {A} (P : A -> Prop) keep
    (body : list str -> A -> result A) :
  (forall row acc acc', P acc -> body row acc = Ok acc' -> P acc') ->
  forall lines r acc acc',
    P acc -> for_each_row keep body r lines acc = Ok acc' -> P acc'.
Proof.
  intros Hbody. induction lines as [|line lines IH]; intros r acc acc' HP; simpl.
  - destruct (record_pending r); [by apply Hbody | by intros [= <-]].
  - destruct (keep line) as [[|]|]; simpl; [| by apply IH | done].
    destruct (parse_line r line) as [r'|]; simpl; [|done].
    destruct (at_record_start r'); [|by apply IH].
    destruct (body (fields r') acc) as [acc1|] eqn:E; simpl; [|done].
    apply IH. by apply (Hbody (fields r') acc).
Qed.

Lemma foldr_add_snoc (l : list Z) z :
  foldr Z.add 0%Z (l ++ [z]) = (foldr Z.add 0%Z l + z)%Z.
Proof. induction l as [|x l IH]; simpl; lia. Qed.

Lemma chart_total_snoc l s :
  chart_total (l ++ [s]) = (chart_total l + c_duration s)%Z.
Proof. unfold chart_total. rewrite fmap_app. apply foldr_add_snoc. Qed.





Section VisualizerData.
Context `{UnicodeTables}.
Context (strptime : str -> option datetime).

Lemma read_log_sum content sessions total :
  read_log strptime content = Ok (sessions, total) ->
  total = chart_total sessions.
Proof.
  unfold read_log.
  destruct (for_each_row _ _ _ _ _) as [[[names cs] tot]|] eqn:E; [|done].
  simpl. intros [= <- <-].
  apply (for_each_row_invariant
           (fun acc : option (list str) * list chart_session * Z =>
              acc.2 = chart_total acc.1.2)) in E; [done| |done].
  intros row [[names0 cs0] tot0] acc'. simpl. intros ->.
  destruct names0 as [names0|]; [|by intros [= <-]].
  destruct (bool_decide (row = [])); [by intros [= <-]|].
  destruct (parse_chart_row strptime names0 row) as [s|]; intros [= <-]; simpl;
    [by rewrite chart_total_snoc | done].
Qed.

(** X17: for every project in the result of [read_project_logs], the
    total is the sum of the durations of the sessions listed with it, and
    there is at least one session: a log of which no row could be read
    gives no entry. *)
Theorem visualizer_total_is_sum dir : forall data p sessions total,
  read_project_logs strptime dir = Ok data ->
  (p, (sessions, total)) ∈ data ->
  total = chart_total sessions /\ sessions <> [].
Proof.
  induction dir as [|[filename content] dir IH]; intros data p sessions total; simpl.
  - intros [= <-] Hin. by apply elem_of_nil in Hin.
  - destruct (endswith _ filename); [|apply IH].
    destruct (read_log strptime content) as [[cs tot]|] eqn:E; [|done]. simpl.
    destruct (read_project_logs strptime dir) as [rest|]; [|done]. simpl.
    intros [= <-] Hin. specialize (IH rest p sessions total eq_refl).
    destruct cs as [|c cs]; [by apply IH|].
    apply elem_of_cons in Hin as [[= _ -> ->]|Hin]; [|by apply IH].
    split; [by apply read_log_sum in E | done].
Qed.






End VisualizerData.

Section ReloadBounded.
Context `{UnicodeTables}.
Context (clock clock' : nat -> datetime).

End ReloadBounded.

(** The corrupt log of [ProjA]: of its three rows the visualizer keeps the
    first, of 60 seconds (the second has no duration, and the time stamps of
    the third are not among those of the scenario). *)
Lemma visualizer_total_is_sum_witness :
  60%Z = chart_total
           [ {| c_start := at_second 0; c_end := at_second 60; c_duration := 60 |} ]
  /\ [ {| c_start := at_second 0; c_end := at_second 60; c_duration := 60 |} ] <> [].
Proof.
  eapply (visualizer_total_is_sum scenario_strptime
            [(log_name (py "ProjA"), corrupt_log)] _ (py "ProjA"));
    [vm_compute; reflexivity | constructor].
Defined.



(** ** A tracker started again on the folder that [run] leaves *)

Section DictSet.
Context {V : Type}.
Implicit Types (d : list (str * V)) (k : str) (v : V).

Lemma elem_of_dict_keys_set k k' v d :
  k' ∈ dict_keys (dict_set k v d) <-> k' = k \/ k' ∈ dict_keys d.
Proof.
  destruct (decide (k' = k)) as [->|Hne].
  - split; [by left|]. intros _. apply (dict_get_Some_key k v).
    apply dict_get_set_eq.
  - split.
    + intros Hin. right. apply dict_get_key in Hin as [v' Hv'].
      rewrite dict_get_set_ne in Hv' by done. by apply (dict_get_Some_key k' v').
    + intros [?|Hin]; [done|]. apply dict_get_key in Hin as [v' Hv'].
      apply (dict_get_Some_key k' v'). by rewrite dict_get_set_ne.
Qed.

Lemma dict_set_NoDup k v d :
  NoDup (dict_keys d) -> NoDup (dict_keys (dict_set k v d)).
Proof.
  induction d as [|[k' v'] d IH]; simpl.
  - intros _. apply NoDup_singleton.
  - intros [Hk' Hd]%NoDup_cons. destruct (decide (k = k')) as [->|Hne]; simpl.
    + by apply NoDup_cons.
    + apply NoDup_cons. split; [|by apply IH].
      rewrite elem_of_dict_keys_set. intros [?|?]; [congruence|done].
Qed.

Lemma Forall_dict_set (P : str * V -> Prop) k v d :
  NoDup (dict_keys d) ->
  P (k, v) ->
  (forall e, e ∈ d -> e.1 <> k -> P e) ->
  Forall P (dict_set k v d).
Proof.
  induction d as [|[k' v'] d IH]; simpl; intros Hnd Hnew Hold.
  - by constructor.
  - apply NoDup_cons in Hnd as [Hk' Hd].
    destruct (decide (k = k')) as [->|Hne].
    + constructor; [done|]. apply Forall_forall. intros e He.
      apply Hold; [by right|]. intros Hk. apply Hk'. rewrite <- Hk.
      unfold dict_keys. apply list_elem_of_fmap. by exists e.
    + constructor.
      * apply Hold; [by left|]. simpl. congruence.
      * apply IH; [done | done |]. intros e He. apply Hold. by right.
Qed.
End DictSet.

(** The history of a project of a restartable tracker, and its creation
    stamp. *)
Lemma restartable_history t p :
  restartable t ->
  forallb clean_session (sessions_of t p) = true
  /\ (sessions_of t p <> [] ->
      exists c, created_of t p = Some c /\ clean_stamp c = true).
Proof.
  intros (_ & _ & _ & Hent & Hin & _).
  assert (Hsome : sessions_of t p <> [] ->
            forallb clean_session (sessions_of t p) = true
            /\ exists c, created_of t p = Some c /\ clean_stamp c = true).
  { intros Hne. apply Hin, dict_get_key in Hne as [text Htext].
    apply dict_get_elem in Htext.
    apply (proj1 (Forall_forall _ _) Hent) in Htext
      as (q & c & lc & [= Hq _] & _ & Hclean & Hc & _ & Hcreated).
    apply log_name_inj in Hq as <-. eauto. }
  split; [|apply Hsome].
  destruct (sessions_of t p) eqn:E; [done|]. by apply Hsome.
Qed.

Lemma fresh_tracker_restartable : restartable fresh_tracker.
Proof.
  split_and!.
  - split; constructor.
  - done.
  - constructor.
  - constructor.
  - intros p Hne. by destruct Hne.
  - done.
Qed.

Section Restart.
Context `{UnicodeTables}.
Context (clock clock' : nat -> datetime).
Context (iteration_order : nat -> list str -> list str).

Lemma on_window_open_restartable w t :
  one_line w = true ->
  dict_get (extract_project_name w) (session_active t) = None ->
  restartable t -> restartable (on_window_open clock w t).
Proof.
  intros Hw Hget (Hok & Hline & Hnd & Hent & Hin & Hmeta).
  rewrite on_window_open_new by done.
  split_and!; simpl; try done.
  - by apply active_ok_open.
  - intros p a. rewrite dict_get_set. destruct (decide _); [|apply Hline].
    by intros [= <-].
Qed.

Lemma track_starts_restartable ws : forall tn t,
  Forall (fun w => one_line w = true) ws ->
  restartable t -> restartable (track_starts clock ws tn t).2.
Proof.
  induction ws as [|w ws IH]; intros tn t Hws Ht; [done|].
  apply Forall_cons in Hws as [Hw Hws]. rewrite track_starts_cons.
  destruct (is_tracked w); [|by apply IH]. apply IH; [done|].
  destruct (dict_get _ _) eqn:E; [done|]. by apply on_window_open_restartable.
Qed.

Lemma on_window_close_restartable t p a :
  restartable t ->
  dict_get p (session_active t) = Some a ->
  restartable (on_window_close clock (a_window_title a) t).
Proof.
  intros Ht Ha. pose proof Ht as (Hok & Hline & Hnd & Hent & Hin & Hmeta).
  pose proof (active_ok_key _ p a Hok Ha) as Hp.
  destruct (restartable_history t p Ht) as [Hclean Hcreated].
  unfold on_window_close. rewrite Hp, Ha.
  change {| s_start := strftime (a_start a);
            s_end := strftime (clock (ticks t));
            s_duration := elapsed_seconds (clock (ticks t)) (a_start a);
            s_window_title := a_window_title a |}
    with (closed_session clock a (ticks t)).
  set (l' := sessions_of t p ++ [closed_session clock a (ticks t)]).
  set (t1 := {| session_active := dict_remove p (session_active t);
                sessions := <[p := l']> (sessions t);
                log_meta := log_meta t; files := files t;
                ticks := S (ticks t) |}).
  assert (Hs1 : forall q, sessions_of t1 q
                          = if decide (q = p) then l' else sessions_of t q)
    by (intros q; apply sessions_of_insert).
  assert (Hl' : forallb clean_session l' = true).
  { unfold l'. rewrite forallb_app, Hclean. simpl.
    rewrite closed_session_clean; [done|]. by apply (Hline p). }
  unfold save_session_log. rewrite Hs1, decide_True by done.
  destruct l' as [|first rest] eqn:El'.
  { unfold l' in El'. by destruct (sessions_of t p). }
  set (c := created_or_start p first t1).
  set (lc := strftime (clock (ticks t1))).
  assert (Hc : clean_stamp c = true).
  { unfold c, created_or_start. simpl log_meta.
    destruct (sessions_of t p) as [|x xs] eqn:El.
    - rewrite (Hmeta p El). unfold l' in El'. simpl in El'.
      injection El' as <- _. apply strftime_clean.
    - destruct Hcreated as (c0 & Hc0 & Hclean0); [done|].
      unfold created_of in Hc0. destruct (log_meta t !! p) as [m|]; [|done].
      simpl in Hc0. by rewrite Hc0. }
  assert (Hs' : forall sa lm fs tk q,
            sessions_of {| session_active := sa; sessions := sessions t1;
                           log_meta := lm; files := fs; ticks := tk |} q
            = if decide (q = p) then first :: rest else sessions_of t q).
  { intros sa lm fs tk q. apply sessions_of_insert. }
  split_and!; simpl.
  - by apply active_ok_remove.
  - intros q b. rewrite dict_get_remove by apply Hok.
    destruct (decide _); [done|apply Hline].
  - by apply dict_set_NoDup.
  - apply Forall_dict_set; [done| |].
    + exists p, c, lc. rewrite Hs', decide_True by done.
      split_and!; try done; [apply strftime_clean|].
      unfold created_of. simpl. by rewrite lookup_insert_eq.
    + intros e He Hne.
      apply (proj1 (Forall_forall _ _) Hent) in He
        as (q & c0 & lc0 & -> & Hq & Hcq & Hc0 & Hlc0 & Hcr0).
      assert (q <> p) by (intros ->; by apply Hne).
      exists q, c0, lc0. rewrite Hs', decide_False by done.
      split_and!; try done. unfold created_of. simpl.
      by rewrite lookup_insert_ne.
  - intros q. rewrite Hs', elem_of_dict_keys_set.
    destruct (decide (q = p)) as [->|Hq]; [by left|]. intros Hne. right. by apply Hin.
  - intros q. rewrite Hs'. destruct (decide (q = p)) as [->|Hq]; [done|].
    intros Hnil. rewrite lookup_insert_ne by done. by apply Hmeta.
Qed.

Lemma close_each_restartable projs : forall t t',
  close_each clock projs t = Ok t' -> restartable t -> restartable t'.
Proof.
  induction projs as [|p projs IH]; intros t t'; simpl.
  - by intros [= <-].
  - destruct (dict_get p (session_active t)) as [a|] eqn:Ea; [|done]. simpl.
    intros Hrest Ht. eapply IH; [done|]. by apply (on_window_close_restartable t p).
Qed.

Lemma poll_cycle_restartable ws t t' :
  Forall (fun w => one_line w = true) ws ->
  poll_cycle clock iteration_order ws t = Ok t' ->
  restartable t -> restartable t'.
Proof.
  intros Hws Hcycle Ht. unfold poll_cycle in Hcycle.
  pose proof (track_starts_restartable ws [] t Hws Ht) as H1.
  destruct (track_starts clock ws [] t) as [tn t1]. simpl in H1.
  by eapply close_each_restartable.
Qed.

Lemma run_restartable events : forall t t',
  forallb storable_event events = true ->
  final_tracker (run clock iteration_order events t) = Some t' ->
  restartable t -> restartable t'.
Proof.
  induction events as [|[[ws|]|] events IH]; intros t t' Hev; simpl.
  - by intros [= <-].
  - simpl in Hev. apply andb_true_iff in Hev as [Hws Hev].
    destruct (poll_cycle _ _ _ t) as [t1|] eqn:E; [|done].
    intros Hrun Ht. apply (IH t1 t' Hev Hrun).
    eapply poll_cycle_restartable; [|done|done].
    apply Forall_forall. intros w Hw.
    apply list_elem_of_fmap in Hw as (x & -> & Hx).
    apply elem_of_List_filter in Hx as [Hx _].
    apply list_elem_of_In in Hx. apply (proj1 (forallb_forall _ _) Hws) in Hx.
    by apply andb_true_iff in Hx as [? _].
  - done.
  - destruct (shutdown clock t) as [t1|] eqn:E; [|done].
    intros [= <-] Ht. by eapply close_each_restartable.
Qed.

(** Loading a folder of logs of [t]: each project of the folder gets the
    history and the creation stamp that it has in [t]. *)
Lemma load_files_restartable t dir : forall t0,
  NoDup (dict_keys dir) ->
  Forall (log_entry_ok t) dir ->
  exists t2,
    load_files clock' dir t0 = Ok t2
    /\ forall p,
         if decide (log_name p ∈ dict_keys dir)
         then sessions_of t2 p = sessions_of t0 p ++ sessions_of t p
              /\ created_of t2 p = created_of t p
         else sessions_of t2 p = sessions_of t0 p
              /\ created_of t2 p = created_of t0 p.
Proof.
  induction dir as [|[name text] dir IH]; intros t0 Hnd Hent.
  - exists t0. split; [done|]. intros p. rewrite decide_False; [done|].
    apply not_elem_of_nil.
  - apply NoDup_cons in Hnd as [Hname Hnd].
    apply Forall_cons in Hent
      as [(q & c & lc & [= -> ->] & Hq & Hclean & Hc & Hlc & Hcreated) Hent].
    cbn [load_files]. rewrite load_file_written by done.
    rewrite bind_Ok.
    set (t1 := {| session_active := session_active t0;
                  sessions := _; log_meta := _; files := files t0;
                  ticks := ticks t0 |}).
    destruct (IH t1 Hnd Hent) as (t2 & -> & Hall).
    exists t2. split; [done|]. intros p. specialize (Hall p).
    assert (Hs1 : sessions_of t1 p
                  = if decide (p = q) then sessions_of t0 q ++ sessions_of t q
                    else sessions_of t0 p).
    { unfold t1. destruct (sessions_of t q) eqn:El; [done|].
      apply sessions_of_insert. }
    assert (Hc1 : created_of t1 p
                  = if decide (p = q) then created_of t q else created_of t0 p).
    { unfold created_of, t1. simpl. destruct (decide (p = q)) as [->|Hne].
      - rewrite lookup_insert_eq. simpl. by rewrite <- Hcreated.
      - by rewrite lookup_insert_ne. }
    destruct (decide (p = q)) as [->|Hne].
    + rewrite decide_True by (by left).
      rewrite decide_False in Hall by done. destruct Hall as [-> ->].
      by rewrite Hs1, Hc1.
    + assert (Hiff : forall x : str,
                log_name p ∈ dict_keys ((log_name q, x) :: dir)
                <-> log_name p ∈ dict_keys dir).
      { intros x. unfold dict_keys. rewrite fmap_cons, elem_of_cons. simpl.
        split; [|by right]. intros [Heq%log_name_inj|?]; done. }
      destruct (decide (log_name p ∈ dict_keys dir)) as [Hin|Hnin].
      * rewrite decide_True by by apply Hiff.
        destruct Hall as [-> ->]. by rewrite Hs1.
      * rewrite decide_False by by rewrite Hiff.
        destruct Hall as [-> ->]. by rewrite Hs1, Hc1.
Qed.

(** X16: stop and start again.  After any sequence of poll cycles and the
    interrupt on a tracker started on an empty log folder, with window
    titles that hold no line break and are within the field limit of the
    reader, a new tracker started on the folder
    does not raise and holds, for every project, the history that the old
    one held (the same sessions in the same order) and the same creation
    stamp. *)
Theorem restart_gives_histories_back events t :
  forallb storable_event events = true ->
  final_tracker (run clock iteration_order events fresh_tracker) = Some t ->
  exists t2,
    new_tracker clock' (files t) = Ok t2
    /\ forall p, sessions_of t2 p = sessions_of t p
                 /\ created_of t2 p = created_of t p.
Proof.
  intros Hev Hrun.
  pose proof (run_restartable events fresh_tracker t Hev Hrun
                fresh_tracker_restartable) as Ht.
  pose proof Ht as (_ & _ & Hnd & Hent & Hin & Hmeta).
  unfold new_tracker, load_existing_sessions. cbn [files].
  destruct (load_files_restartable t (files t)
              {| session_active := []; sessions := ∅; log_meta := ∅;
                 files := files t; ticks := 0 |} Hnd Hent)
    as (t2 & -> & Hall).
  exists t2. split; [done|]. intros p. specialize (Hall p).
  destruct (decide (log_name p ∈ dict_keys (files t))) as [Hp|Hp].
  - destruct Hall as [-> ->]. done.
  - destruct Hall as [-> ->].
    assert (Hnil : sessions_of t p = []).
    { destruct (sessions_of t p) eqn:E; [done|]. exfalso. apply Hp, Hin.
      by rewrite E. }
    unfold created_of. rewrite (Hmeta p Hnil), Hnil. done.
Qed.
End Restart.

Lemma restart_gives_histories_back_witness :
  exists t2,
    new_tracker scenario_clock (files after_scenario) = Ok t2
    /\ forall p, sessions_of t2 p = sessions_of after_scenario p
                 /\ created_of t2 p = created_of after_scenario p.
Proof.
  apply (restart_gives_histories_back scenario_clock scenario_clock as_listed
           scenario_events after_scenario); vm_compute; reflexivity.
Defined.
